(** * Data quality checker: a shallow embedding of [scripts/quality_check.py]

    The development embeds the [DataQualityChecker] class and its driver
    [run_quality_checks].  The checker's ledger and the data frames it is
    handed are Python objects mutated in place; they live here in an explicit
    state threaded through a small state-and-exception monad, so that a rule
    can change the state before it raises.

    Conventions of the embedding:
    - a data frame is column-major, as in pandas: labelled series over a
      shared index of [nrows] positions; every series carries its dtype
      (numeric, boolean, [object] or [datetime64]); cells are missing
      ([NaN]/[NaT], or Python's [None] in an [object] column), numbers, text
      or time stamps; a boolean is the number 0 or 1, as it is for every
      comparison pandas makes, and what tells a boolean column is its dtype;
    - Python floats are extended rationals: exact finite values together with
      [nan] and the two infinities, so that a division by zero behaves as it
      does in numpy and pandas (no exception, a [nan] that fails every
      comparison); counts, percentages and the integer bounds they are
      compared with are of this kind;
    - the quartiles and the fences of the outlier check, whose last digits
      decide which rows lie outside, are computed in binary64 as numpy
      computes them: the operations are those of the standard library's
      [SpecFloat] at precision 53, and a number of a column is read as the
      binary64 number nearest to it (itself, when it is one);
    - the bounds of a range check are integers, as in the driver;
    - [pd.to_datetime] (with the time-zone awareness of what it returns),
      [datetime.now] and the rendering of time stamps are taken from an
      environment record: the checks are parametric in them, and the clock
      does not advance during a run;
    - console output ([print]) is not part of the state. *)

From Stdlib Require Import List String Ascii Bool Arith ZArith QArith Qround Lia.
From Stdlib Require Import DecimalString Permutation Sorted.
From Stdlib Require SpecFloat.
Import ListNotations.

Close Scope Q_scope.
Local Open Scope string_scope.
Local Open Scope list_scope.

Infix "+++" := String.append (at level 60, right associativity).

(** ** Floats *)

Module Float.

Inductive fval : Type :=
| Fin (q : Q)
| PInf
| NInf
| NaN.

Definition Qlt_bool (x y : Q) : bool :=
  (Qnum x * QDen y <? Qnum y * QDen x)%Z.

Definition of_Z (z : Z) : fval := Fin (inject_Z z).
Definition of_nat (n : nat) : fval := of_Z (Z.of_nat n).

Definition neg (x : fval) : fval :=
  match x with
  | Fin q => Fin (- q)%Q
  | PInf => NInf
  | NInf => PInf
  | NaN => NaN
  end.

Definition add (x y : fval) : fval :=
  match x, y with
  | NaN, _ | _, NaN => NaN
  | Fin a, Fin b => Fin (a + b)%Q
  | PInf, NInf | NInf, PInf => NaN
  | PInf, _ | _, PInf => PInf
  | NInf, _ | _, NInf => NInf
  end.

Definition sub (x y : fval) : fval := add x (neg y).

Definition sign (x : fval) : Z :=
  match x with
  | Fin q => Z.sgn (Qnum q)
  | PInf => 1
  | NInf => -1
  | NaN => 0
  end.

Definition mul (x y : fval) : fval :=
  match x, y with
  | NaN, _ | _, NaN => NaN
  | Fin a, Fin b => Fin (a * b)%Q
  | _, _ =>
      match (sign x * sign y)%Z with
      | Z0 => NaN
      | Zpos _ => PInf
      | Zneg _ => NInf
      end
  end.

(** Division of numpy scalars and of pandas series: a zero divisor gives
    [nan] or an infinity, never an exception. *)
Definition div (x y : fval) : fval :=
  match x, y with
  | NaN, _ | _, NaN => NaN
  | Fin a, Fin b =>
      if Qeq_bool b 0 then
        match Z.sgn (Qnum a) with
        | Z0 => NaN
        | Zpos _ => PInf
        | Zneg _ => NInf
        end
      else Fin (a / b)%Q
  | Fin _, _ => Fin 0
  | _, Fin b =>
      match (sign x * (if Qlt_bool b 0 then -1 else 1))%Z with
      | Zneg _ => NInf
      | _ => PInf
      end
  | _, _ => NaN
  end.

(** [x < y]; false as soon as one side is [nan]. *)
Definition ltb (x y : fval) : bool :=
  match x, y with
  | NaN, _ | _, NaN => false
  | Fin a, Fin b => Qlt_bool a b
  | NInf, NInf | PInf, _ => false
  | NInf, _ => true
  | Fin _, PInf => true
  | Fin _, NInf => false
  end.

Definition gtb (x y : fval) : bool := ltb y x.

End Float.

Import Float.

(** ** Binary64 *)

Definition float64 : Type := SpecFloat.spec_float.

Module Float64.

Definition prec : Z := 53.
Definition emax : Z := 1024.

Definition nan : float64 := SpecFloat.S754_nan.

Definition add : float64 -> float64 -> float64 := SpecFloat.SFadd prec emax.
Definition sub : float64 -> float64 -> float64 := SpecFloat.SFsub prec emax.
Definition mul : float64 -> float64 -> float64 := SpecFloat.SFmul prec emax.

(** [x < y] and [x <= y]; false as soon as one side is [nan]. *)
Definition ltb : float64 -> float64 -> bool := SpecFloat.SFltb.
Definition leb : float64 -> float64 -> bool := SpecFloat.SFleb.
Definition gtb (x y : float64) : bool := ltb y x.

(** The quotient [n / d] rounded to the nearest binary64 number, ties to
    even.  A quotient that rounds to zero is read as [+0]: the sign of a zero
    shows in no comparison. *)
Definition round (s : bool) (n d : positive) : float64 :=
  let '(m, e, l) :=
    SpecFloat.SFdiv_core_binary prec emax (Zpos n) 0 (Zpos d) 0 in
  match SpecFloat.binary_round_aux prec emax s m e l with
  | SpecFloat.S754_zero _ => SpecFloat.S754_zero false
  | x => x
  end.

(** The binary64 number nearest to a rational. *)
Definition of_Q (q : Q) : float64 :=
  let r := Qred q in
  match Qnum r with
  | Z0 => SpecFloat.S754_zero false
  | Zpos n => round false n (Qden r)
  | Zneg n => round true n (Qden r)
  end.

End Float64.


(** ** Rendering of numbers in messages *)

Definition show_Z (z : Z) : string := NilZero.string_of_int (Z.to_int z).
Definition show_nat (n : nat) : string := show_Z (Z.of_nat n).

(** Nearest integer, ties to even: the rounding of a [.1f] format. *)
Definition round_half_even (q : Q) : Z :=
  let n := Qnum q in
  let d := QDen q in
  let f := (n / d)%Z in
  let r2 := (2 * (n mod d))%Z in
  if (r2 <? d)%Z then f
  else if (d <? r2)%Z then (f + 1)%Z
  else if Z.even f then f else (f + 1)%Z.

(** [f"{x:.1f}"] *)
Definition format_1f (x : fval) : string :=
  match x with
  | NaN => "nan"
  | PInf => "inf"
  | NInf => "-inf"
  | Fin q =>
      let t := round_half_even (q * 10)%Q in
      (if (t <? 0)%Z then "-" else "") +++
      show_Z (Z.abs t / 10) +++ "." +++ show_Z (Z.abs t mod 10)
  end.

(** ** Tables *)

(** [Null] is [NaN] or [NaT]; [PyNone] is Python's [None], which only an
    [object] series can hold.  [True] and [False] are the numbers 1 and 0. *)
Inductive cell : Type :=
| Null
| Num (q : Q)
| Str (s : string)
| Date (t : Z)
| PyNone.

(** The dtypes the checks distinguish: [int64]/[float64], [object],
    [datetime64[ns]] and [bool].  Time stamps count nanoseconds. *)
Inductive dtype : Type := Numeric | Object | Datetime | Boolean.

Record Series : Type := mkSeries {
  dt : dtype;
  values : list cell
}.

Record DataFrame : Type := mkFrame {
  nrows : nat;
  columns : list (string * Series)
}.

Definition is_null (c : cell) : bool :=
  match c with Null | PyNone => true | _ => false end.

(** Equality of two cells as [duplicated] sees it: missing values are equal
    to each other. *)
Definition cell_eqb (a b : cell) : bool :=
  match a, b with
  | (Null | PyNone), (Null | PyNone) => true
  | Num x, Num y => Qeq_bool x y
  | Str x, Str y => String.eqb x y
  | Date x, Date y => Z.eqb x y
  | _, _ => false
  end.

Fixpoint row_eqb (r1 r2 : list cell) : bool :=
  match r1, r2 with
  | [], [] => true
  | a :: r1', b :: r2' => cell_eqb a b && row_eqb r1' r2'
  | _, _ => false
  end.

(** [len(df)] *)
Definition len (df : DataFrame) : nat := nrows df.

Definition labels (df : DataFrame) : list string := map fst (columns df).

(** Label lookup in a labelled sequence: [s[col]]. *)
Fixpoint loc {A : Type} (l : list (string * A)) (col : string) : option A :=
  match l with
  | [] => None
  | (k, v) :: l' => if String.eqb col k then Some v else loc l' col
  end.

(** [col in df.columns] *)
Definition has_column (df : DataFrame) (col : string) : bool :=
  match loc (columns df) col with
  | Some _ => true
  | None => false
  end.

(** [df[col] = s] for a label already present. *)
Fixpoint set_loc {A : Type} (l : list (string * A)) (col : string) (v : A)
  : list (string * A) :=
  match l with
  | [] => []
  | (k, w) :: l' =>
      if String.eqb col k then (k, v) :: l' else (k, w) :: set_loc l' col v
  end.

Definition set_column (df : DataFrame) (col : string) (s : Series) : DataFrame :=
  mkFrame (nrows df) (set_loc (columns df) col s).

(** Row [i] of the frame restricted to the series [cols]. *)
Definition row_of (cols : list Series) (i : nat) : list cell :=
  map (fun s => nth i (values s) Null) cols.

Definition rows_of (n : nat) (cols : list Series) : list (list cell) :=
  map (row_of cols) (seq 0 n).

(** A frame as pandas builds it: distinct labels, every series as long as
    the index. *)
Definition well_formed (df : DataFrame) : Prop :=
  NoDup (labels df) /\
  Forall (fun c => List.length (values (snd c)) = nrows df) (columns df).

(** ** Findings and the ledger *)

Inductive Severity : Type := HIGH | MEDIUM | LOW.

Inductive Category : Type :=
| MissingData
| Duplicates
| RangeValidation
| DataFreshness
| DateParsing
| Outliers
| ReferentialIntegrity.

(** The [details] dictionaries, one constructor per set of keys. *)
Inductive Details : Type :=
| DColumnPct (column : string) (count : nat) (percentage : fval)
| DCount (count : nat)
| DRange (column : string) (count : nat) (expected_range : Z * Z)
| DFreshness (latest_date : string) (age_days : option Z)
| DKey (count : nat) (key : string).

Record Finding : Type := mkFinding {
  timestamp : string;
  severity : Severity;
  category : Category;
  message : string;
  details : option Details
}.

Record Checker : Type := mkChecker {
  issues : list Finding;
  passed_checks : list string
}.

(** [DataQualityChecker.__init__] *)
Definition new_checker : Checker := mkChecker [] [].

(** ** Environment, state and exceptions *)

Inductive exn : Type :=
| TypeError (msg : string)
| KeyError (key : string)
| ValueError (msg : string)
| FileNotFoundError (path : string).

(** [str(e)] *)
Definition str_exn (e : exn) : string :=
  match e with
  | TypeError m | KeyError m | ValueError m | FileNotFoundError m => m
  end.

Inductive outcome (A : Type) : Type :=
| Ok (a : A)
| Raise (e : exn).
Arguments Ok {A} a.
Arguments Raise {A} e.

(** What the script takes from pandas and from the clock.  [to_datetime]
    either raises or gives one time stamp per position, [None] for [NaT];
    [tz_aware s] tells whether the dates it gives for [s] carry a time
    zone, while [datetime.now()] never does. *)
Record Env : Type := mkEnv {
  now : Z;
  strftime : Z -> string;
  to_datetime : Series -> outcome (list (option Z));
  str_timestamp : option Z -> string;
  tz_aware : Series -> bool
}.

(** The three frames of the driver are objects shared with the rules. *)
Inductive ref : Type := occupancy_df | revenue_df | member_df.

Definition ref_eqb (a b : ref) : bool :=
  match a, b with
  | occupancy_df, occupancy_df | revenue_df, revenue_df
  | member_df, member_df => true
  | _, _ => false
  end.

Record State : Type := mkState {
  frames : ref -> DataFrame;
  checker : Checker
}.

(** A computation may change the state before it raises. *)
Definition M (A : Type) : Type := State -> outcome A * State.

Definition ret {A : Type} (a : A) : M A := fun st => (Ok a, st).

Definition bind {A B : Type} (m : M A) (k : A -> M B) : M B :=
  fun st =>
    match m st with
    | (Ok a, st') => k a st'
    | (Raise e, st') => (Raise e, st')
    end.

Definition raise {A : Type} (e : exn) : M A := fun st => (Raise e, st).

Definition lift {A : Type} (o : outcome A) : M A := fun st => (o, st).

(** [try: m  except Exception as e: h e] *)
Definition try_except {A : Type} (m : M A) (h : exn -> M A) : M A :=
  fun st =>
    match m st with
    | (Ok a, st') => (Ok a, st')
    | (Raise e, st') => h e st'
    end.

Notation "x <- m ;; k" := (bind m (fun x => k))
  (at level 61, m at next level, right associativity).
Notation "m ;;; k" := (bind m (fun _ => k))
  (at level 61, right associativity).

Fixpoint for_each {A : Type} (l : list A) (body : A -> M unit) : M unit :=
  match l with
  | [] => ret tt
  | x :: l' => body x ;;; for_each l' body
  end.

Definition get_frame (df : ref) : M DataFrame :=
  fun st => (Ok (frames st df), st).

Definition set_frame (df : ref) (d : DataFrame) : M unit :=
  fun st =>
    (Ok tt,
     mkState (fun r => if ref_eqb r df then d else frames st r) (checker st)).

Fixpoint mapM {A B : Type} (f : A -> outcome B) (l : list A)
  : outcome (list B) :=
  match l with
  | [] => Ok []
  | x :: l' =>
      match f x with
      | Raise e => Raise e
      | Ok y =>
          match mapM f l' with
          | Raise e => Raise e
          | Ok ys => Ok (y :: ys)
          end
      end
  end.

(** ** The pandas operations the rules call *)

(** [s.isnull().sum()] *)
Definition null_count (s : Series) : nat :=
  List.length (filter is_null (values s)).

(** [df.isnull().sum()] *)
Definition isnull_sum (d : DataFrame) : list (string * nat) :=
  map (fun c => (fst c, null_count (snd c))) (columns d).

(** [b.sum()] on a boolean series *)
Definition sum_true (b : list bool) : nat :=
  List.length (filter (fun x => x) b).

(** [a | b] *)
Definition series_or (a b : list bool) : list bool :=
  map (fun p => orb (fst p) (snd p)) (combine a b).

(** [~a] *)
Definition series_not (a : list bool) : list bool := map negb a.

(** [df.empty] *)
Definition empty (d : DataFrame) : bool :=
  (nrows d =? 0)%nat ||
  match columns d with [] => true | _ => false end.

(** Marks, first occurrences kept, of the rows already seen. *)
Fixpoint mark_duplicates (seen rs : list (list cell)) : list bool :=
  match rs with
  | [] => []
  | r :: rs' =>
      if existsb (row_eqb r) seen
      then true :: mark_duplicates seen rs'
      else false :: mark_duplicates (r :: seen) rs'
  end.

(** The series named by [keys], or the first label that is missing. *)
Fixpoint select (cols : list (string * Series)) (keys : list string)
  : outcome (list Series) :=
  match keys with
  | [] => Ok []
  | k :: keys' =>
      match loc cols k with
      | None => Raise (KeyError k)
      | Some s =>
          match select cols keys' with
          | Raise e => Raise e
          | Ok ss => Ok (s :: ss)
          end
      end
  end.

(** [df.duplicated(subset=subset)], [keep='first'] *)
Definition duplicated (d : DataFrame) (subset : option (list string))
  : outcome (list bool) :=
  if empty d then Ok []
  else
    match subset with
    | None => Ok (mark_duplicates [] (rows_of (nrows d) (map snd (columns d))))
    | Some keys =>
        match select (columns d) keys with
        | Raise e => Raise e
        | Ok ss => Ok (mark_duplicates [] (rows_of (nrows d) ss))
        end
    end.

Definition invalid_comparison : exn :=
  TypeError "'<' not supported between instances of 'str' and 'int'".

(** One Python-level comparison of an [object] cell with a number. *)
Definition compare_cell (op : fval -> fval -> bool) (x : fval) (c : cell)
  : outcome bool :=
  match c with
  | Null | PyNone => Ok false
  | Num q => Ok (op (Fin q) x)
  | Str _ | Date _ => Raise invalid_comparison
  end.

(** [s < x] and [s > x] for a number [x]: vectorised on a numeric or
    boolean series, cell by cell on an [object] series, refused on a
    [datetime64] series. *)
Definition compare (op : fval -> fval -> bool) (s : Series) (x : fval)
  : outcome (list bool) :=
  match dt s with
  | Numeric | Boolean =>
      Ok (map (fun c => match c with Num q => op (Fin q) x | _ => false end)
              (values s))
  | Object => mapM (compare_cell op x) (values s)
  | Datetime =>
      Raise (TypeError "Invalid comparison between dtype=datetime64[ns] and int")
  end.

(** The numbers of a series, missing values dropped. *)
Definition numbers (s : Series) : list Q :=
  flat_map (fun c => match c with Num q => [q] | _ => [] end) (values s).

(** The numbers of a series as the binary64 values a numeric column holds. *)
Definition float64_values (s : Series) : list float64 :=
  map Float64.of_Q (numbers s).

Fixpoint insert_sorted (x : float64) (l : list float64) : list float64 :=
  match l with
  | [] => [x]
  | y :: l' => if Float64.leb x y then x :: l else y :: insert_sorted x l'
  end.

Definition sort_values (l : list float64) : list float64 :=
  fold_right insert_sorted [] l.

(** numpy's [_lerp]: [a + (b - a) * t], overwritten by
    [b - (b - a) * (1 - t)] where [t >= 0.5], every operation rounded. *)
Definition lerp (a b t : float64) : float64 :=
  let diff_b_a := Float64.sub b a in
  let lerp_interpolation := Float64.add a (Float64.mul diff_b_a t) in
  if Float64.leb (Float64.of_Q (1 # 2)) t
  then Float64.sub b (Float64.mul diff_b_a
                        (Float64.sub (Float64.of_Q 1) t))
  else lerp_interpolation.

(** The quantile of the numbers of a series, by linear interpolation between
    the two nearest ranks of the sorted values.  The rank [(n - 1) * p] and
    its fractional part are computed exactly, as binary64 computes them for
    the quarter ranks the checker asks for. *)
Definition quantile (s : Series) (p : Q) : float64 :=
  let xs := sort_values (float64_values s) in
  match xs with
  | [] => Float64.nan
  | x0 :: _ =>
      let last := (List.length xs - 1)%nat in
      let pos := (inject_Z (Z.of_nat last) * p)%Q in
      let lo := Z.to_nat (Qfloor pos) in
      let gamma := (pos - inject_Z (Qfloor pos))%Q in
      lerp (nth lo xs x0) (nth (Nat.min (S lo) last) xs x0)
           (Float64.of_Q gamma)
  end.

(** [s < x] and [s > x] for a numeric series and a binary64 scalar, cell by
    cell; a missing value compares false. *)
Definition compare_float64 (op : float64 -> float64 -> bool) (s : Series)
    (x : float64) : list bool :=
  map (fun c => match c with
                | Num q => op (Float64.of_Q q) x
                | _ => false
                end)
      (values s).

(** [pd.api.types.is_numeric_dtype(s)]: true of a boolean series too. *)
Definition is_numeric_dtype (s : Series) : bool :=
  match dt s with
  | Numeric | Boolean => true
  | _ => false
  end.

(** [s.quantile(p)]: the interpolation subtracts two values of the series,
    which numpy refuses for booleans; a series without rows has no value to
    subtract and gives [nan]. *)
Definition series_quantile (s : Series) (p : Q) : outcome float64 :=
  match dt s, values s with
  | Boolean, _ :: _ =>
      Raise (TypeError
               ("numpy boolean subtract, the `-` operator, is not supported, "
                +++ "use the bitwise_xor, the `^` operator, or the "
                +++ "logical_xor function instead."))
  | _, _ => Ok (quantile s p)
  end.

(** The series [pd.to_datetime] returns. *)
Definition datetime_series (ts : list (option Z)) : Series :=
  mkSeries Datetime
    (map (fun t => match t with Some z => Date z | None => Null end) ts).

(** [s.max()] on a [datetime64] series: [NaT] when no date is present. *)
Fixpoint series_max (l : list cell) : option Z :=
  match l with
  | [] => None
  | Date t :: l' =>
      match series_max l' with
      | None => Some t
      | Some u => Some (Z.max t u)
      end
  | _ :: l' => series_max l'
  end.

Definition ns_per_day : Z := 86400 * 1000000000.

(** [(datetime.now() - latest).days]: whole days, rounded down; [nan] when
    [latest] is [NaT]. *)
Definition days_between (t_now : Z) (latest : option Z) : option Z :=
  match latest with
  | None => None
  | Some t => Some ((t_now - t) / ns_per_day)%Z
  end.

(** [datetime.now() - latest] and its [.days]: [NaT] gives [nan]; a date
    with a time zone cannot be subtracted from the naive current time. *)
Definition naive_minus (t_now : Z) (tz : bool) (latest : option Z)
  : outcome (option Z) :=
  match latest with
  | None => Ok None
  | Some t =>
      if tz
      then Raise (TypeError "Cannot subtract tz-naive and tz-aware datetime-like objects.")
      else Ok (days_between t_now (Some t))
  end.

(** Equality of two cells as [isin] sees it: [NaN] matches [NaN] and [None]
    matches [None], but [None] does not match [NaN]. *)
Definition isin_eqb (a b : cell) : bool :=
  match a, b with
  | Null, Null => true
  | PyNone, PyNone => true
  | Num x, Num y => Qeq_bool x y
  | Str x, Str y => String.eqb x y
  | Date x, Date y => Z.eqb x y
  | _, _ => false
  end.

(** [s.isin(t)] *)
Definition isin (s t : Series) : list bool :=
  map (fun c => existsb (isin_eqb c) (values t)) (values s).

(** ** The checker *)

Section Checker.

Variable env : Env.

(** [add_issue] *)
Definition add_issue (sev : Severity) (cat : Category) (msg : string)
    (det : option Details) : M unit :=
  fun st =>
    let f := mkFinding (strftime env (now env)) sev cat msg det in
    (Ok tt,
     mkState (frames st)
       (mkChecker (issues (checker st) ++ [f])
                  (passed_checks (checker st)))).

(** [add_pass] *)
Definition add_pass (check_name : string) : M unit :=
  fun st =>
    (Ok tt,
     mkState (frames st)
       (mkChecker (issues (checker st))
                  (passed_checks (checker st) ++ [check_name]))).

(** [(k / n) * 100] *)
Definition percent (k n : nat) : fval :=
  Float.mul (Float.div (Float.of_nat k) (Float.of_nat n)) (Float.of_Z 100).

Definition missing_message (df_name col : string) (count : nat) (pct : fval)
  : string :=
  df_name +++ ": Column '" +++ col +++ "' has " +++ show_nat count +++
  " missing values (" +++ format_1f pct +++ "%)".

(** [check_missing_values] *)
Definition check_missing_values (df : ref) (df_name : string) : M unit :=
  d <- get_frame df ;;
  let missing := isnull_sum d in
  let missing_pct :=
    map (fun c => (fst c, percent (snd c) (len d))) missing in
  let critical_missing :=
    filter (fun c => (0 <? snd c)%nat) missing in
  if (0 <? List.length critical_missing)%nat then
    for_each critical_missing (fun c =>
      let col := fst c in
      let count := snd c in
      match loc missing_pct col with
      | None => raise (KeyError col)
      | Some pct =>
          if Float.gtb pct (Float.of_Z 10) then
            add_issue HIGH MissingData
              (missing_message df_name col count pct)
              (Some (DColumnPct col count pct))
          else if Float.gtb pct (Float.of_Z 5) then
            add_issue MEDIUM MissingData
              (missing_message df_name col count pct)
              (Some (DColumnPct col count pct))
          else
            add_issue LOW MissingData
              (missing_message df_name col count pct)
              (Some (DColumnPct col count pct))
      end)
  else
    add_pass ("No missing values in " +++ df_name).

(** Truth value of the [subset] argument: [None] and the empty list are
    both false. *)
Definition truthy (subset : option (list string)) : bool :=
  match subset with
  | Some (_ :: _) => true
  | _ => false
  end.

(** [check_duplicates] *)
Definition check_duplicates (df : ref) (df_name : string)
    (subset : option (list string)) : M unit :=
  d <- get_frame df ;;
  marks <- lift (if truthy subset then duplicated d subset
                 else duplicated d None) ;;
  let duplicates := sum_true marks in
  if (0 <? duplicates)%nat then
    add_issue MEDIUM Duplicates
      (df_name +++ ": Found " +++ show_nat duplicates +++
       " duplicate records")
      (Some (DCount duplicates))
  else
    add_pass ("No duplicates in " +++ df_name).

Definition range_message (df_name col : string) (count : nat)
    (min_val max_val : Z) : string :=
  df_name +++ ": " +++ show_nat count +++ " values in '" +++ col +++
  "' outside range [" +++ show_Z min_val +++ ", " +++ show_Z max_val +++ "]".

Definition range_pass (df_name col : string) : string :=
  df_name +++ "." +++ col +++ " range check".

(** One turn of the loop of [check_data_ranges]. *)
Definition check_range (df : ref) (df_name : string)
    (item : string * (Z * Z)) : M unit :=
  let col := fst item in
  let min_val := fst (snd item) in
  let max_val := snd (snd item) in
  d <- get_frame df ;;
  match loc (columns d) col with
  | None => ret tt
  | Some s =>
      below <- lift (compare Float.ltb s (Float.of_Z min_val)) ;;
      above <- lift (compare Float.gtb s (Float.of_Z max_val)) ;;
      let out_of_range := sum_true (series_or below above) in
      if (0 <? out_of_range)%nat then
        add_issue MEDIUM RangeValidation
          (range_message df_name col out_of_range min_val max_val)
          (Some (DRange col out_of_range (min_val, max_val)))
      else
        add_pass (range_pass df_name col)
  end.

(** [check_data_ranges]; [range_checks] lists the items of the dictionary
    in insertion order. *)
Definition check_data_ranges (df : ref) (df_name : string)
    (range_checks : list (string * (Z * Z))) : M unit :=
  for_each range_checks (check_range df df_name).

Definition default_max_age_days : Z := 7.

Definition show_age (age_days : option Z) : string :=
  match age_days with
  | Some a => show_Z a
  | None => "nan"
  end.

(** [age_days > max_age_days]; false on [nan]. *)
Definition older_than (age_days : option Z) (max_age_days : Z) : bool :=
  match age_days with
  | Some a => (max_age_days <? a)%Z
  | None => false
  end.

(** [check_data_freshness] *)
Definition check_data_freshness (df : ref) (df_name date_column : string)
    (max_age_days : Z) : M unit :=
  d <- get_frame df ;;
  match loc (columns d) date_column with
  | None => ret tt
  | Some s =>
      try_except
        (ts <- lift (to_datetime env s) ;;
         set_frame df (set_column d date_column (datetime_series ts)) ;;;
         d' <- get_frame df ;;
         match loc (columns d') date_column with
         | None => raise (KeyError date_column)
         | Some s' =>
             let latest_date := series_max (values s') in
             age_days <- lift (naive_minus (now env) (tz_aware env s)
                                 latest_date) ;;
             if older_than age_days max_age_days then
               add_issue HIGH DataFreshness
                 (df_name +++ ": Latest data is " +++ show_age age_days +++
                  " days old (threshold: " +++ show_Z max_age_days +++
                  " days)")
                 (Some (DFreshness (str_timestamp env latest_date) age_days))
             else
               add_pass (df_name +++ " freshness check")
         end)
        (fun e =>
           add_issue MEDIUM DateParsing
             (df_name +++ ": Error parsing date column '" +++ date_column
              +++ "': " +++ str_exn e)
             None)
  end.

Definition outlier_pass (df_name col : string) : string :=
  df_name +++ "." +++ col +++ " outlier check".

(** One turn of the loop of [check_outliers]. *)
Definition check_outlier (df : ref) (df_name col : string) : M unit :=
  d <- get_frame df ;;
  match loc (columns d) col with
  | None => ret tt
  | Some s =>
      if is_numeric_dtype s then
          Q1 <- lift (series_quantile s (1 # 4)) ;;
          Q3 <- lift (series_quantile s (3 # 4)) ;;
          let IQR := Float64.sub Q3 Q1 in
          let lower_bound :=
            Float64.sub Q1 (Float64.mul (Float64.of_Q (3 # 2)) IQR) in
          let upper_bound :=
            Float64.add Q3 (Float64.mul (Float64.of_Q (3 # 2)) IQR) in
          let below := compare_float64 Float64.ltb s lower_bound in
          let above := compare_float64 Float64.gtb s upper_bound in
          let outliers := sum_true (series_or below above) in
          let outlier_pct := percent outliers (len d) in
          if Float.gtb outlier_pct (Float.of_Z 5) then
            add_issue LOW Outliers
              (df_name +++ ": Column '" +++ col +++ "' has " +++
               show_nat outliers +++ " outliers (" +++
               format_1f outlier_pct +++ "%)")
              (Some (DColumnPct col outliers outlier_pct))
          else
            add_pass (outlier_pass df_name col)
      else ret tt
  end.

(** [check_outliers] *)
Definition check_outliers (df : ref) (df_name : string)
    (numeric_columns : list string) : M unit :=
  for_each numeric_columns (check_outlier df df_name).

(** [check_referential_integrity] *)
Definition check_referential_integrity (df1 df2 : ref)
    (df1_name df2_name key_column : string) : M unit :=
  d1 <- get_frame df1 ;;
  d2 <- get_frame df2 ;;
  match loc (columns d1) key_column, loc (columns d2) key_column with
  | Some s1, Some s2 =>
      let orphaned := series_not (isin s1 s2) in
      let orphaned_count := sum_true orphaned in
      if (0 <? orphaned_count)%nat then
        add_issue HIGH ReferentialIntegrity
          ("Found " +++ show_nat orphaned_count +++ " orphaned records in "
           +++ df1_name +++ " (missing " +++ key_column +++ " in " +++
           df2_name +++ ")")
          (Some (DKey orphaned_count key_column))
      else
        add_pass ("Referential integrity: " +++ df1_name +++ " ↔ " +++
                  df2_name)
  | _, _ => ret tt
  end.

(** The dictionary [generate_report] returns. *)
Record Report : Type := mkReport {
  total_checks : nat;
  passed : nat;
  issues_count : nat;
  issues_detail : list Finding
}.

(** [generate_report] *)
Definition generate_report : M Report :=
  fun st =>
    let c := checker st in
    (Ok (mkReport (List.length (passed_checks c) + List.length (issues c))
                  (List.length (passed_checks c))
                  (List.length (issues c))
                  (issues c)),
     st).

(** The checks of [run_quality_checks], in the order of the driver. *)
Definition occupancy_checks : M unit :=
  check_missing_values occupancy_df "occupancy_data" ;;;
  check_duplicates occupancy_df "occupancy_data" (Some ["date"; "location"]) ;;;
  check_data_ranges occupancy_df "occupancy_data"
    [("occupancy_rate", (0, 100)%Z); ("capacity", (50, 200)%Z)] ;;;
  check_data_freshness occupancy_df "occupancy_data" "date" 7 ;;;
  check_outliers occupancy_df "occupancy_data" ["occupancy_rate"].

Definition revenue_checks : M unit :=
  check_missing_values revenue_df "revenue_data" ;;;
  check_duplicates revenue_df "revenue_data" None ;;;
  check_data_ranges revenue_df "revenue_data"
    [("revenue", (0, 10000000)%Z); ("units_sold", (0, 500)%Z)].

Definition member_checks : M unit :=
  check_missing_values member_df "member_data" ;;;
  check_duplicates member_df "member_data" (Some ["member_id"]) ;;;
  check_data_freshness member_df "member_data" "join_date" 365.

Definition all_checks : M Report :=
  occupancy_checks ;;; revenue_checks ;;; member_checks ;;; generate_report.

(** What one run leaves behind: the report and, when there are findings,
    the rows written to [data_quality_report.csv]. *)
Record Run : Type := mkRun {
  report : Report;
  exported : option (list Finding)
}.

(** [run_quality_checks]; [read_csv] gives the frame stored under a file
    name, if any.  Every exception ends the run with [None]. *)
Definition run_quality_checks (read_csv : string -> option DataFrame)
  : option Run :=
  match read_csv "occupancy_data.csv", read_csv "revenue_data.csv",
        read_csv "member_data.csv" with
  | Some o, Some r, Some m =>
      let st0 :=
        mkState (fun x => match x with
                          | occupancy_df => o
                          | revenue_df => r
                          | member_df => m
                          end) new_checker in
      match all_checks st0 with
      | (Ok rep, st) =>
          Some (mkRun rep
                  (if (0 <? List.length (issues (checker st)))%nat
                   then Some (issues (checker st)) else None))
      | (Raise _, _) => None
      end
  | _, _, _ => None
  end.

End Checker.


(** * Vocabulary of the statements *)

(** The percentage of [k] rows out of [n] as a rational, for [n > 0]. *)
Definition pct (k n : nat) : Q :=
  (inject_Z (Z.of_nat k) / inject_Z (Z.of_nat n) * inject_Z 100)%Q.

(** [st'] carries the ledger of [st] extended by the findings [fs] and the
    passes [ps]. *)
Definition appends (st st' : State) (fs : list Finding) (ps : list string)
  : Prop :=
  issues (checker st') = issues (checker st) ++ fs /\
  passed_checks (checker st') = passed_checks (checker st) ++ ps.

(** [m] returns normally from [st], leaves every frame as it was and appends
    [fs] and [ps] to the ledger. *)
Definition emits (m : M unit) (st : State) (fs : list Finding)
    (ps : list string) : Prop :=
  exists st',
    m st = (Ok tt, st') /\ frames st' = frames st /\ appends st st' fs ps.

(** The column a finding is about, when its details name one. *)
Definition finding_column (f : Finding) : option string :=
  match details f with
  | Some (DColumnPct c _ _) | Some (DRange c _ _) => Some c
  | _ => None
  end.

Definition about (col : string) (f : Finding) : bool :=
  match finding_column f with
  | Some c => String.eqb c col
  | None => false
  end.

(** Severity of a missing-data finding, by the percentage it reports. *)
Definition missing_severity (p : fval) : Severity :=
  if Float.gtb p (Float.of_Z 10) then HIGH
  else if Float.gtb p (Float.of_Z 5) then MEDIUM
  else LOW.

(** The finding the missing-value check logs for a column with [k] missing
    values out of [n]. *)
Definition missing_finding (env : Env) (df_name col : string) (k n : nat)
  : Finding :=
  let p := percent k n in
  mkFinding (strftime env (now env)) (missing_severity p) MissingData
    (missing_message df_name col k p) (Some (DColumnPct col k p)).

Definition has_nulls (c : string * nat) : bool := (0 <? snd c)%nat.

(** [col] names a column of numeric dtype: the columns the outlier check
    evaluates. *)
Definition is_numeric_column (d : DataFrame) (col : string) : bool :=
  match loc (columns d) col with
  | Some s => is_numeric_dtype s
  | None => false
  end.

(** The numbers of a column in the order of its rows, missing values
    skipped, each as the binary64 number the column holds. *)
Inductive column_sample : list cell -> list float64 -> Prop :=
| sample_nil : column_sample [] []
| sample_number (q : Q) (cells : list cell) (xs : list float64) :
    column_sample cells xs ->
    column_sample (Num q :: cells) (Float64.of_Q q :: xs)
| sample_skip (c : cell) (cells : list cell) (xs : list float64) :
    (forall q, c <> Num q) ->
    column_sample cells xs ->
    column_sample (c :: cells) xs.

(** A binary64 value that is a number and not the negative zero: what a
    number of a column is read as. *)
Definition plain (x : float64) : Prop :=
  x <> Float64.nan /\ x <> SpecFloat.S754_zero true.

Definition zero_or_nan (x : float64) : Prop :=
  (exists s, x = SpecFloat.S754_zero s) \/ x = Float64.nan.

(** [x] is [r], unless it is [nan]. *)
Definition near (r x : float64) : Prop := x = r \/ x = Float64.nan.

(** No value of the list is above a later one. *)
Definition ascending (xs : list float64) : Prop :=
  StronglySorted (fun x y => Float64.leb x y = true) xs.

Fixpoint ascendingb (xs : list float64) : bool :=
  match xs with
  | [] => true
  | x :: l => forallb (Float64.leb x) l && ascendingb l
  end.

(** Linear interpolation between the two nearest ranks, as a relation of
    its own: [v] is the value at the fractional rank [(m - 1) * a / b] of
    the sorted sample [xs] of size [m], that is, with [j] the whole part of
    the rank and [r / b] its fraction, [lo + (hi - lo) * (r / b)] between the
    values [lo] and [hi] at the ranks [j] and [j + 1], computed from [hi]
    downwards when the fraction is a half or more, in binary64. *)
Definition interpolates (xs : list float64) (a : Z) (b : positive)
    (v : float64) : Prop :=
  exists (j : nat) (r : Z) (lo hi : float64),
    (Z.of_nat (List.length xs - 1) * a = Z.of_nat j * Zpos b + r)%Z /\
    (0 <= r < Zpos b)%Z /\
    nth_error xs j = Some lo /\
    nth_error xs (Nat.min (S j) (List.length xs - 1)) = Some hi /\
    let t := Float64.of_Q (r # b) in
    let d := Float64.sub hi lo in
    v = if Float64.leb (Float64.of_Q (1 # 2)) t
        then Float64.sub hi (Float64.mul d (Float64.sub (Float64.of_Q 1) t))
        else Float64.add lo (Float64.mul d t).

(** The quantiles of a series can be taken: it is not a boolean series with
    rows. *)
Definition has_quantiles (s : Series) : bool :=
  match dt s, values s with
  | Boolean, _ :: _ => false
  | _, _ => true
  end.

(** A cell holds a number strictly below [lo] or strictly above [hi]. *)
Definition strictly_outside (lo hi : float64) (c : cell) : bool :=
  match c with
  | Num q =>
      Float64.ltb (Float64.of_Q q) lo || Float64.gtb (Float64.of_Q q) hi
  | _ => false
  end.

(** The rows of a series strictly outside the fences of the interquartile
    range, quartiles taken by linear interpolation. *)
Definition outlier_count (s : Series) : nat :=
  let Q1 := quantile s (1 # 4) in
  let Q3 := quantile s (3 # 4) in
  let IQR := Float64.sub Q3 Q1 in
  List.length
    (filter (strictly_outside
               (Float64.sub Q1 (Float64.mul (Float64.of_Q (3 # 2)) IQR))
               (Float64.add Q3 (Float64.mul (Float64.of_Q (3 # 2)) IQR)))
            (values s)).

Definition outlier_finding (env : Env) (df_name col : string) (k n : nat)
  : Finding :=
  mkFinding (strftime env (now env)) LOW Outliers
    (df_name +++ ": Column '" +++ col +++ "' has " +++ show_nat k +++
     " outliers (" +++ format_1f (percent k n) +++ "%)")
    (Some (DColumnPct col k (percent k n))).

(** More than five rows in a hundred: [k / n * 100 > 5] on integers. *)
Definition above_5pct (k n : nat) : bool :=
  (5 * Z.of_nat n <? 100 * Z.of_nat k)%Z.

(** What one turn of the outlier check appends for [col]. *)
Definition outlier_findings (env : Env) (df_name : string) (d : DataFrame)
    (col : string) : list Finding :=
  match loc (columns d) col with
  | Some s =>
      if is_numeric_column d col && above_5pct (outlier_count s) (nrows d)
      then [outlier_finding env df_name col (outlier_count s) (nrows d)]
      else []
  | None => []
  end.

Definition outlier_passes (df_name : string) (d : DataFrame) (col : string)
  : list string :=
  match loc (columns d) col with
  | Some s =>
      if is_numeric_column d col &&
         negb (above_5pct (outlier_count s) (nrows d))
      then [outlier_pass df_name col]
      else []
  | None => []
  end.

(** The cells of a series can be compared with a number: a numeric or
    boolean dtype, or an [object] series that holds only numbers and missing
    values. *)
Definition comparable (s : Series) : bool :=
  match dt s with
  | Numeric | Boolean => true
  | Object =>
      forallb (fun c => match c with
                        | Null | PyNone | Num _ => true
                        | _ => false
                        end)
              (values s)
  | Datetime => false
  end.

(** A cell holds a number below [min_val] or above [max_val]. *)
Definition out_of_range (min_val max_val : Z) (c : cell) : bool :=
  match c with
  | Num q => Qlt_bool q (inject_Z min_val) || Qlt_bool (inject_Z max_val) q
  | _ => false
  end.

Definition out_of_range_count (s : Series) (min_val max_val : Z) : nat :=
  List.length (filter (out_of_range min_val max_val) (values s)).

Definition range_finding (env : Env) (df_name col : string) (k : nat)
    (min_val max_val : Z) : Finding :=
  mkFinding (strftime env (now env)) MEDIUM RangeValidation
    (range_message df_name col k min_val max_val)
    (Some (DRange col k (min_val, max_val))).

(** What one turn of the range check appends for an item of the mapping. *)
Definition range_findings (env : Env) (df_name : string) (d : DataFrame)
    (item : string * (Z * Z)) : list Finding :=
  match loc (columns d) (fst item) with
  | Some s =>
      let k := out_of_range_count s (fst (snd item)) (snd (snd item)) in
      if (0 <? k)%nat
      then [range_finding env df_name (fst item) k
              (fst (snd item)) (snd (snd item))]
      else []
  | None => []
  end.

Definition range_passes (df_name : string) (d : DataFrame)
    (item : string * (Z * Z)) : list string :=
  match loc (columns d) (fst item) with
  | Some s =>
      if (0 <? out_of_range_count s (fst (snd item)) (snd (snd item)))%nat
      then []
      else [range_pass df_name (fst item)]
  | None => []
  end.

(** The passes of a ledger recorded under the name [p]. *)
Definition passes_named (p : string) (ps : list string) : list string :=
  filter (String.eqb p) ps.

(** The series the duplicate check compares rows on: the named ones when a
    non-empty subset is given, all of them otherwise. *)
Definition key_columns (d : DataFrame) (subset : option (list string))
  : outcome (list Series) :=
  match subset with
  | Some (k :: keys) => select (columns d) (k :: keys)
  | _ => Ok (map snd (columns d))
  end.

(** Row [i] is equal to a row before it. *)
Definition repeats_earlier (rs : list (list cell)) (i : nat) : bool :=
  existsb (row_eqb (nth i rs [])) (firstn i rs).

(** The number of rows equal to a row before them. *)
Definition repeat_count (rs : list (list cell)) : nat :=
  List.length (filter (repeats_earlier rs) (seq 0 (List.length rs))).

Definition duplicates_finding (env : Env) (df_name : string) (k : nat)
  : Finding :=
  mkFinding (strftime env (now env)) MEDIUM Duplicates
    (df_name +++ ": Found " +++ show_nat k +++ " duplicate records")
    (Some (DCount k)).

(** The latest of the time stamps [pd.to_datetime] returned, if any. *)
Definition latest_of (ts : list (option Z)) : option Z :=
  series_max (values (datetime_series ts)).

Definition date_parsing_finding (env : Env) (df_name date_column : string)
    (e : exn) : Finding :=
  mkFinding (strftime env (now env)) MEDIUM DateParsing
    (df_name +++ ": Error parsing date column '" +++ date_column +++ "': "
     +++ str_exn e)
    None.

Definition freshness_finding (env : Env) (df_name : string)
    (max_age_days : Z) (latest : option Z) : Finding :=
  let age_days := days_between (now env) latest in
  mkFinding (strftime env (now env)) HIGH DataFreshness
    (df_name +++ ": Latest data is " +++ show_age age_days +++
     " days old (threshold: " +++ show_Z max_age_days +++ " days)")
    (Some (DFreshness (str_timestamp env latest) age_days)).

(** The HIGH finding for a latest date [t] that is [age] whole days old. *)
Definition stale_finding (env : Env) (df_name : string)
    (max_age_days t age : Z) : Finding :=
  mkFinding (strftime env (now env)) HIGH DataFreshness
    (df_name +++ ": Latest data is " +++ show_Z age +++
     " days old (threshold: " +++ show_Z max_age_days +++ " days)")
    (Some (DFreshness (str_timestamp env (Some t)) (Some age))).

(** The state after the date column of [df] was replaced. *)
Definition with_column (st : State) (df : ref) (col : string) (s : Series)
  : State :=
  mkState (fun r => if ref_eqb r df
                    then set_column (frames st df) col s
                    else frames st r)
          (checker st).

(** A computation that never touches a frame, however it ends. *)
Definition preserves_frames {A : Type} (m : M A) : Prop :=
  forall st, frames (snd (m st)) = frames st.

(** * Sample inputs *)

(** An environment whose date parser accepts a series without text cells. *)
Definition env_ex : Env :=
  mkEnv (20 * ns_per_day)
        (fun _ => "2024-01-21 00:00:00")
        (fun s =>
           mapM (fun c => match c with
                          | Date t => Ok (Some t)
                          | Num q => Ok (Some (Qfloor q))
                          | Null | PyNone => Ok None
                          | Str _ => Raise (ValueError "Unknown datetime string format")
                          end) (values s))
        (fun t => match t with Some z => show_Z z | None => "NaT" end)
        (fun _ => false).

(** The same environment with a parser whose dates carry a time zone. *)
Definition env_tz : Env :=
  mkEnv (now env_ex) (strftime env_ex) (to_datetime env_ex)
        (str_timestamp env_ex) (fun _ => true).

Definition state_of (d : DataFrame) : State :=
  mkState (fun _ => d) new_checker.

(** Twenty rows: [a] has three missing values (15%), [b] two (10%), [c] one
    (5%), [d] none. *)
Definition frame_nulls : DataFrame :=
  mkFrame 20
    [("a", mkSeries Numeric (repeat Null 3 ++ repeat (Num 1) 17));
     ("b", mkSeries Numeric (repeat Null 2 ++ repeat (Num 1) 18));
     ("c", mkSeries Object (repeat Null 1 ++ repeat (Str "x") 19));
     ("d", mkSeries Numeric (repeat (Num 7) 20))].

(** A table without rows, with one numeric column. *)
Definition frame_empty : DataFrame :=
  mkFrame 0 [("occupancy_rate", mkSeries Numeric [])].

(** Occupancy rates on the bounds, inside and outside [0, 100], one of them
    missing; capacities all inside [50, 200]. *)
Definition frame_rates : DataFrame :=
  mkFrame 5
    [("occupancy_rate",
      mkSeries Numeric [Num 0; Num 100; Num 101; Null; Num (171 # 2)]);
     ("capacity",
      mkSeries Numeric [Num 50; Num 200; Num 120; Num 150; Num 75])].

Definition ranges_ex : list (string * (Z * Z)) :=
  [("occupancy_rate", (0, 100)%Z); ("capacity", (50, 200)%Z);
   ("desks", (0, 10)%Z)].

(** Three complete rows, two columns. *)
Definition frame_clean : DataFrame :=
  mkFrame 3
    [("revenue", mkSeries Numeric [Num 1200; Num 800; Num 950]);
     ("units_sold", mkSeries Numeric [Num 12; Num 8; Num 10])].

(** The rows [(1, A)], [(1, A)], [(2, B)], with a third column that tells
    them all apart. *)
Definition frame_pairs : DataFrame :=
  mkFrame 3
    [("c1", mkSeries Numeric [Num 1; Num 1; Num 2]);
     ("c2", mkSeries Object [Str "A"; Str "A"; Str "B"]);
     ("c3", mkSeries Numeric [Num 10; Num 20; Num 30])].

(** Ninety-five values at 10 and five at 1000. *)
Definition frame_spikes : DataFrame :=
  mkFrame 100
    [("occupancy_rate",
      mkSeries Numeric (repeat (Num 10) 95 ++ repeat (Num 1000) 5))].

(** Four rates whose upper fence, 1.7 in exact arithmetic, is
    1.6999999999999997 in binary64: the rate 1.7 lies outside it. *)
Definition frame_decimals : DataFrame :=
  mkFrame 4
    [("occupancy_rate",
      mkSeries Numeric
        [Num (8 # 10); Num (5 # 10); Num (17 # 10); Num (6 # 10)])].

(** Ninety-four values at 10 and six at 1000. *)
Definition frame_more_spikes : DataFrame :=
  mkFrame 100
    [("occupancy_rate",
      mkSeries Numeric (repeat (Num 10) 94 ++ repeat (Num 1000) 6))].

(** Dates as text the parser refuses, and dates as numbers it accepts:
    nineteen, twelve and two days before [now env_ex]. *)
Definition frame_bad_dates : DataFrame :=
  mkFrame 2
    [("date", mkSeries Object [Str "2024-01-01"; Str "yesterday"]);
     ("occupancy_rate", mkSeries Numeric [Num 80; Num 90])].

Definition frame_old_dates : DataFrame :=
  mkFrame 3
    [("date",
      mkSeries Numeric
        [Num (inject_Z ns_per_day); Null; Num (inject_Z (8 * ns_per_day))]);
     ("occupancy_rate", mkSeries Numeric [Num 80; Num 90; Num 85])].

Definition frame_recent_dates : DataFrame :=
  mkFrame 2
    [("date",
      mkSeries Numeric
        [Num (inject_Z (13 * ns_per_day)); Num (inject_Z (18 * ns_per_day))]);
     ("occupancy_rate", mkSeries Numeric [Num 80; Num 90])].

(** The three files of a run.  In [occupancy_text] one occupancy rate is not
    a number, so the whole column was read as text. *)
Definition occupancy_text : DataFrame :=
  mkFrame 2
    [("date",
      mkSeries Numeric
        [Num (inject_Z (18 * ns_per_day)); Num (inject_Z (19 * ns_per_day))]);
     ("location", mkSeries Object [Str "New York"; Str "Austin"]);
     ("occupancy_rate", mkSeries Object [Str "85.5"; Str "unknown"]);
     ("capacity", mkSeries Numeric [Num 100; Num 150])].

Definition occupancy_numbers : DataFrame :=
  mkFrame 2
    [("date",
      mkSeries Numeric
        [Num (inject_Z (18 * ns_per_day)); Num (inject_Z (19 * ns_per_day))]);
     ("location", mkSeries Object [Str "New York"; Str "Austin"]);
     ("occupancy_rate", mkSeries Numeric [Num (171 # 2); Num 90]);
     ("capacity", mkSeries Numeric [Num 100; Num 150])].

Definition occupancy_bad_dates : DataFrame :=
  mkFrame 2
    [("date", mkSeries Object [Str "2024-01-19"; Str "yesterday"]);
     ("location", mkSeries Object [Str "New York"; Str "Austin"]);
     ("occupancy_rate", mkSeries Numeric [Num (171 # 2); Num 90]);
     ("capacity", mkSeries Numeric [Num 100; Num 150])].

Definition member_ex : DataFrame :=
  mkFrame 2
    [("member_id", mkSeries Numeric [Num 1; Num 2]);
     ("join_date",
      mkSeries Numeric
        [Num (inject_Z (2 * ns_per_day)); Num (inject_Z (5 * ns_per_day))])].

Definition files (occupancy : DataFrame) (path : string)
  : option DataFrame :=
  if String.eqb path "occupancy_data.csv" then Some occupancy
  else if String.eqb path "revenue_data.csv" then Some frame_clean
  else if String.eqb path "member_data.csv" then Some member_ex
  else None.

(** Child keys 1, 2, 3 against parent keys 1, 2. *)
Definition frame_child : DataFrame :=
  mkFrame 3 [("member_id", mkSeries Numeric [Num 1; Num 2; Num 3])].

Definition frame_parent : DataFrame :=
  mkFrame 2 [("member_id", mkSeries Numeric [Num 1; Num 2])].

Definition state_child_parent : State :=
  mkState (fun r => match r with
                    | member_df => frame_child
                    | _ => frame_parent
                    end) new_checker.


(** * Vocabulary of the further properties *)

(** However it ends, a computation only adds entries at the end of the
    ledger. *)
Definition extends_ledger {A : Type} (m : M A) : Prop :=
  forall st, exists fs ps, appends st (snd (m st)) fs ps.

(** The rows [(1, A)], [(1, A)], [(2, B)] and nothing else. *)
Definition frame_twins : DataFrame :=
  mkFrame 3
    [("c1", mkSeries Numeric [Num 1; Num 1; Num 2]);
     ("c2", mkSeries Object [Str "A"; Str "A"; Str "B"])].

(** Two keys that [isin] takes for the same: two [NaN], two [None], two
    equal numbers, texts or time stamps; never a [None] and a [NaN]. *)
Inductive same_key : cell -> cell -> Prop :=
| same_nan : same_key Null Null
| same_none : same_key PyNone PyNone
| same_num (x y : Q) : (x == y)%Q -> same_key (Num x) (Num y)
| same_str (x : string) : same_key (Str x) (Str x)
| same_date (t : Z) : same_key (Date t) (Date t).

(** Keys read as text, with a [None] in the child and a [NaN] in the
    parent. *)
Definition frame_child_none : DataFrame :=
  mkFrame 3 [("member_id", mkSeries Object [PyNone; Str "x"; Null])].

Definition frame_parent_nan : DataFrame :=
  mkFrame 2 [("member_id", mkSeries Object [Null; Str "x"])].

Definition state_none_nan : State :=
  mkState (fun r => match r with
                    | member_df => frame_child_none
                    | _ => frame_parent_nan
                    end) new_checker.

(** A child key that occurs nowhere in the parent column. *)
Definition orphaned (parent : Series) (c : cell) : bool :=
  negb (existsb (isin_eqb c) (values parent)).

Definition orphan_count (child parent : Series) : nat :=
  List.length (filter (orphaned parent) (values child)).

Definition integrity_finding (env : Env)
    (df1_name df2_name key_column : string) (k : nat) : Finding :=
  mkFinding (strftime env (now env)) HIGH ReferentialIntegrity
    ("Found " +++ show_nat k +++ " orphaned records in " +++ df1_name +++
     " (missing " +++ key_column +++ " in " +++ df2_name +++ ")")
    (Some (DKey k key_column)).

Definition integrity_pass (df1_name df2_name : string) : string :=
  "Referential integrity: " +++ df1_name +++ " ↔ " +++ df2_name.

(** A capacity column read as dates (26 and 27 days) after two good
    entries. *)
Definition frame_dated_capacity : DataFrame :=
  mkFrame 2
    [("occupancy_rate", mkSeries Numeric [Num 101; Num 50]);
     ("revenue", mkSeries Numeric [Num 10; Num 20]);
     ("capacity",
      mkSeries Datetime [Date (26 * ns_per_day); Date (27 * ns_per_day)])].

(** A capacity of 100 on every row but one, where it is missing. *)
Definition frame_capacity : DataFrame :=
  mkFrame 6
    [("capacity",
      mkSeries Numeric
        [Num 100; Num (200 # 2); Null; Num 100; Num 100; Num 100])].

(** The number of findings and passes recorded so far. *)
Definition ledger_size (st : State) : nat :=
  (List.length (issues (checker st)) +
   List.length (passed_checks (checker st)))%nat.

(** The state in which the driver starts its checks. *)
Definition initial_state (o r m : DataFrame) : State :=
  mkState (fun x => match x with
                    | occupancy_df => o
                    | revenue_df => r
                    | member_df => m
                    end) new_checker.

(** A computation that raises from a given state. *)
Definition raises {A : Type} (m : M A) (st : State) : Prop :=
  exists e st', m st = (Raise e, st').

(** However it ends, a computation leaves the tables other than [df] as they
    were. *)
Definition touches_only {A : Type} (df : ref) (m : M A) : Prop :=
  forall st r, ref_eqb r df = false -> frames (snd (m st)) r = frames st r.

(** * Properties *)

(** ** Floats and percentages *)

Lemma Qlt_bool_iff (x y : Q) : Qlt_bool x y = true <-> (x < y)%Q.
Proof. unfold Qlt_bool, Qlt. apply Z.ltb_lt. Qed.

Lemma Qlt_bool_irrefl (x : Q) : Qlt_bool x x = false.
Proof. unfold Qlt_bool. apply Z.ltb_irrefl. Qed.

Lemma percent_pos (k n : nat) : (0 < n)%nat -> percent k n = Fin (pct k n).
Proof.
  intros Hn. unfold percent, pct, Float.div, Float.mul, Float.of_nat, Float.of_Z.
  destruct n as [|m]; [lia|].
  replace (Qeq_bool (inject_Z (Z.of_nat (S m))) 0) with false; [reflexivity|].
  symmetry. apply not_true_is_false. intros H. apply Qeq_bool_eq in H.
  unfold Qeq in H. simpl in H. lia.
Qed.

Lemma percent_zero_rows : percent 0 0 = NaN.
Proof. reflexivity. Qed.

(** Comparing a percentage with a threshold is a comparison of integers, a
    zero row count included. *)
Lemma gtb_percent (k n : nat) (c : Z) :
  (0 <= c)%Z ->
  Float.gtb (percent k n) (Float.of_Z c)
  = (c * Z.of_nat n <? 100 * Z.of_nat k)%Z.
Proof.
  intros Hc. destruct n as [|m].
  - destruct k as [|k].
    + cbn. rewrite Z.mul_0_r. reflexivity.
    + unfold percent, Float.div, Float.of_nat, Float.of_Z. cbn.
      symmetry. apply Z.ltb_lt. lia.
  - rewrite percent_pos by lia.
    unfold Float.gtb, Float.ltb, Float.of_Z, Qlt_bool, pct.
    cbn [Qnum Qden inject_Z Qdiv Qmult Qinv Z.of_nat].
    rewrite !Pos.mul_1_r, !Z.mul_1_r.
    apply Bool.eq_iff_eq_true. rewrite !Z.ltb_lt.
    change (Z.pos (1 * Pos.of_succ_nat m)) with (Z.of_nat (S m)). lia.
Qed.

Lemma gtb_pct (k n : nat) (c : Z) :
  (0 < n)%nat ->
  Float.gtb (percent k n) (Float.of_Z c) = true <-> (inject_Z c < pct k n)%Q.
Proof.
  intros Hn. rewrite percent_pos by exact Hn.
  unfold Float.gtb, Float.ltb, Float.of_Z. apply Qlt_bool_iff.
Qed.

(** ** The monad *)

Lemma emits_ret (st : State) : emits (ret tt) st [] [].
Proof.
  exists st. unfold appends. rewrite !app_nil_r. repeat split.
Qed.

Lemma emits_bind (m k : M unit) (st : State) fs ps fs' ps' :
  emits m st fs ps ->
  (forall st', frames st' = frames st -> emits k st' fs' ps') ->
  emits (m ;;; k) st (fs ++ fs') (ps ++ ps').
Proof.
  intros (st1 & E1 & F1 & I1 & P1) Hk.
  destruct (Hk st1 F1) as (st2 & E2 & F2 & I2 & P2).
  exists st2. unfold bind. rewrite E1. split; [exact E2|].
  split; [congruence|]. unfold appends.
  rewrite I2, I1, P2, P1, !app_assoc. split; reflexivity.
Qed.

Lemma emits_add_issue env sev cat msg det st :
  emits (add_issue env sev cat msg det) st
    [mkFinding (strftime env (now env)) sev cat msg det] [].
Proof.
  eexists. split; [reflexivity|]. unfold appends. cbn.
  rewrite app_nil_r. repeat split.
Qed.

Lemma emits_add_pass name st : emits (add_pass name) st [] [name].
Proof.
  eexists. split; [reflexivity|]. unfold appends. cbn.
  rewrite app_nil_r. repeat split.
Qed.

Lemma emits_for_each {A : Type} (body : A -> M unit)
    (F : A -> list Finding) (P : A -> list string) (l : list A) :
  forall st,
    (forall x st', In x l -> frames st' = frames st ->
                   emits (body x) st' (F x) (P x)) ->
    emits (for_each l body) st (flat_map F l) (flat_map P l).
Proof.
  induction l as [|x l IH]; intros st H.
  - apply emits_ret.
  - cbn [for_each flat_map]. apply emits_bind.
    + apply H; [left; reflexivity | reflexivity].
    + intros st' Hst'. apply IH. intros y st'' Hy Hf.
      apply H; [right; exact Hy | congruence].
Qed.

Lemma emits_get_frame (df : ref) (k : DataFrame -> M unit) st fs ps :
  emits (k (frames st df)) st fs ps ->
  emits (d <- get_frame df ;; k d) st fs ps.
Proof. intros H. exact H. Qed.

(** A computation that emits returns normally, and what follows it runs. *)
Lemma emits_continues (m : M unit) st fs ps :
  emits m st fs ps ->
  exists st', m st = (Ok tt, st') /\
              forall (B : Type) (k : M B), (m ;;; k) st = k st'.
Proof.
  intros (st' & E & _). exists st'. split; [exact E|].
  intros B k. unfold bind. rewrite E. reflexivity.
Qed.

(** ** Labelled sequences *)

Lemma loc_In {A : Type} (l : list (string * A)) (k : string) (v : A) :
  NoDup (map fst l) -> In (k, v) l -> loc l k = Some v.
Proof.
  induction l as [|[k' v'] l IH]; intros ND HIn; [contradiction|].
  cbn in *. inversion ND as [|? ? Hnot ND']; subst.
  destruct HIn as [E | HIn].
  - inversion E; subst. rewrite String.eqb_refl. reflexivity.
  - destruct (String.eqb_spec k k') as [->|_].
    + exfalso. apply Hnot. apply (in_map fst) in HIn. exact HIn.
    + apply IH; assumption.
Qed.

Lemma loc_Some_In {A : Type} (l : list (string * A)) (k : string) (v : A) :
  loc l k = Some v -> In (k, v) l.
Proof.
  induction l as [|[k' v'] l IH]; cbn; [discriminate|].
  destruct (String.eqb_spec k k') as [->|_]; intros H.
  - inversion H; subst. left; reflexivity.
  - right. apply IH, H.
Qed.

Lemma loc_None {A : Type} (l : list (string * A)) (k : string) :
  loc l k = None <-> ~ In k (map fst l).
Proof.
  induction l as [|[k' v'] l IH]; cbn.
  - split; [intros _ []|reflexivity].
  - destruct (String.eqb_spec k k') as [->|Hne].
    + split; [discriminate|]. intros H. exfalso. apply H. left; reflexivity.
    + rewrite IH. split.
      * intros H [E|HIn]; [apply Hne; symmetry; exact E | exact (H HIn)].
      * intros H HIn. apply H. right; exact HIn.
Qed.

Lemma loc_map {A B : Type} (f : A -> B) (l : list (string * A)) (k : string) :
  loc (map (fun c => (fst c, f (snd c))) l) k = option_map f (loc l k).
Proof.
  induction l as [|[k' v'] l IH]; cbn; [reflexivity|].
  destruct (String.eqb k k'); [reflexivity | exact IH].
Qed.

Lemma filter_key_absent {A : Type} (l : list (string * A)) (col : string) :
  ~ In col (map fst l) ->
  filter (fun c => String.eqb (fst c) col) l = [].
Proof.
  induction l as [|[k v] l IH]; cbn; intros H; [reflexivity|].
  destruct (String.eqb_spec k col) as [->|_].
  - exfalso. apply H. left; reflexivity.
  - apply IH. intros HIn. apply H. right; exact HIn.
Qed.

Lemma filter_key_unique {A : Type} (l : list (string * A)) (col : string)
    (v : A) :
  NoDup (map fst l) -> In (col, v) l ->
  filter (fun c => String.eqb (fst c) col) l = [(col, v)].
Proof.
  induction l as [|[k w] l IH]; intros ND HIn; [contradiction|].
  cbn in *. inversion ND as [|? ? Hnot ND']; subst.
  destruct HIn as [E | HIn].
  - inversion E; subst. rewrite String.eqb_refl.
    rewrite filter_key_absent by exact Hnot. reflexivity.
  - destruct (String.eqb_spec k col) as [->|_].
    + exfalso. apply Hnot. apply (in_map fst) in HIn. exact HIn.
    + apply IH; assumption.
Qed.

Lemma NoDup_map_fst_filter {A : Type} (p : string * A -> bool)
    (l : list (string * A)) :
  NoDup (map fst l) -> NoDup (map fst (filter p l)).
Proof.
  induction l as [|c l IH]; cbn; intros ND; [constructor|].
  inversion ND as [|? ? Hnot ND']; subst.
  destruct (p c); [|apply IH, ND'].
  cbn. constructor; [|apply IH, ND'].
  intros HIn. apply Hnot. apply in_map_iff in HIn.
  destruct HIn as (x & Hx & HIn). apply filter_In in HIn.
  rewrite <- Hx. apply in_map, HIn.
Qed.

Lemma filter_map_comm {A B : Type} (f : A -> B) (p : B -> bool) (l : list A) :
  filter p (map f l) = map f (filter (fun x => p (f x)) l).
Proof.
  induction l as [|x l IH]; cbn; [reflexivity|].
  destruct (p (f x)); cbn; rewrite IH; reflexivity.
Qed.

Lemma filter_filter_comm_key {A : Type} (p q : A -> bool) (l : list A) :
  filter q (filter p l) = filter p (filter q l).
Proof.
  induction l as [|x l IH]; cbn; [reflexivity|].
  destruct (p x) eqn:Ep, (q x) eqn:Eq; cbn; rewrite ?Ep, ?Eq, IH; reflexivity.
Qed.

Lemma filter_nil_all {A : Type} (p : A -> bool) (l : list A) :
  (forall x, In x l -> p x = false) -> filter p l = [].
Proof.
  induction l as [|x l IH]; cbn; intros H; [reflexivity|].
  rewrite (H x) by (left; reflexivity). apply IH.
  intros y Hy. apply H. right; exact Hy.
Qed.

(** ** Missing values *)

Lemma isnull_sum_labels (d : DataFrame) : map fst (isnull_sum d) = labels d.
Proof.
  unfold isnull_sum, labels. rewrite map_map. reflexivity.
Qed.

Lemma null_count_le (s : Series) : (null_count s <= List.length (values s))%nat.
Proof. unfold null_count. apply filter_length_le. Qed.

(** What the missing-value check appends, for a frame with distinct labels. *)
Lemma check_missing_values_emits env df df_name st :
  let d := frames st df in
  let critical := filter has_nulls (isnull_sum d) in
  NoDup (labels d) ->
  emits (check_missing_values env df df_name) st
    (map (fun c => missing_finding env df_name (fst c) (snd c) (nrows d))
         critical)
    (match critical with
     | [] => ["No missing values in " +++ df_name]
     | _ => []
     end).
Proof.
  intros d critical ND. unfold check_missing_values.
  apply emits_get_frame. fold d. fold has_nulls. fold critical.
  destruct critical as [|c0 cs] eqn:Ecrit.
  - cbn. apply emits_add_pass.
  - cbn [List.length Nat.ltb Nat.leb]. rewrite <- Ecrit.
    assert (Hmap : forall l : list (string * nat),
               map (fun c => missing_finding env df_name (fst c) (snd c) (nrows d)) l
               = flat_map (fun c => [missing_finding env df_name (fst c) (snd c) (nrows d)]) l).
    { intros l. rewrite flat_map_concat_map. induction l; cbn; congruence. }
    rewrite Hmap.
    replace (@nil string) with (flat_map (fun _ : string * nat => @nil string) critical)
      by (clear; induction critical; cbn; auto).
    apply emits_for_each. intros [col k] st' HIn _. cbn [fst snd].
    subst critical. apply filter_In in HIn. destruct HIn as [HIn _].
    rewrite (loc_map (fun k => percent k (len d)) (isnull_sum d) col).
    rewrite (loc_In (isnull_sum d) col k);
      [| rewrite isnull_sum_labels; exact ND | exact HIn].
    cbn [option_map]. unfold missing_finding, missing_severity, len.
    destruct (Float.gtb (percent k (nrows d)) (Float.of_Z 10));
      [|destruct (Float.gtb (percent k (nrows d)) (Float.of_Z 5))];
      apply emits_add_issue.
Qed.

Lemma has_nulls_iff (col : string) (k : nat) :
  has_nulls (col, k) = true <-> (0 < k)%nat.
Proof. unfold has_nulls. cbn [snd]. apply Nat.ltb_lt. Qed.

Lemma well_formed_nulls (d : DataFrame) (col : string) (s : Series) :
  well_formed d -> In (col, s) (columns d) -> (0 < null_count s)%nat ->
  (0 < nrows d)%nat.
Proof.
  intros [_ Hlen] HIn Hk. rewrite Forall_forall in Hlen.
  specialize (Hlen _ HIn). cbn in Hlen.
  pose proof (null_count_le s). lia.
Qed.

Lemma missing_severity_cases (k n : nat) :
  (0 < n)%nat ->
  let p := pct k n in
  ((inject_Z 10 < p)%Q -> missing_severity (percent k n) = HIGH) /\
  ((inject_Z 5 < p)%Q /\ (p <= inject_Z 10)%Q ->
   missing_severity (percent k n) = MEDIUM) /\
  ((p <= inject_Z 5)%Q -> missing_severity (percent k n) = LOW).
Proof.
  intros Hn p. unfold missing_severity.
  assert (H10 : (p <= inject_Z 10)%Q ->
                Float.gtb (percent k n) (Float.of_Z 10) = false).
  { intros Hle. apply not_true_is_false. intros H.
    apply (gtb_pct k n 10 Hn) in H. apply (Qlt_not_le _ _ H). exact Hle. }
  assert (H5 : (p <= inject_Z 5)%Q ->
               Float.gtb (percent k n) (Float.of_Z 5) = false).
  { intros Hle. apply not_true_is_false. intros H.
    apply (gtb_pct k n 5 Hn) in H. apply (Qlt_not_le _ _ H). exact Hle. }
  split; [|split].
  - intros H. apply (gtb_pct k n 10 Hn) in H. rewrite H. reflexivity.
  - intros [Hlo Hhi]. rewrite (H10 Hhi).
    apply (gtb_pct k n 5 Hn) in Hlo. rewrite Hlo. reflexivity.
  - intros Hle. rewrite H10, (H5 Hle); [reflexivity|].
    apply Qle_trans with (inject_Z 5); [exact Hle|].
    unfold Qle. cbn. lia.
Qed.

(** C1.  On a well-formed table the missing-value check returns normally and,
    for every column with at least one null, appends exactly one finding about
    that column: a Missing Data finding that carries the null count [k] and
    the percentage [k / n * 100], of severity HIGH when that percentage is
    above 10, MEDIUM when it is above 5 and at most 10, LOW when it is at most
    5 (it is always above 0).  A column without nulls gets no finding.  When
    no column has a null the check appends no finding and the single pass of
    the table; otherwise it appends no pass. *)
Theorem check_missing_values_spec env df df_name st :
  let d := frames st df in
  well_formed d ->
  exists fs ps,
    emits (check_missing_values env df df_name) st fs ps /\
    (forall col s,
        In (col, s) (columns d) -> (0 < null_count s)%nat ->
        let p := pct (null_count s) (nrows d) in
        exists f,
          filter (about col) fs = [f] /\
          category f = MissingData /\
          details f = Some (DColumnPct col (null_count s) (Fin p)) /\
          (0 < p)%Q /\
          ((inject_Z 10 < p)%Q -> severity f = HIGH) /\
          ((inject_Z 5 < p)%Q /\ (p <= inject_Z 10)%Q -> severity f = MEDIUM) /\
          ((p <= inject_Z 5)%Q -> severity f = LOW)) /\
    (forall col s,
        In (col, s) (columns d) -> null_count s = 0%nat ->
        filter (about col) fs = []) /\
    ((forall col s, In (col, s) (columns d) -> null_count s = 0%nat) ->
     fs = [] /\ ps = ["No missing values in " +++ df_name]) /\
    ((exists col s, In (col, s) (columns d) /\ (0 < null_count s)%nat) ->
     ps = []).
Proof.
  intros d WF. pose proof WF as [ND Hlen].
  pose proof (check_missing_values_emits env df df_name st ND) as Hem.
  cbv zeta in Hem. fold d in Hem.
  set (critical := filter has_nulls (isnull_sum d)) in *.
  set (mk := fun c : string * nat =>
               missing_finding env df_name (fst c) (snd c) (nrows d)) in *.
  assert (Hcrit : forall col s, In (col, s) (columns d) ->
                   In (col, null_count s) (isnull_sum d)).
  { intros col s HIn. unfold isnull_sum.
    apply in_map_iff. exists (col, s). split; [reflexivity | exact HIn]. }
  assert (Habout : forall col,
             filter (about col) (map mk critical)
             = map mk (filter (fun c => String.eqb (fst c) col) critical)).
  { intros col. rewrite filter_map_comm. reflexivity. }
  assert (NDc : NoDup (map fst critical)).
  { apply NoDup_map_fst_filter. rewrite isnull_sum_labels. exact ND. }
  eexists. eexists. split; [exact Hem|]. split; [|split; [|split]].
  - intros col s HIn Hk p.
    assert (Hn : (0 < nrows d)%nat) by (eapply well_formed_nulls; eauto).
    exists (mk (col, null_count s)). split.
    { rewrite Habout.
      rewrite (filter_key_unique critical col (null_count s) NDc);
        [reflexivity|].
      apply filter_In. split; [apply Hcrit, HIn|].
      apply has_nulls_iff. exact Hk. }
    unfold mk, missing_finding. cbn [category details severity fst snd].
    rewrite (percent_pos _ _ Hn).
    split; [reflexivity|]. split; [reflexivity|]. split.
    { unfold p, pct, Qlt. cbn.
      destruct (nrows d) as [|m]; [lia|]. cbn. lia. }
    rewrite <- (percent_pos _ _ Hn).
    apply (missing_severity_cases (null_count s) (nrows d) Hn).
  - intros col s HIn Hk. rewrite Habout.
    replace (filter (fun c => String.eqb (fst c) col) critical) with
      (@nil (string * nat)); [reflexivity|].
    symmetry. unfold critical. rewrite filter_filter_comm_key.
    rewrite (filter_key_unique (isnull_sum d) col (null_count s));
      [| rewrite isnull_sum_labels; exact ND | apply Hcrit, HIn].
    cbn. unfold has_nulls. cbn. rewrite Hk. reflexivity.
  - intros Hnone.
    assert (E : critical = []).
    { unfold critical. apply filter_nil_all. intros [col k] HIn.
      unfold isnull_sum in HIn. apply in_map_iff in HIn.
      destruct HIn as ([col' s] & E & HIn). inversion E; subst.
      unfold has_nulls. cbn. rewrite (Hnone _ _ HIn). reflexivity. }
    rewrite E. split; reflexivity.
  - intros (col & s & HIn & Hk).
    assert (HInc : In (col, null_count s) critical).
    { apply filter_In. split; [apply Hcrit, HIn|].
      apply has_nulls_iff. exact Hk. }
    destruct critical; [contradiction | reflexivity].
Qed.

Lemma well_formed_frame_nulls : well_formed frame_nulls.
Proof.
  split.
  - cbn. repeat constructor; cbn; intuition discriminate.
  - repeat constructor.
Qed.

Lemma check_missing_values_spec_witness :
  well_formed frame_nulls /\
  exists fs ps,
    emits (check_missing_values env_ex occupancy_df "t")
          (state_of frame_nulls) fs ps /\
    (exists f, filter (about "a") fs = [f] /\ severity f = HIGH) /\
    (exists f, filter (about "b") fs = [f] /\ severity f = MEDIUM) /\
    (exists f, filter (about "c") fs = [f] /\ severity f = LOW) /\
    filter (about "d") fs = [] /\
    ps = [].
Proof.
  split; [exact well_formed_frame_nulls|].
  destruct (check_missing_values_spec env_ex occupancy_df "t"
              (state_of frame_nulls) well_formed_frame_nulls)
    as (fs & ps & Hem & Hcol & Hnone & _ & Hps).
  exists fs, ps. split; [exact Hem|].
  split; [|split; [|split; [|split]]].
  - destruct (Hcol "a" (mkSeries Numeric (repeat Null 3 ++ repeat (Num 1) 17)))
      as (f & Hf & _ & _ & _ & Hhigh & _).
    + cbn. tauto.
    + cbn. lia.
    + exists f. split; [exact Hf|]. apply Hhigh. vm_compute. reflexivity.
  - destruct (Hcol "b" (mkSeries Numeric (repeat Null 2 ++ repeat (Num 1) 18)))
      as (f & Hf & _ & _ & _ & _ & Hmed & _).
    + cbn. tauto.
    + cbn. lia.
    + exists f. split; [exact Hf|]. apply Hmed.
      split; vm_compute; [reflexivity | discriminate].
  - destruct (Hcol "c" (mkSeries Object (repeat Null 1 ++ repeat (Str "x") 19)))
      as (f & Hf & _ & _ & _ & _ & _ & Hlow).
    + cbn. tauto.
    + cbn. lia.
    + exists f. split; [exact Hf|]. apply Hlow. vm_compute. discriminate.
  - apply (Hnone "d" (mkSeries Numeric (repeat (Num 7) 20))).
    + cbn. tauto.
    + reflexivity.
  - apply Hps. exists "a", (mkSeries Numeric (repeat Null 3 ++ repeat (Num 1) 17)).
    split; [cbn; tauto | cbn; lia].
Defined.

(** ** Outliers *)

Lemma sum_true_or_map {A : Type} (f g : A -> bool) (l : list A) :
  sum_true (series_or (map f l) (map g l))
  = List.length (filter (fun c => f c || g c) l).
Proof.
  unfold sum_true, series_or.
  induction l as [|x l IH]; cbn; [reflexivity|].
  destruct (f x || g x); cbn; rewrite IH; reflexivity.
Qed.

Lemma emits_lift_Ok {A : Type} (a : A) (k : A -> M unit) st fs ps :
  emits (k a) st fs ps -> emits (x <- lift (Ok a) ;; k x) st fs ps.
Proof. intros H. exact H. Qed.

Lemma series_quantile_Ok (s : Series) (p : Q) :
  has_quantiles s = true -> series_quantile s p = Ok (quantile s p).
Proof.
  unfold has_quantiles, series_quantile.
  destruct (dt s); try reflexivity.
  destruct (values s); [reflexivity | discriminate].
Qed.

Lemma has_quantiles_not_boolean (s : Series) :
  dt s <> Boolean -> has_quantiles s = true.
Proof.
  unfold has_quantiles. destruct (dt s); try reflexivity.
  intros H. exfalso. apply H. reflexivity.
Qed.

Lemma check_outlier_emits env df df_name col st :
  let d := frames st df in
  (forall s, loc (columns d) col = Some s -> has_quantiles s = true) ->
  emits (check_outlier env df df_name col) st
    (outlier_findings env df_name d col) (outlier_passes df_name d col).
Proof.
  intros d Hq. unfold check_outlier. apply emits_get_frame. fold d.
  unfold outlier_findings, outlier_passes, is_numeric_column.
  destruct (loc (columns d) col) as [s|]; [|apply emits_ret].
  destruct (is_numeric_dtype s) eqn:Hnum; [|apply emits_ret].
  rewrite !(series_quantile_Ok s _ (Hq s eq_refl)).
  cbn [andb]. do 2 apply emits_lift_Ok.
  unfold compare_float64. rewrite sum_true_or_map.
  set (Q1 := quantile s (1 # 4)). set (Q3 := quantile s (3 # 4)).
  set (lo := Float64.sub Q1 _). set (hi := Float64.add Q3 _).
  rewrite (filter_ext _ (strictly_outside lo hi))
    by (intros [ | | | | ]; reflexivity).
  change (List.length (filter (strictly_outside lo hi) (values s)))
    with (outlier_count s).
  rewrite gtb_percent by lia. unfold len.
  fold (above_5pct (outlier_count s) (nrows d)).
  destruct (above_5pct (outlier_count s) (nrows d)); cbn [negb].
  - apply emits_add_issue.
  - apply emits_add_pass.
Qed.

Lemma check_outliers_emits env df df_name numeric_columns st :
  let d := frames st df in
  (forall col s, In col numeric_columns ->
                 loc (columns d) col = Some s -> has_quantiles s = true) ->
  emits (check_outliers env df df_name numeric_columns) st
    (flat_map (outlier_findings env df_name d) numeric_columns)
    (flat_map (outlier_passes df_name d) numeric_columns).
Proof.
  intros d Hq. unfold check_outliers. apply emits_for_each.
  intros col st' HIn Hfr.
  pose proof (check_outlier_emits env df df_name col st') as H.
  cbv zeta in H. rewrite Hfr in H. apply H.
  intros s Hs. exact (Hq col s HIn Hs).
Qed.

(** ** Empty tables *)

Lemma empty_values (d : DataFrame) (col : string) (s : Series) :
  well_formed d -> nrows d = 0%nat -> In (col, s) (columns d) ->
  values s = [].
Proof.
  intros [_ Hlen] Hn HIn. rewrite Forall_forall in Hlen.
  specialize (Hlen _ HIn). cbn in Hlen. rewrite Hn in Hlen.
  apply length_zero_iff_nil. exact Hlen.
Qed.

(** C2, as stated, fails: on a table without rows the missing-value check
    does record a result, the pass of the whole table. *)
Lemma empty_table_counterexample :
  nrows frame_empty = 0%nat /\
  check_missing_values env_ex occupancy_df "occupancy_data"
    (state_of frame_empty)
  = (Ok tt,
     mkState (fun _ => frame_empty)
       (mkChecker [] ["No missing values in occupancy_data"])) /\
  ~ emits (check_missing_values env_ex occupancy_df "occupancy_data")
      (state_of frame_empty) [] [].
Proof.
  split; [reflexivity|]. split; [reflexivity|].
  intros (st' & E & _ & _ & P).
  assert (E' : st' = mkState (fun _ => frame_empty)
                       (mkChecker [] ["No missing values in occupancy_data"])).
  { change (check_missing_values env_ex occupancy_df "occupancy_data"
              (state_of frame_empty))
      with (Ok tt,
            mkState (fun _ : ref => frame_empty)
              (mkChecker [] ["No missing values in occupancy_data"])) in E.
    inversion E. reflexivity. }
  subst st'. cbn in P. discriminate P.
Qed.

(** C2, amended.  On a well-formed table without rows neither check raises
    and neither logs a finding, but both record passes: the missing-value
    check the single pass of the table, the outlier check one pass for each
    listed column that is present with a numeric dtype (none for the others).
    The percentage [0 / 0] is a [nan], which is above no threshold. *)
Theorem empty_table_checks env df df_name numeric_columns st :
  let d := frames st df in
  well_formed d -> nrows d = 0%nat ->
  emits (check_missing_values env df df_name) st
    [] ["No missing values in " +++ df_name] /\
  emits (check_outliers env df df_name numeric_columns) st
    [] (map (outlier_pass df_name)
            (filter (is_numeric_column d) numeric_columns)).
Proof.
  intros d WF Hn. split.
  - pose proof (check_missing_values_emits env df df_name st (proj1 WF)) as H.
    cbv zeta in H. fold d in H.
    replace (filter has_nulls (isnull_sum d)) with (@nil (string * nat)) in H;
      [exact H|].
    symmetry. apply filter_nil_all. intros [col k] HIn.
    unfold isnull_sum in HIn. apply in_map_iff in HIn.
    destruct HIn as ([col' s] & E & HIn). inversion E; subst.
    unfold has_nulls, null_count. cbn [snd].
    rewrite (empty_values d col s WF Hn HIn). reflexivity.
  - assert (Hq : forall col s, In col numeric_columns ->
                     loc (columns d) col = Some s -> has_quantiles s = true).
    { intros col s _ Hloc. apply loc_Some_In in Hloc.
      unfold has_quantiles. rewrite (empty_values d col s WF Hn Hloc).
      destruct (dt s); reflexivity. }
    pose proof (check_outliers_emits env df df_name numeric_columns st Hq)
      as H.
    cbv zeta in H. fold d in H.
    assert (Hk : forall col s, loc (columns d) col = Some s ->
                               above_5pct (outlier_count s) (nrows d) = false).
    { intros col s Hloc. apply loc_Some_In in Hloc.
      unfold outlier_count. rewrite (empty_values d col s WF Hn Hloc), Hn.
      reflexivity. }
    replace (flat_map (outlier_findings env df_name d) numeric_columns)
      with (@nil Finding) in H.
    2:{ clear H Hq. symmetry.
        induction numeric_columns as [|c l IH]; cbn; [reflexivity|].
        rewrite IH. unfold outlier_findings.
        destruct (loc (columns d) c) as [s|] eqn:El; [|reflexivity].
        rewrite (Hk c s El), andb_false_r. reflexivity. }
    replace (flat_map (outlier_passes df_name d) numeric_columns)
      with (map (outlier_pass df_name)
              (filter (is_numeric_column d) numeric_columns)) in H;
      [exact H|].
    clear H Hq.
    induction numeric_columns as [|c l IH]; cbn; [reflexivity|].
    rewrite <- IH. unfold outlier_passes.
    destruct (is_numeric_column d c) eqn:En; cbn;
      destruct (loc (columns d) c) as [s|] eqn:El;
      try reflexivity.
    + rewrite (Hk c s El). reflexivity.
    + unfold is_numeric_column in En. rewrite El in En. discriminate.
Qed.

Lemma well_formed_frame_empty : well_formed frame_empty.
Proof.
  split.
  - cbn. repeat constructor; cbn; intuition discriminate.
  - repeat constructor.
Qed.

Lemma empty_table_checks_witness :
  well_formed frame_empty /\ nrows frame_empty = 0%nat /\
  emits (check_missing_values env_ex occupancy_df "occupancy_data")
    (state_of frame_empty) [] ["No missing values in occupancy_data"] /\
  emits (check_outliers env_ex occupancy_df "occupancy_data"
           ["occupancy_rate"; "capacity"])
    (state_of frame_empty) [] ["occupancy_data.occupancy_rate outlier check"].
Proof.
  split; [exact well_formed_frame_empty|]. split; [reflexivity|].
  exact (empty_table_checks env_ex occupancy_df "occupancy_data"
           ["occupancy_rate"; "capacity"] (state_of frame_empty)
           well_formed_frame_empty eq_refl).
Defined.

(** ** Strings *)

Lemma length_append (a b : string) :
  String.length (a +++ b) = (String.length a + String.length b)%nat.
Proof. induction a as [|c a IH]; cbn; [reflexivity | rewrite IH; reflexivity]. Qed.

Lemma append_inj_l (a x y : string) : a +++ x = a +++ y -> x = y.
Proof.
  induction a as [|c a IH]; cbn; intros H; [exact H|].
  inversion H. apply IH. assumption.
Qed.

Lemma append_inj_r (s x y : string) : x +++ s = y +++ s -> x = y.
Proof.
  revert y. induction x as [|c x IH]; intros [|c' y] H; cbn in H.
  - reflexivity.
  - exfalso. apply (f_equal String.length) in H. cbn in H.
    rewrite length_append in H. lia.
  - exfalso. apply (f_equal String.length) in H. cbn in H.
    rewrite length_append in H. lia.
  - inversion H. f_equal. apply IH. assumption.
Qed.

Lemma range_pass_inj (df_name c c' : string) :
  range_pass df_name c = range_pass df_name c' -> c = c'.
Proof.
  unfold range_pass. intros H.
  apply append_inj_l in H. apply append_inj_l in H.
  apply append_inj_r in H. exact H.
Qed.

Lemma outlier_pass_inj (df_name c c' : string) :
  outlier_pass df_name c = outlier_pass df_name c' -> c = c'.
Proof.
  unfold outlier_pass. intros H.
  apply append_inj_l in H. apply append_inj_l in H.
  apply append_inj_r in H. exact H.
Qed.

(** ** Ranges *)

Lemma mapM_Ok_map {A B : Type} (f : A -> outcome B) (g : A -> B)
    (l : list A) :
  (forall x, In x l -> f x = Ok (g x)) -> mapM f l = Ok (map g l).
Proof.
  induction l as [|x l IH]; cbn; intros H; [reflexivity|].
  rewrite (H x) by (left; reflexivity).
  rewrite IH; [reflexivity|]. intros y Hy. apply H. right; exact Hy.
Qed.

(** On a comparable series a comparison is a plain map over the cells. *)
Lemma compare_comparable (op : fval -> fval -> bool) (s : Series) (x : fval) :
  comparable s = true ->
  compare op s x
  = Ok (map (fun c => match c with Num q => op (Fin q) x | _ => false end)
            (values s)).
Proof.
  unfold comparable, compare. destruct (dt s); intros H.
  - reflexivity.
  - apply mapM_Ok_map. intros c Hc.
    rewrite forallb_forall in H. specialize (H c Hc).
    destruct c; try discriminate; reflexivity.
  - discriminate.
  - reflexivity.
Qed.

(** An [object] series that holds text cannot be compared. *)
Lemma compare_text (op : fval -> fval -> bool) (s : Series) (x : fval)
    (t : string) :
  dt s = Object -> In (Str t) (values s) ->
  exists e, compare op s x = Raise e.
Proof.
  unfold compare. intros -> HIn.
  induction (values s) as [|c l IH]; [contradiction|].
  cbn. destruct HIn as [-> | HIn].
  - cbn. eexists; reflexivity.
  - destruct (compare_cell op x c); [|eexists; reflexivity].
    destruct (IH HIn) as (e & ->). eexists; reflexivity.
Qed.

Lemma out_of_range_iff (min_val max_val : Z) (q : Q) :
  out_of_range min_val max_val (Num q) = true
  <-> (q < inject_Z min_val)%Q \/ (inject_Z max_val < q)%Q.
Proof.
  unfold out_of_range. rewrite orb_true_iff, !Qlt_bool_iff. reflexivity.
Qed.

Lemma check_range_emits env df df_name item st :
  let d := frames st df in
  (forall s, loc (columns d) (fst item) = Some s -> comparable s = true) ->
  emits (check_range env df df_name item) st
    (range_findings env df_name d item) (range_passes df_name d item).
Proof.
  intros d Hc. unfold check_range. apply emits_get_frame. fold d.
  unfold range_findings, range_passes.
  destruct (loc (columns d) (fst item)) as [s|]; [|apply emits_ret].
  rewrite !(compare_comparable _ s _ (Hc s eq_refl)).
  unfold lift, bind at 1 2. rewrite sum_true_or_map.
  rewrite (filter_ext _ (out_of_range (fst (snd item)) (snd (snd item))))
    by (intros [ | | | | ]; reflexivity).
  fold (out_of_range_count s (fst (snd item)) (snd (snd item))).
  cbv zeta.
  destruct (0 <? out_of_range_count s (fst (snd item)) (snd (snd item)))%nat.
  - apply emits_add_issue.
  - apply emits_add_pass.
Qed.

Lemma check_data_ranges_emits env df df_name range_checks st :
  let d := frames st df in
  (forall col b s, In (col, b) range_checks ->
                   loc (columns d) col = Some s -> comparable s = true) ->
  emits (check_data_ranges env df df_name range_checks) st
    (flat_map (range_findings env df_name d) range_checks)
    (flat_map (range_passes df_name d) range_checks).
Proof.
  intros d Hc. unfold check_data_ranges. apply emits_for_each.
  intros [col b] st' HIn Hfr.
  pose proof (check_range_emits env df df_name (col, b) st') as H.
  cbv zeta in H. rewrite Hfr in H. apply H.
  intros s Hs. exact (Hc col b s HIn Hs).
Qed.

(** In the output of a loop over items with distinct keys, what is selected
    by the key of an item is what the turn of that item appended. *)
Lemma filter_flat_map_key {A B : Type} (l : list (string * A))
    (F : string * A -> list B) (sel : B -> bool) (col : string) (b : A) :
  NoDup (map fst l) -> In (col, b) l ->
  (forall item y, In item l -> In y (F item) ->
                  sel y = String.eqb (fst item) col) ->
  filter sel (flat_map F l) = F (col, b).
Proof.
  induction l as [|item l IH]; intros ND HIn Hsel; [contradiction|].
  cbn [flat_map]. rewrite filter_app.
  inversion ND as [|? ? Hnot ND']; subst.
  assert (Hrest : forall l', incl l' l -> ~ In col (map fst l') ->
                             filter sel (flat_map F l') = []).
  { induction l' as [|it l' IH']; intros Hincl Hno; [reflexivity|].
    cbn [flat_map]. rewrite filter_app, IH'.
    - rewrite app_nil_r. apply filter_nil_all. intros y Hy.
      rewrite (Hsel it y); [|right; apply Hincl; left; reflexivity | exact Hy].
      apply String.eqb_neq. intros E. apply Hno. left. exact E.
    - intros x Hx. apply Hincl. right; exact Hx.
    - intros H. apply Hno. right; exact H. }
  destruct HIn as [-> | HIn].
  - rewrite (Hrest l (incl_refl l) Hnot), app_nil_r.
    apply forallb_filter_id. apply forallb_forall. intros y Hy.
    rewrite (Hsel (col, b) y); [apply String.eqb_refl | left; reflexivity | exact Hy].
  - rewrite IH; [| exact ND' | exact HIn |].
    + replace (filter sel (F item)) with (@nil B); [reflexivity|].
      symmetry. apply filter_nil_all. intros y Hy.
      rewrite (Hsel item y); [| left; reflexivity | exact Hy].
      apply String.eqb_neq. intros E. apply Hnot. rewrite E.
      apply (in_map fst) in HIn. exact HIn.
    + intros it y Hit Hy. apply Hsel; [right; exact Hit | exact Hy].
Qed.

Lemma range_findings_about env df_name d item col y :
  In y (range_findings env df_name d item) ->
  about col y = String.eqb (fst item) col.
Proof.
  unfold range_findings. destruct (loc (columns d) (fst item)); [|intros []].
  cbv zeta. destruct (0 <? _)%nat; [|intros []].
  intros [<- | []]. reflexivity.
Qed.

Lemma range_passes_named df_name d item col y :
  In y (range_passes df_name d item) ->
  String.eqb (range_pass df_name col) y = String.eqb (fst item) col.
Proof.
  unfold range_passes. destruct (loc (columns d) (fst item)); [|intros []].
  destruct (0 <? _)%nat; [intros []|].
  intros [<- | []].
  destruct (String.eqb_spec (fst item) col) as [->|Hne].
  - apply String.eqb_refl.
  - apply String.eqb_neq. intros E. apply Hne. symmetry.
    exact (range_pass_inj _ _ _ E).
Qed.

(** C5.  Let the range mapping have distinct keys and let every range-checked
    column present in the table hold only numbers and missing values.  Then
    the range check returns normally and, for every entry [col -> (min, max)]:
    when [col] is absent it appends neither a finding about [col] nor a pass
    for it; when [col] is present, with [k] the number of rows whose value is
    below [min] or above [max] (a value equal to a bound is not counted, nor
    is a missing one), it appends exactly one MEDIUM Range Validation finding
    carrying [k] and the bounds and no pass if [k > 0], and exactly one pass
    and no finding if [k = 0]. *)
Theorem check_data_ranges_spec env df df_name range_checks st :
  let d := frames st df in
  NoDup (map fst range_checks) ->
  (forall col b s, In (col, b) range_checks ->
                   loc (columns d) col = Some s -> comparable s = true) ->
  exists fs ps,
    emits (check_data_ranges env df df_name range_checks) st fs ps /\
    forall col min_val max_val,
      In (col, (min_val, max_val)) range_checks ->
      match loc (columns d) col with
      | None =>
          filter (about col) fs = [] /\
          passes_named (range_pass df_name col) ps = []
      | Some s =>
          let k := out_of_range_count s min_val max_val in
          (forall q, out_of_range min_val max_val (Num q) = true
                     <-> (q < inject_Z min_val)%Q \/ (inject_Z max_val < q)%Q) /\
          ((min_val <= max_val)%Z ->
           out_of_range min_val max_val (Num (inject_Z min_val)) = false /\
           out_of_range min_val max_val (Num (inject_Z max_val)) = false) /\
          out_of_range min_val max_val Null = false /\
          ((0 < k)%nat ->
           filter (about col) fs
           = [range_finding env df_name col k min_val max_val] /\
           passes_named (range_pass df_name col) ps = []) /\
          (k = 0%nat ->
           filter (about col) fs = [] /\
           passes_named (range_pass df_name col) ps
           = [range_pass df_name col])
      end.
Proof.
  intros d ND Hc.
  exists (flat_map (range_findings env df_name d) range_checks),
         (flat_map (range_passes df_name d) range_checks).
  split; [apply check_data_ranges_emits; exact Hc|].
  intros col min_val max_val HIn.
  assert (HF : filter (about col)
                 (flat_map (range_findings env df_name d) range_checks)
               = range_findings env df_name d (col, (min_val, max_val))).
  { apply filter_flat_map_key; [exact ND | exact HIn |].
    intros item y _ Hy. eapply range_findings_about; exact Hy. }
  assert (HP : passes_named (range_pass df_name col)
                 (flat_map (range_passes df_name d) range_checks)
               = range_passes df_name d (col, (min_val, max_val))).
  { apply filter_flat_map_key; [exact ND | exact HIn |].
    intros item y _ Hy. eapply range_passes_named; exact Hy. }
  rewrite HF, HP. unfold range_findings, range_passes. cbn [fst snd].
  destruct (loc (columns d) col) as [s|]; [|split; reflexivity].
  cbv zeta. split; [apply out_of_range_iff|].
  split.
  { intros Hle. split; apply not_true_is_false; intros H;
      apply out_of_range_iff in H; unfold Qlt in H; cbn in H; lia. }
  split; [reflexivity|].
  split.
  - intros Hk. apply Nat.ltb_lt in Hk. rewrite Hk. split; reflexivity.
  - intros Hk. rewrite Hk. split; reflexivity.
Qed.

Lemma check_data_ranges_spec_witness :
  NoDup (map fst ranges_ex) /\
  (forall col b s, In (col, b) ranges_ex ->
                   loc (columns frame_rates) col = Some s ->
                   comparable s = true) /\
  exists fs ps,
    emits (check_data_ranges env_ex occupancy_df "occupancy_data" ranges_ex)
          (state_of frame_rates) fs ps /\
    filter (about "occupancy_rate") fs
    = [range_finding env_ex "occupancy_data" "occupancy_rate" 1 0 100] /\
    passes_named (range_pass "occupancy_data" "occupancy_rate") ps = [] /\
    filter (about "capacity") fs = [] /\
    passes_named (range_pass "occupancy_data" "capacity") ps
    = ["occupancy_data.capacity range check"] /\
    filter (about "desks") fs = [] /\
    passes_named (range_pass "occupancy_data" "desks") ps = [].
Proof.
  assert (ND : NoDup (map fst ranges_ex)).
  { cbn. repeat constructor; cbn; intuition discriminate. }
  assert (Hc : forall col b s, In (col, b) ranges_ex ->
                   loc (columns frame_rates) col = Some s ->
                   comparable s = true).
  { intros col b s HIn Hloc. cbn in HIn.
    destruct HIn as [E|[E|[E|[]]]]; inversion E; subst; cbn in Hloc;
      inversion Hloc; reflexivity. }
  split; [exact ND|]. split; [exact Hc|].
  destruct (check_data_ranges_spec env_ex occupancy_df "occupancy_data"
              ranges_ex (state_of frame_rates) ND Hc)
    as (fs & ps & Hem & Hcol).
  exists fs, ps. split; [exact Hem|].
  pose proof (Hcol "occupancy_rate" 0%Z 100%Z) as H1.
  pose proof (Hcol "capacity" 50%Z 200%Z) as H2.
  pose proof (Hcol "desks" 0%Z 10%Z) as H3.
  cbn in H1, H2, H3.
  destruct H1 as (_ & _ & _ & H1 & _); [tauto|].
  destruct H2 as (_ & _ & _ & _ & H2); [tauto|].
  destruct H3 as (H3 & H3'); [tauto|].
  destruct (H1 ltac:(vm_compute; lia)) as (H1a & H1b).
  destruct (H2 ltac:(vm_compute; reflexivity)) as (H2a & H2b).
  split; [exact H1a|]. split; [exact H1b|]. split; [exact H2a|].
  split; [exact H2b|]. split; [exact H3 | exact H3'].
Defined.

(** ** Counting findings and passes *)

Lemma length_flat_map_pair {A B C : Type} (F : A -> list B) (P : A -> list C)
    (g : A -> bool) (l : list A) :
  (forall x, In x l ->
             (List.length (F x) + List.length (P x))%nat
             = if g x then 1%nat else 0%nat) ->
  (List.length (flat_map F l) + List.length (flat_map P l))%nat
  = List.length (filter g l).
Proof.
  induction l as [|x l IH]; intros H; [reflexivity|].
  cbn [flat_map filter]. rewrite !length_app.
  assert (Hx := H x (or_introl eq_refl)).
  assert (Hl := IH (fun y Hy => H y (or_intror Hy))).
  destruct (g x); cbn [List.length]; lia.
Qed.

(** C3, as stated, fails for the missing-value check: on a table of two
    columns without nulls it appends one pass and no finding. *)
Lemma column_count_counterexample :
  List.length (columns frame_clean) = 2%nat /\
  exists fs ps,
    emits (check_missing_values env_ex revenue_df "revenue_data")
          (state_of frame_clean) fs ps /\
    (List.length fs + List.length ps)%nat = 1%nat /\
    (List.length fs + List.length ps)%nat <> List.length (columns frame_clean).
Proof.
  split; [reflexivity|].
  exists [], ["No missing values in revenue_data"].
  split; [|split; [reflexivity | cbn; lia]].
  eexists. split; [vm_compute; reflexivity|].
  split; [reflexivity|]. split; reflexivity.
Qed.

(** C3, amended.  On a table with distinct labels whose range-checked columns
    hold only numbers and missing values, and none of whose columns listed
    for the outlier check is a non-empty column of booleans (on which the
    quartile raises), each check returns normally and: the range check appends
    as many findings and passes together as there are entries of the mapping
    whose column is present; the outlier check as many as there are listed
    columns present with a numeric dtype, booleans included; the
    missing-value check appends one finding for each column with a null and,
    only when there is no such column, a single pass for the whole table. *)
Theorem checks_count_columns env df df_name range_checks numeric_columns st :
  let d := frames st df in
  NoDup (labels d) ->
  (forall col b s, In (col, b) range_checks ->
                   loc (columns d) col = Some s -> comparable s = true) ->
  (forall col s, In col numeric_columns ->
                 loc (columns d) col = Some s -> has_quantiles s = true) ->
  (exists fs ps,
      emits (check_data_ranges env df df_name range_checks) st fs ps /\
      (List.length fs + List.length ps)%nat
      = List.length (filter (fun item => has_column d (fst item))
                            range_checks)) /\
  (exists fs ps,
      emits (check_outliers env df df_name numeric_columns) st fs ps /\
      (List.length fs + List.length ps)%nat
      = List.length (filter (is_numeric_column d) numeric_columns)) /\
  (exists fs ps,
      emits (check_missing_values env df df_name) st fs ps /\
      List.length fs
      = List.length (filter (fun c => (0 <? null_count (snd c))%nat)
                            (columns d)) /\
      List.length ps = (if (List.length fs =? 0)%nat then 1%nat else 0%nat)).
Proof.
  intros d ND Hc Hq. split; [|split].
  - eexists. eexists. split; [apply check_data_ranges_emits; exact Hc|].
    fold d. apply length_flat_map_pair. intros item _.
    unfold range_findings, range_passes, has_column.
    destruct (loc (columns d) (fst item)); [|reflexivity].
    cbv zeta. destruct (0 <? _)%nat; reflexivity.
  - eexists. eexists. split; [apply check_outliers_emits; exact Hq|].
    fold d. apply length_flat_map_pair. intros col _.
    unfold outlier_findings, outlier_passes.
    destruct (loc (columns d) col) as [s|] eqn:El.
    + destruct (is_numeric_column d col); [|reflexivity].
      destruct (above_5pct _ _); reflexivity.
    + unfold is_numeric_column. rewrite El. reflexivity.
  - eexists. eexists.
    split; [apply check_missing_values_emits; exact ND|]. fold d.
    rewrite length_map.
    assert (E : List.length (filter has_nulls (isnull_sum d))
                = List.length
                    (filter (fun c => (0 <? null_count (snd c))%nat)
                            (columns d))).
    { unfold isnull_sum. rewrite filter_map_comm, length_map. reflexivity. }
    split; [exact E|].
    destruct (filter has_nulls (isnull_sum d)); reflexivity.
Qed.

Lemma checks_count_columns_witness :
  NoDup (labels frame_rates) /\
  (forall col b s, In (col, b) ranges_ex ->
                   loc (columns frame_rates) col = Some s ->
                   comparable s = true) /\
  (forall col s, In col ["occupancy_rate"; "desks"] ->
                 loc (columns frame_rates) col = Some s ->
                 has_quantiles s = true) /\
  (exists fs ps,
      emits (check_data_ranges env_ex occupancy_df "occupancy_data" ranges_ex)
            (state_of frame_rates) fs ps /\
      (List.length fs + List.length ps)%nat = 2%nat) /\
  (exists fs ps,
      emits (check_outliers env_ex occupancy_df "occupancy_data"
               ["occupancy_rate"; "desks"])
            (state_of frame_rates) fs ps /\
      (List.length fs + List.length ps)%nat = 1%nat) /\
  (exists fs ps,
      emits (check_missing_values env_ex occupancy_df "occupancy_data")
            (state_of frame_rates) fs ps /\
      List.length fs = 1%nat /\ List.length ps = 0%nat).
Proof.
  assert (ND : NoDup (labels frame_rates)).
  { cbn. repeat constructor; cbn; intuition discriminate. }
  assert (Hc : forall col b s, In (col, b) ranges_ex ->
                   loc (columns frame_rates) col = Some s ->
                   comparable s = true).
  { intros col b s HIn Hloc. cbn in HIn.
    destruct HIn as [E|[E|[E|[]]]]; inversion E; subst; cbn in Hloc;
      inversion Hloc; reflexivity. }
  assert (Hq : forall col s, In col ["occupancy_rate"; "desks"] ->
                 loc (columns frame_rates) col = Some s ->
                 has_quantiles s = true).
  { intros col s HIn Hloc. cbn in HIn.
    destruct HIn as [E|[E|[]]]; subst; cbn in Hloc;
      inversion Hloc; reflexivity. }
  split; [exact ND|]. split; [exact Hc|]. split; [exact Hq|].
  destruct (checks_count_columns env_ex occupancy_df "occupancy_data"
              ranges_ex ["occupancy_rate"; "desks"] (state_of frame_rates)
              ND Hc Hq)
    as ((fs1 & ps1 & E1 & L1) & (fs2 & ps2 & E2 & L2)
        & (fs3 & ps3 & E3 & L3 & L3')).
  split; [|split].
  - exists fs1, ps1. split; [exact E1 | exact L1].
  - exists fs2, ps2. split; [exact E2 | exact L2].
  - exists fs3, ps3. split; [exact E3|]. split; [exact L3|].
    rewrite L3'. rewrite L3. reflexivity.
Defined.

(** ** Duplicates *)

Lemma cell_eqb_trans (a b c : cell) :
  cell_eqb a b = true -> cell_eqb b c = true -> cell_eqb a c = true.
Proof.
  destruct a, b; cbn; try discriminate; destruct c; cbn;
    try discriminate; try reflexivity.
  - apply Qeq_bool_trans.
  - rewrite !String.eqb_eq. congruence.
  - rewrite !Z.eqb_eq. congruence.
Qed.

Lemma row_eqb_trans (r1 r2 r3 : list cell) :
  row_eqb r1 r2 = true -> row_eqb r2 r3 = true -> row_eqb r1 r3 = true.
Proof.
  revert r2 r3. induction r1 as [|a r1 IH]; intros [|b r2] [|c r3]; cbn;
    try discriminate; try reflexivity.
  rewrite !andb_true_iff. intros [H1 H2] [H3 H4]. split.
  - exact (cell_eqb_trans a b c H1 H3).
  - exact (IH r2 r3 H2 H4).
Qed.

(** The marks of [duplicated]: the rows kept in [seen] stand for all the rows
    [pre] met so far. *)
Lemma mark_duplicates_spec (rs : list (list cell)) :
  forall seen pre,
    (forall r, existsb (row_eqb r) seen = existsb (row_eqb r) pre) ->
    mark_duplicates seen rs
    = map (fun i => existsb (row_eqb (nth i rs [])) (pre ++ firstn i rs))
          (seq 0 (List.length rs)).
Proof.
  induction rs as [|r rs IH]; intros seen pre Hseen; [reflexivity|].
  cbn [mark_duplicates List.length seq map nth firstn].
  rewrite app_nil_r, <- (Hseen r), <- seq_shift, map_map.
  cbn [nth firstn].
  assert (Htail : forall seen',
             (forall x, existsb (row_eqb x) seen'
                        = existsb (row_eqb x) (pre ++ [r])) ->
             mark_duplicates seen' rs
             = map (fun i => existsb (row_eqb (nth i rs []))
                               (pre ++ r :: firstn i rs))
                   (seq 0 (List.length rs))).
  { intros seen' H. rewrite (IH seen' (pre ++ [r]) H).
    apply map_ext. intros i. rewrite <- app_assoc. reflexivity. }
  destruct (existsb (row_eqb r) seen) eqn:Edup; f_equal; apply Htail.
  - intros x. rewrite existsb_app, <- (Hseen x). cbn. rewrite orb_false_r.
    destruct (row_eqb x r) eqn:Exr; [|rewrite orb_false_r; reflexivity].
    rewrite orb_true_r. apply existsb_exists.
    apply existsb_exists in Edup. destruct Edup as (s & Hs & Ers).
    exists s. split; [exact Hs|]. exact (row_eqb_trans x r s Exr Ers).
  - intros x. rewrite existsb_app, <- (Hseen x). cbn.
    rewrite orb_false_r. apply orb_comm.
Qed.

Lemma sum_true_mark_duplicates (rs : list (list cell)) :
  sum_true (mark_duplicates [] rs) = repeat_count rs.
Proof.
  rewrite (mark_duplicates_spec rs [] []) by reflexivity.
  unfold sum_true, repeat_count.
  rewrite (filter_map_comm _ (fun x : bool => x)), length_map.
  reflexivity.
Qed.

Lemma repeats_earlier_iff (rs : list (list cell)) (i : nat) :
  (i < List.length rs)%nat ->
  repeats_earlier rs i = true
  <-> exists j, (j < i)%nat /\ row_eqb (nth i rs []) (nth j rs []) = true.
Proof.
  intros Hi. unfold repeats_earlier. rewrite existsb_exists. split.
  - intros (x & HIn & Hx).
    destruct (In_nth _ _ [] HIn) as (j & Hj & Ej).
    rewrite length_firstn in Hj. rewrite nth_firstn in Ej.
    destruct (Nat.ltb_spec j i) as [Hlt|Hge]; [|lia].
    exists j. split; [exact Hlt|]. rewrite Ej. exact Hx.
  - intros (j & Hj & Hx). exists (nth j rs []). split; [|exact Hx].
    replace (nth j rs []) with (nth j (firstn i rs) []).
    + apply nth_In. rewrite length_firstn. lia.
    + rewrite nth_firstn. destruct (Nat.ltb_spec j i); [reflexivity | lia].
Qed.

Lemma length_rows_of (n : nat) (cols : list Series) :
  List.length (rows_of n cols) = n.
Proof. unfold rows_of. rewrite length_map, length_seq. reflexivity. Qed.

(** The marks the check sums, when the key columns exist. *)
Lemma duplicated_key_columns (d : DataFrame) (subset : option (list string))
    (cols : list Series) :
  key_columns d subset = Ok cols ->
  cols <> [] ->
  exists marks,
    (if truthy subset then duplicated d subset else duplicated d None)
    = Ok marks /\
    sum_true marks = repeat_count (rows_of (nrows d) cols).
Proof.
  intros Hkey Hcols. unfold duplicated, empty.
  destruct (nrows d) as [|n] eqn:En.
  - cbn [Nat.eqb orb]. exists []. split.
    + destruct (truthy subset); reflexivity.
    + reflexivity.
  - cbn [Nat.eqb orb]. destruct (columns d) as [|c cs] eqn:Ec.
    { exfalso. unfold key_columns in Hkey. rewrite Ec in Hkey.
      destruct subset as [[|k keys]|]; cbn in Hkey;
        try discriminate; inversion Hkey; subst; apply Hcols; reflexivity. }
    unfold key_columns in Hkey. rewrite Ec in Hkey.
    destruct subset as [[|k keys]|]; cbn [truthy].
    + inversion Hkey; subst. eexists. split; [reflexivity|].
      apply sum_true_mark_duplicates.
    + rewrite Hkey. eexists. split; [reflexivity|].
      apply sum_true_mark_duplicates.
    + inversion Hkey; subst. eexists. split; [reflexivity|].
      apply sum_true_mark_duplicates.
Qed.

(** C4.  Let the key columns exist, at least one of them: the named ones when
    a non-empty subset is given, every column of the table otherwise.  With
    [rs] the rows restricted to the key columns, the check
    counts the rows equal to a row before them: row [i] is counted exactly
    when some row [j < i] is equal to it, so the first occurrence of a key
    never is.  A count [k > 0] appends exactly one MEDIUM Duplicates finding
    carrying [k] and no pass; a count of 0 appends exactly one pass and no
    finding. *)
Theorem check_duplicates_spec env df df_name subset cols st :
  let d := frames st df in
  key_columns d subset = Ok cols ->
  cols <> [] ->
  let rs := rows_of (nrows d) cols in
  let k := repeat_count rs in
  k = List.length (filter (repeats_earlier rs) (seq 0 (nrows d))) /\
  (forall i, (i < nrows d)%nat ->
             repeats_earlier rs i = true
             <-> exists j, (j < i)%nat /\
                           row_eqb (nth i rs []) (nth j rs []) = true) /\
  repeats_earlier rs 0 = false /\
  ((0 < k)%nat ->
   emits (check_duplicates env df df_name subset) st
     [duplicates_finding env df_name k] []) /\
  (k = 0%nat ->
   emits (check_duplicates env df df_name subset) st
     [] ["No duplicates in " +++ df_name]).
Proof.
  intros d Hkey Hcols rs k.
  split; [unfold k, repeat_count, rs; rewrite length_rows_of; reflexivity|].
  split.
  { intros i Hi. apply repeats_earlier_iff. unfold rs.
    rewrite length_rows_of. exact Hi. }
  split; [reflexivity|].
  destruct (duplicated_key_columns d subset cols Hkey Hcols)
    as (marks & Hm & Hsum).
  fold rs in Hsum. fold k in Hsum.
  assert (Hrun : forall fs ps,
             emits (if (0 <? k)%nat
                    then add_issue env MEDIUM Duplicates
                           (df_name +++ ": Found " +++ show_nat k +++
                            " duplicate records") (Some (DCount k))
                    else add_pass ("No duplicates in " +++ df_name))
                   st fs ps ->
             emits (check_duplicates env df df_name subset) st fs ps).
  { intros fs ps H. unfold check_duplicates. apply emits_get_frame. fold d.
    rewrite Hm. unfold lift, bind at 1. rewrite Hsum. exact H. }
  split.
  - intros Hk. apply Hrun. apply Nat.ltb_lt in Hk. rewrite Hk.
    apply emits_add_issue.
  - intros Hk. apply Hrun. rewrite Hk. apply emits_add_pass.
Qed.

Lemma check_duplicates_spec_witness :
  key_columns frame_pairs (Some ["c1"; "c2"])
  = Ok [mkSeries Numeric [Num 1; Num 1; Num 2];
        mkSeries Object [Str "A"; Str "A"; Str "B"]] /\
  [mkSeries Numeric [Num 1; Num 1; Num 2];
   mkSeries Object [Str "A"; Str "A"; Str "B"]] <> [] /\
  emits (check_duplicates env_ex occupancy_df "occupancy_data"
           (Some ["c1"; "c2"]))
        (state_of frame_pairs)
        [duplicates_finding env_ex "occupancy_data" 1] [].
Proof.
  assert (Hcols : [mkSeries Numeric [Num 1; Num 1; Num 2];
                   mkSeries Object [Str "A"; Str "A"; Str "B"]] <> [])
    by discriminate.
  split; [reflexivity|]. split; [exact Hcols|].
  destruct (check_duplicates_spec env_ex occupancy_df "occupancy_data"
              (Some ["c1"; "c2"])
              [mkSeries Numeric [Num 1; Num 1; Num 2];
               mkSeries Object [Str "A"; Str "A"; Str "B"]]
              (state_of frame_pairs) eq_refl Hcols)
    as (_ & _ & _ & Hpos & _).
  apply Hpos. vm_compute. lia.
Defined.

(** ** Binary64 *)

Lemma shr_1_nonneg (mrs : SpecFloat.shr_record) :
  (0 <= SpecFloat.shr_m mrs)%Z ->
  (0 <= SpecFloat.shr_m (SpecFloat.shr_1 mrs))%Z.
Proof.
  destruct mrs as [m r s]. cbn [SpecFloat.shr_m]. intros H.
  destruct m as [|p|p]; [cbn; lia | | lia].
  destruct p; cbn; lia.
Qed.

Lemma iter_pos_invariant {A : Type} (P : A -> Prop) (f : A -> A) :
  (forall x, P x -> P (f x)) ->
  forall p x, P x -> P (SpecFloat.iter_pos f p x).
Proof.
  intros Hf. induction p as [p IH|p IH|]; intros x Hx; cbn.
  - apply IH, IH, Hf, Hx.
  - apply IH, IH, Hx.
  - apply Hf, Hx.
Qed.

Lemma shr_fexp_nonneg (m e : Z) (l : SpecFloat.location) :
  (0 <= m)%Z ->
  (0 <= SpecFloat.shr_m
          (fst (SpecFloat.shr_fexp Float64.prec Float64.emax m e l)))%Z.
Proof.
  intros Hm. unfold SpecFloat.shr_fexp, SpecFloat.shr.
  assert (H0 : (0 <= SpecFloat.shr_m (SpecFloat.shr_record_of_loc m l))%Z).
  { destruct l as [|[ | | ]]; exact Hm. }
  destruct (_ - e)%Z; cbn [fst]; try exact H0.
  apply (iter_pos_invariant (fun r => (0 <= SpecFloat.shr_m r)%Z));
    [exact shr_1_nonneg | exact H0].
Qed.

Lemma round_nearest_even_nonneg (m : Z) (l : SpecFloat.location) :
  (0 <= m)%Z -> (0 <= SpecFloat.round_nearest_even m l)%Z.
Proof.
  intros Hm. unfold SpecFloat.round_nearest_even.
  destruct l as [|[ | | ]]; try lia. destruct (Z.even m); lia.
Qed.

Lemma binary_round_aux_not_nan (s : bool) (m e : Z) (l : SpecFloat.location) :
  (0 <= m)%Z ->
  SpecFloat.binary_round_aux Float64.prec Float64.emax s m e l
  <> SpecFloat.S754_nan.
Proof.
  intros Hm. unfold SpecFloat.binary_round_aux.
  pose proof (shr_fexp_nonneg m e l Hm) as H1.
  destruct (SpecFloat.shr_fexp Float64.prec Float64.emax m e l)
    as [mrs' e'].
  cbn [fst] in H1.
  pose proof (shr_fexp_nonneg _ e' SpecFloat.loc_Exact
                (round_nearest_even_nonneg _
                   (SpecFloat.loc_of_shr_record mrs') H1)) as H2.
  destruct (SpecFloat.shr_fexp Float64.prec Float64.emax _ e'
              SpecFloat.loc_Exact) as [mrs'' e''].
  cbn [fst] in H2.
  destruct (SpecFloat.shr_m mrs'') as [|p|p]; [discriminate | | lia].
  destruct (e'' <=? _)%Z; discriminate.
Qed.

Lemma round_plain (s : bool) (n d : positive) : plain (Float64.round s n d).
Proof.
  unfold Float64.round, SpecFloat.SFdiv_core_binary.
  set (m' := match _ with Zpos _ => _ | Z0 => _ | Zneg _ => _ end).
  assert (Hm' : (0 <= m')%Z).
  { unfold m'. destruct (_ - _)%Z; try lia. apply Z.shiftl_nonneg. lia. }
  pose proof (Z_div_mod m' (Zpos d) ltac:(lia)) as Hdm.
  destruct (Z.div_eucl m' (Zpos d)) as [q r].
  assert (Hq : (0 <= q)%Z) by nia.
  pose proof (binary_round_aux_not_nan s q
                (Z.min (SpecFloat.fexp Float64.prec Float64.emax
                          (SpecFloat.Zdigits2 (Zpos n) + 0
                           - (SpecFloat.Zdigits2 (Zpos d) + 0))) (0 - 0))
                (SpecFloat.new_location (Zpos d) r) Hq) as Hn.
  destruct (SpecFloat.binary_round_aux _ _ _ _ _ _);
    split; try discriminate; try (exfalso; apply Hn; reflexivity).
Qed.

Lemma of_Q_plain (q : Q) : plain (Float64.of_Q q).
Proof.
  unfold Float64.of_Q. destruct (Qnum (Qred q)).
  - split; discriminate.
  - apply round_plain.
  - apply round_plain.
Qed.

Lemma of_Q_comp (p q : Q) : (p == q)%Q -> Float64.of_Q p = Float64.of_Q q.
Proof.
  intros H. unfold Float64.of_Q. rewrite (Qred_complete p q H). reflexivity.
Qed.

Ltac order_cases :=
  repeat match goal with
         | |- context [Z.compare ?a ?b] => destruct (Z.compare_spec a b)
         | |- context [Pos.compare_cont Eq ?a ?b] =>
             change (Pos.compare_cont Eq a b) with (Pos.compare a b);
             destruct (Pos.compare_spec a b)
         end;
  cbn; intros; subst; try discriminate; try reflexivity; try lia.

Lemma float64_leb_refl (x : float64) : x <> Float64.nan -> Float64.leb x x = true.
Proof.
  unfold Float64.leb, SpecFloat.SFleb, SpecFloat.SFcompare, Float64.nan.
  destruct x as [[]|[]| |[] m e]; intros H; try reflexivity;
    try (exfalso; apply H; reflexivity); order_cases.
Qed.

Lemma float64_ltb_irrefl (x : float64) : Float64.ltb x x = false.
Proof.
  unfold Float64.ltb, SpecFloat.SFltb, SpecFloat.SFcompare.
  destruct x as [[]|[]| |[] m e]; try reflexivity; order_cases.
Qed.

Lemma float64_leb_total (x y : float64) :
  x <> Float64.nan -> y <> Float64.nan ->
  Float64.leb x y = false -> Float64.leb y x = true.
Proof.
  unfold Float64.leb, SpecFloat.SFleb, SpecFloat.SFcompare, Float64.nan.
  destruct x as [[]|[]| |[] mx ex], y as [[]|[]| |[] my ey];
    intros Hx Hy; try reflexivity; try discriminate;
    try (exfalso; apply Hx; reflexivity);
    try (exfalso; apply Hy; reflexivity); order_cases.
Qed.

Lemma float64_leb_trans (x y z : float64) :
  Float64.leb x y = true -> Float64.leb y z = true -> Float64.leb x z = true.
Proof.
  unfold Float64.leb, SpecFloat.SFleb, SpecFloat.SFcompare.
  destruct x as [[]|[]| |[] mx ex], y as [[]|[]| |[] my ey],
           z as [[]|[]| |[] mz ez];
    try reflexivity; try discriminate; order_cases.
Qed.

Lemma float64_leb_antisym (x y : float64) :
  plain x -> plain y ->
  Float64.leb x y = true -> Float64.leb y x = true -> x = y.
Proof.
  unfold plain, Float64.leb, SpecFloat.SFleb, SpecFloat.SFcompare,
    Float64.nan.
  destruct x as [[]|[]| |[] mx ex], y as [[]|[]| |[] my ey];
    intros [Hx Hx'] [Hy Hy']; try reflexivity; try discriminate;
    try (exfalso; apply Hx'; reflexivity);
    try (exfalso; apply Hy'; reflexivity); order_cases.
Qed.

(** ** Quartiles *)

Lemma insert_sorted_perm (x : float64) (l : list float64) :
  Permutation (insert_sorted x l) (x :: l).
Proof.
  induction l as [|y l IH]; cbn; [reflexivity|].
  destruct (Float64.leb x y); [reflexivity|].
  rewrite IH. apply perm_swap.
Qed.

Lemma sort_values_perm (l : list float64) : Permutation (sort_values l) l.
Proof.
  induction l as [|x l IH]; cbn; [reflexivity|].
  rewrite insert_sorted_perm. constructor. exact IH.
Qed.

Lemma length_sort_values (l : list float64) :
  List.length (sort_values l) = List.length l.
Proof. apply Permutation_length, sort_values_perm. Qed.

Lemma insert_sorted_ascending (x : float64) (l : list float64) :
  x <> Float64.nan -> Forall (fun y => y <> Float64.nan) l ->
  ascending l -> ascending (insert_sorted x l).
Proof.
  intros Hx Hl Hs. induction Hs as [|y l Hs IH Hy]; cbn.
  - constructor; constructor.
  - inversion Hl as [|? ? Hyn Hln]; subst.
    destruct (Float64.leb x y) eqn:E.
    + constructor; [constructor; assumption|].
      constructor; [exact E|].
      apply Forall_forall. intros z Hz.
      apply (float64_leb_trans x y z E). rewrite Forall_forall in Hy. exact (Hy z Hz).
    + constructor; [exact (IH Hln)|].
      apply Forall_forall. intros z Hz.
      apply (Permutation_in z (insert_sorted_perm x l)) in Hz.
      destruct Hz as [<- | Hz].
      * exact (float64_leb_total x y Hx Hyn E).
      * rewrite Forall_forall in Hy. exact (Hy z Hz).
Qed.

Lemma sort_values_ascending (l : list float64) :
  Forall (fun y => y <> Float64.nan) l -> ascending (sort_values l).
Proof.
  induction l as [|x l IH]; cbn; intros H; [constructor|].
  inversion H as [|? ? Hx Hl]; subst.
  apply insert_sorted_ascending; [exact Hx | | exact (IH Hl)].
  apply Forall_forall. intros y Hy.
  apply (Permutation_in y (sort_values_perm l)) in Hy.
  rewrite Forall_forall in Hl. exact (Hl y Hy).
Qed.

(** Two ascending arrangements of the same numbers are the same list. *)
Lemma ascending_unique (l1 l2 : list float64) :
  Forall plain l1 -> ascending l1 -> ascending l2 -> Permutation l1 l2 ->
  l1 = l2.
Proof.
  revert l2. induction l1 as [|a l1 IH]; intros l2 Hp H1 H2 HP.
  - apply Permutation_nil in HP. subst. reflexivity.
  - destruct l2 as [|b l2].
    { apply Permutation_sym, Permutation_nil in HP. discriminate. }
    inversion Hp as [|? ? Ha Hp1]; subst.
    inversion H1 as [|? ? Hs1 Hf1]; subst.
    inversion H2 as [|? ? Hs2 Hf2]; subst.
    rewrite Forall_forall in Hf1, Hf2.
    assert (Hb : plain b).
    { assert (In b (a :: l1))
        by (apply (Permutation_in b (Permutation_sym HP)); left; reflexivity).
      rewrite Forall_forall in Hp. apply Hp. assumption. }
    assert (Hab : Float64.leb a b = true).
    { assert (Hin : In b (a :: l1))
        by (apply (Permutation_in b (Permutation_sym HP)); left; reflexivity).
      destruct Hin as [<- | Hin]; [apply float64_leb_refl, Ha | exact (Hf1 b Hin)]. }
    assert (Hba : Float64.leb b a = true).
    { assert (Hin : In a (b :: l2))
        by (apply (Permutation_in a HP); left; reflexivity).
      destruct Hin as [<- | Hin]; [apply float64_leb_refl, Hb | exact (Hf2 a Hin)]. }
    assert (a = b) by exact (float64_leb_antisym a b Ha Hb Hab Hba). subst b.
    f_equal. apply IH; try assumption.
    exact (Permutation_cons_inv HP).
Qed.

Lemma float64_values_plain (s : Series) : Forall plain (float64_values s).
Proof.
  unfold float64_values. apply Forall_forall. intros x Hx.
  apply in_map_iff in Hx. destruct Hx as (q & <- & _). apply of_Q_plain.
Qed.

(** The sample of a column is the list of its numbers read in binary64. *)
Lemma column_sample_iff (s : Series) (xs : list float64) :
  column_sample (values s) xs <-> xs = float64_values s.
Proof.
  unfold float64_values, numbers. split.
  - induction 1 as [|q cells xs _ IH|c cells xs Hc _ IH]; cbn.
    + reflexivity.
    + rewrite IH. reflexivity.
    + destruct c; try exact IH. exfalso. exact (Hc q eq_refl).
  - intros ->. induction (values s) as [|c cells IH]; cbn; [constructor|].
    destruct c; cbn; try (apply sample_skip; [discriminate | exact IH]).
    apply sample_number. exact IH.
Qed.

(** The sorted sample is the one ascending arrangement of the sample. *)
Lemma sort_values_unique (s : Series) (sorted : list float64) :
  Permutation sorted (float64_values s) -> ascending sorted ->
  sorted = sort_values (float64_values s).
Proof.
  intros HP Hs. symmetry. apply ascending_unique.
  - apply Forall_forall. intros x Hx.
    apply (Permutation_in x (sort_values_perm _)) in Hx.
    pose proof (float64_values_plain s) as H. rewrite Forall_forall in H.
    exact (H x Hx).
  - apply sort_values_ascending.
    pose proof (float64_values_plain s) as H.
    apply Forall_forall. intros x Hx. rewrite Forall_forall in H.
    exact (proj1 (H x Hx)).
  - exact Hs.
  - rewrite sort_values_perm. symmetry. exact HP.
Qed.

(** A series without numbers has no quartiles. *)
Lemma quantile_no_numbers (s : Series) (p : Q) :
  float64_values s = [] -> quantile s p = Float64.nan.
Proof. unfold quantile. intros ->. reflexivity. Qed.

(** [quantile] interpolates between the two nearest ranks of the sorted
    sample. *)
Lemma quantile_interpolates (s : Series) (a : Z) (b : positive) :
  (0 <= a <= Zpos b)%Z -> float64_values s <> [] ->
  interpolates (sort_values (float64_values s)) a b (quantile s (a # b)).
Proof.
  intros Hab Hne. unfold quantile, interpolates.
  destruct (sort_values (float64_values s)) as [|x0 xs] eqn:E.
  { exfalso. apply Hne. apply length_zero_iff_nil.
    rewrite <- length_sort_values, E. reflexivity. }
  cbv zeta.
  set (last := (List.length (x0 :: xs) - 1)%nat).
  set (h := (Z.of_nat last * a)%Z).
  assert (Hfloor : Qfloor (inject_Z (Z.of_nat last) * (a # b)) = (h / Zpos b)%Z)
    by reflexivity.
  rewrite Hfloor.
  assert (Hh : (0 <= h)%Z) by (unfold h; nia).
  assert (Hj : (0 <= h / Zpos b <= Z.of_nat last)%Z).
  { split; [apply Z.div_pos; lia|].
    apply Z.div_le_upper_bound; [lia|]. unfold h. nia. }
  assert (Hlast : (last < List.length (x0 :: xs))%nat)
    by (unfold last; cbn [List.length]; lia).
  pose proof (Z.div_mod h (Zpos b) ltac:(lia)) as Hdm.
  pose proof (Z.mod_pos_bound h (Zpos b) ltac:(lia)) as Hmod.
  exists (Z.to_nat (h / Zpos b)), (h mod Zpos b)%Z.
  exists (nth (Z.to_nat (h / Zpos b)) (x0 :: xs) x0).
  exists (nth (Nat.min (S (Z.to_nat (h / Zpos b))) last) (x0 :: xs) x0).
  split; [rewrite Z2Nat.id by lia; lia|].
  split; [exact Hmod|].
  split; [apply nth_error_nth'; lia|].
  split; [apply nth_error_nth'; lia|].
  assert (Hfrac : (inject_Z (Z.of_nat last) * (a # b) - inject_Z (h / Zpos b)
                   == (h mod Zpos b) # b)%Q).
  { unfold Qeq, Qminus, Qplus, Qopp, Qmult, inject_Z. cbn [Qnum Qden].
    fold h. rewrite !Pos2Z.inj_mul. nia. }
  unfold lerp. rewrite (of_Q_comp _ _ Hfrac). reflexivity.
Qed.

Lemma interpolates_unique (xs : list float64) (a : Z) (b : positive)
    (v v' : float64) :
  interpolates xs a b v -> interpolates xs a b v' -> v = v'.
Proof.
  intros (j & r & lo & hi & E & Hr & Hlo & Hhi & Hv)
         (j' & r' & lo' & hi' & E' & Hr' & Hlo' & Hhi' & Hv').
  assert (Hj : j = j') by nia. subst j'.
  assert (r = r') by lia. subst r'.
  rewrite Hlo in Hlo'. inversion Hlo'; subst lo'.
  rewrite Hhi in Hhi'. inversion Hhi'; subst hi'.
  cbv zeta in Hv, Hv'. rewrite Hv, Hv'. reflexivity.
Qed.

Lemma interpolates_nonempty (xs : list float64) (a : Z) (b : positive)
    (v : float64) :
  interpolates xs a b v -> xs <> [].
Proof.
  intros (j & r & lo & hi & _ & _ & Hlo & _) ->.
  destruct j; discriminate.
Qed.

Lemma ascendingb_ascending (xs : list float64) :
  ascendingb xs = true -> ascending xs.
Proof.
  induction xs as [|x l IH]; cbn; intros H; [constructor|].
  apply andb_true_iff in H. destruct H as [Hx Hl].
  constructor; [exact (IH Hl)|].
  apply Forall_forall. rewrite forallb_forall in Hx. exact Hx.
Qed.

(** ** The outlier check *)

Lemma above_5pct_iff (k n : nat) :
  (0 < n)%nat ->
  (5 * Z.of_nat n < 100 * Z.of_nat k)%Z <-> (inject_Z 5 < pct k n)%Q.
Proof.
  intros Hn. rewrite <- (gtb_pct k n 5 Hn), gtb_percent by lia.
  symmetry. apply Z.ltb_lt.
Qed.

Lemma mul_nan_r (x : float64) : Float64.mul x Float64.nan = Float64.nan.
Proof. destruct x; reflexivity. Qed.

Lemma ltb_nan_r (x : float64) : Float64.ltb x Float64.nan = false.
Proof. destruct x; reflexivity. Qed.

(** A column without numbers has no outliers. *)
Lemma outlier_count_no_numbers (s : Series) :
  float64_values s = [] -> outlier_count s = 0%nat.
Proof.
  intros H. unfold outlier_count.
  rewrite !(quantile_no_numbers s _ H).
  change (Float64.sub Float64.nan Float64.nan) with Float64.nan.
  rewrite mul_nan_r.
  apply length_zero_iff_nil, filter_nil_all.
  intros [ |q|t|t| ] _; try reflexivity.
  unfold strictly_outside.
  change (Float64.sub Float64.nan Float64.nan) with Float64.nan.
  change (Float64.add Float64.nan Float64.nan) with Float64.nan.
  rewrite ltb_nan_r. reflexivity.
Qed.

(** What the check appends for one listed numeric column. *)
Lemma check_outliers_numeric env df df_name col s st :
  let d := frames st df in
  loc (columns d) col = Some s -> dt s = Numeric ->
  emits (check_outliers env df df_name [col]) st
    (if above_5pct (outlier_count s) (nrows d)
     then [outlier_finding env df_name col (outlier_count s) (nrows d)]
     else [])
    (if above_5pct (outlier_count s) (nrows d)
     then []
     else [outlier_pass df_name col]).
Proof.
  intros d Hloc Hdt.
  assert (Hq : forall c s', In c [col] -> loc (columns d) c = Some s' ->
                            has_quantiles s' = true).
  { intros c s' [<-|[]] Hs'. rewrite Hloc in Hs'. inversion Hs'; subst s'.
    apply has_quantiles_not_boolean. rewrite Hdt. discriminate. }
  pose proof (check_outliers_emits env df df_name [col] st Hq) as H.
  cbv zeta in H. fold d in H. cbn [flat_map] in H.
  rewrite !app_nil_r in H.
  unfold outlier_findings, outlier_passes, is_numeric_column in H.
  rewrite Hloc in H. unfold is_numeric_dtype in H. rewrite Hdt in H.
  cbn [andb] in H.
  destruct (above_5pct (outlier_count s) (nrows d)); exact H.
Qed.

(** C6.  Take a listed column that is present with a numeric dtype, [n] the
    number of rows of the table.  If the column holds no number, the check
    appends exactly one pass and no finding.  Otherwise let [xs] be its
    numbers as the binary64 values the column holds, in any ascending
    arrangement [sorted], and let [Q1] and [Q3] be the values at the
    fractional ranks [(m - 1) / 4] and [3 (m - 1) / 4] of the [m] sorted
    numbers, interpolated linearly between the two nearest ranks in binary64.
    With [IQR = Q3 - Q1], the bounds [Q1 - 1.5 IQR] and [Q3 + 1.5 IQR]
    computed in binary64, and [k] the number of rows holding a number
    strictly below the first or strictly above the second, the check appends
    exactly one LOW Outliers finding carrying [k] and the percentage, and no
    pass, when [100 k > 5 n]; it appends exactly one pass, and no finding,
    when [100 k <= 5 n].  For [n > 0] the first condition says that
    [k / n * 100] is strictly above 5: a percentage of exactly 5 records a
    pass. *)
Theorem check_outliers_spec env df df_name col s st :
  let d := frames st df in
  let n := nrows d in
  loc (columns d) col = Some s -> dt s = Numeric ->
  (column_sample (values s) [] ->
   emits (check_outliers env df df_name [col]) st
     [] [outlier_pass df_name col]) /\
  (forall xs sorted Q1 Q3,
      column_sample (values s) xs ->
      Permutation sorted xs -> ascending sorted ->
      interpolates sorted 1 4 Q1 -> interpolates sorted 3 4 Q3 ->
      let IQR := Float64.sub Q3 Q1 in
      let lower_bound :=
        Float64.sub Q1 (Float64.mul (Float64.of_Q (3 # 2)) IQR) in
      let upper_bound :=
        Float64.add Q3 (Float64.mul (Float64.of_Q (3 # 2)) IQR) in
      let k :=
        List.length
          (filter (strictly_outside lower_bound upper_bound) (values s)) in
      ((5 * Z.of_nat n < 100 * Z.of_nat k)%Z ->
       emits (check_outliers env df df_name [col]) st
         [outlier_finding env df_name col k n] []) /\
      ((100 * Z.of_nat k <= 5 * Z.of_nat n)%Z ->
       emits (check_outliers env df df_name [col]) st
         [] [outlier_pass df_name col]) /\
      ((0 < n)%nat ->
       percent k n = Fin (pct k n) /\
       ((5 * Z.of_nat n < 100 * Z.of_nat k)%Z
        <-> (inject_Z 5 < pct k n)%Q) /\
       ((pct k n == inject_Z 5)%Q ->
        (100 * Z.of_nat k <= 5 * Z.of_nat n)%Z))).
Proof.
  intros d n Hloc Hdt.
  pose proof (check_outliers_numeric env df df_name col s st Hloc Hdt) as H.
  cbv zeta in H. fold d in H. fold n in H.
  split.
  - intros Hnone. apply column_sample_iff in Hnone.
    rewrite (outlier_count_no_numbers s (eq_sym Hnone)) in H.
    assert (Hno : above_5pct 0 n = false)
      by (unfold above_5pct; apply Z.ltb_ge; lia).
    rewrite Hno in H. exact H.
  - intros xs sorted Q1 Q3 Hxs HP Hasc H1 H3 IQR lower_bound upper_bound k.
    apply column_sample_iff in Hxs. subst xs.
    pose proof (sort_values_unique s sorted HP Hasc) as Hsorted.
    assert (Hne : float64_values s <> []).
    { intros E. apply (interpolates_nonempty _ _ _ _ H1).
      rewrite Hsorted, E. reflexivity. }
    rewrite Hsorted in H1, H3.
    pose proof (interpolates_unique _ _ _ _ _ H1
                  (quantile_interpolates s 1 4 ltac:(lia) Hne)) as E1.
    pose proof (interpolates_unique _ _ _ _ _ H3
                  (quantile_interpolates s 3 4 ltac:(lia) Hne)) as E3.
    assert (Hk : outlier_count s = k).
    { unfold k, lower_bound, upper_bound, IQR. rewrite E1, E3. reflexivity. }
    rewrite Hk in H. unfold above_5pct in H.
    split; [|split].
    + intros Hgt. apply Z.ltb_lt in Hgt. rewrite Hgt in H. exact H.
    + intros Hle. apply Z.ltb_ge in Hle. rewrite Hle in H. exact H.
    + intros Hn. split; [apply percent_pos; exact Hn|].
      split; [apply above_5pct_iff; exact Hn|].
      intros Heq. apply Z.nlt_ge. intros Hlt.
      apply (above_5pct_iff k n Hn) in Hlt. rewrite Heq in Hlt.
      exact (Qlt_irrefl _ Hlt).
Qed.

(** Ninety-five values at 10 and five at 1000: both quartiles are 10, the
    five are the outliers, 5% of the rows, and the check records a pass. *)
Lemma check_outliers_spec_witness :
  loc (columns (frames (state_of frame_spikes) occupancy_df)) "occupancy_rate"
  = Some (mkSeries Numeric (repeat (Num 10) 95 ++ repeat (Num 1000) 5)) /\
  (let xs :=
     repeat (Float64.of_Q 10) 95 ++ repeat (Float64.of_Q 1000) 5 in
   column_sample (repeat (Num 10) 95 ++ repeat (Num 1000) 5) xs /\
   ascending xs /\
   interpolates xs 1 4 (Float64.of_Q 10) /\
   interpolates xs 3 4 (Float64.of_Q 10)) /\
  List.length
    (filter (strictly_outside (Float64.of_Q 10) (Float64.of_Q 10))
            (repeat (Num 10) 95 ++ repeat (Num 1000) 5)) = 5%nat /\
  emits (check_outliers env_ex occupancy_df "occupancy_data"
           ["occupancy_rate"])
        (state_of frame_spikes)
        [] ["occupancy_data.occupancy_rate outlier check"].
Proof.
  assert (Hs : column_sample (repeat (Num 10) 95 ++ repeat (Num 1000) 5)
                 (repeat (Float64.of_Q 10) 95
                  ++ repeat (Float64.of_Q 1000) 5)).
  { cbn [repeat app]. repeat apply sample_number. apply sample_nil. }
  assert (Ha : ascending (repeat (Float64.of_Q 10) 95
                          ++ repeat (Float64.of_Q 1000) 5)).
  { apply ascendingb_ascending. vm_compute. reflexivity. }
  assert (H1 : interpolates (repeat (Float64.of_Q 10) 95
                             ++ repeat (Float64.of_Q 1000) 5)
                 1 4 (Float64.of_Q 10)).
  { exists 24%nat, 3%Z, (Float64.of_Q 10), (Float64.of_Q 10).
    split; [reflexivity|]. split; [lia|].
    split; [reflexivity|]. split; [reflexivity|].
    vm_compute. reflexivity. }
  assert (H3 : interpolates (repeat (Float64.of_Q 10) 95
                             ++ repeat (Float64.of_Q 1000) 5)
                 3 4 (Float64.of_Q 10)).
  { exists 74%nat, 1%Z, (Float64.of_Q 10), (Float64.of_Q 10).
    split; [reflexivity|]. split; [lia|].
    split; [reflexivity|]. split; [reflexivity|].
    vm_compute. reflexivity. }
  split; [reflexivity|].
  split; [split; [exact Hs|]; split; [exact Ha|]; split; [exact H1|exact H3]|].
  split; [vm_compute; reflexivity|].
  destruct (check_outliers_spec env_ex occupancy_df "occupancy_data"
              "occupancy_rate"
              (mkSeries Numeric (repeat (Num 10) 95 ++ repeat (Num 1000) 5))
              (state_of frame_spikes) eq_refl eq_refl)
    as (_ & Hsome).
  destruct (Hsome _ _ (Float64.of_Q 10) (Float64.of_Q 10) Hs
              (Permutation_refl _) Ha H1 H3) as (_ & Hpass & _).
  apply Hpass. vm_compute. discriminate.
Defined.

(** Rates whose upper fence falls just below the highest of them once
    rounded: one outlier in four rows, and the finding. *)
Example check_outliers_decimals :
  emits (check_outliers env_ex occupancy_df "occupancy_data"
           ["occupancy_rate"])
        (state_of frame_decimals)
        [outlier_finding env_ex "occupancy_data" "occupancy_rate" 1 4] [].
Proof.
  pose proof (check_outliers_numeric env_ex occupancy_df "occupancy_data"
                "occupancy_rate"
                (mkSeries Numeric
                   [Num (8 # 10); Num (5 # 10); Num (17 # 10); Num (6 # 10)])
                (state_of frame_decimals) eq_refl eq_refl) as H.
  vm_compute in H. vm_compute. exact H.
Qed.

(** One more value at 1000 and the finding is logged. *)
Example check_outliers_six_spikes :
  emits (check_outliers env_ex occupancy_df "occupancy_data"
           ["occupancy_rate"])
        (state_of frame_more_spikes)
        [outlier_finding env_ex "occupancy_data" "occupancy_rate" 6 100] [].
Proof.
  assert (Hq : forall col s, In col ["occupancy_rate"] ->
                 loc (columns (frames (state_of frame_more_spikes)
                                      occupancy_df)) col = Some s ->
                 has_quantiles s = true).
  { intros col s [<-|[]] Hl. cbn in Hl. inversion Hl. reflexivity. }
  pose proof (check_outliers_emits env_ex occupancy_df "occupancy_data"
                ["occupancy_rate"] (state_of frame_more_spikes) Hq) as H.
  clear Hq. vm_compute in H. vm_compute. exact H.
Qed.

(** ** Freshness *)

Lemma ref_eqb_refl (r : ref) : ref_eqb r r = true.
Proof. destruct r; reflexivity. Qed.

Lemma ref_eqb_eq (a b : ref) : ref_eqb a b = true <-> a = b.
Proof. destruct a, b; cbn; split; congruence. Qed.

Lemma loc_set_loc {A : Type} (l : list (string * A)) (col : string)
    (v w : A) :
  loc l col = Some w -> loc (set_loc l col v) col = Some v.
Proof.
  induction l as [|[k x] l IH]; cbn; [discriminate|].
  destruct (String.eqb col k) eqn:E; cbn; rewrite E; [reflexivity|].
  exact IH.
Qed.

Lemma loc_set_loc_other {A : Type} (l : list (string * A))
    (col c : string) (v : A) :
  String.eqb c col = false -> loc (set_loc l col v) c = loc l c.
Proof.
  intros Hne. induction l as [|[k x] l IH]; cbn; [reflexivity|].
  destruct (String.eqb_spec col k) as [->|_]; cbn.
  - rewrite Hne. reflexivity.
  - destruct (String.eqb c k); [reflexivity | exact IH].
Qed.

Lemma labels_set_loc {A : Type} (l : list (string * A)) (col : string)
    (v : A) :
  map fst (set_loc l col v) = map fst l.
Proof.
  induction l as [|[k x] l IH]; cbn; [reflexivity|].
  destruct (String.eqb col k); cbn; [reflexivity|].
  rewrite IH. reflexivity.
Qed.

Lemma series_max_spec (l : list cell) :
  match series_max l with
  | Some t => In (Date t) l /\ forall u, In (Date u) l -> (u <= t)%Z
  | None => forall u, ~ In (Date u) l
  end.
Proof.
  induction l as [|c l IH]; cbn; [intros u []|].
  destruct c as [ |q|s|t| ];
    try (destruct (series_max l) as [m|];
         [ destruct IH as [H1 H2]; split;
           [right; exact H1 | intros u [E|H]; [discriminate | exact (H2 u H)]]
         | intros u [E|H]; [discriminate | exact (IH u H)] ]).
  destruct (series_max l) as [m|].
  - destruct IH as [H1 H2]. split.
    + destruct (Z.max_spec t m) as [[_ ->]|[_ ->]];
        [right; exact H1 | left; reflexivity].
    + intros u [E|H]; [inversion E; lia|].
      specialize (H2 u H). lia.
  - split; [left; reflexivity|].
    intros u [E|H]; [inversion E; lia | exfalso; exact (IH u H)].
Qed.

Lemma In_datetime_series (ts : list (option Z)) (t : Z) :
  In (Date t) (values (datetime_series ts)) <-> In (Some t) ts.
Proof.
  unfold datetime_series. cbn [values]. rewrite in_map_iff. split.
  - intros ([u|] & E & H); [|discriminate]. inversion E; subst. exact H.
  - intros H. exists (Some t). split; [reflexivity | exact H].
Qed.

(** The latest date is one of the dates and no date is later; there is none
    exactly when every position is [NaT]. *)
Lemma latest_of_spec (ts : list (option Z)) :
  match latest_of ts with
  | Some t => In (Some t) ts /\ forall u, In (Some u) ts -> (u <= t)%Z
  | None => forall u, ~ In (Some u) ts
  end.
Proof.
  unfold latest_of.
  pose proof (series_max_spec (values (datetime_series ts))) as H.
  destruct (series_max (values (datetime_series ts))) as [t|].
  - destruct H as [H1 H2]. split; [apply In_datetime_series, H1|].
    intros u Hu. apply H2, In_datetime_series, Hu.
  - intros u Hu. apply (H u), In_datetime_series, Hu.
Qed.

(** The three ways through [check_data_freshness]. *)
Lemma check_data_freshness_absent env df df_name date_column max_age_days st :
  loc (columns (frames st df)) date_column = None ->
  check_data_freshness env df df_name date_column max_age_days st
  = (Ok tt, st).
Proof.
  intros H. unfold check_data_freshness, get_frame, bind at 1.
  rewrite H. reflexivity.
Qed.

Lemma check_data_freshness_unparsed env df df_name date_column max_age_days
    s e st :
  loc (columns (frames st df)) date_column = Some s ->
  to_datetime env s = Raise e ->
  check_data_freshness env df df_name date_column max_age_days st
  = add_issue env MEDIUM DateParsing
      (df_name +++ ": Error parsing date column '" +++ date_column +++ "': "
       +++ str_exn e) None st.
Proof.
  intros H He. unfold check_data_freshness, get_frame, bind at 1.
  rewrite H. unfold try_except, bind at 1, lift. rewrite He. reflexivity.
Qed.

Lemma check_data_freshness_parsed env df df_name date_column max_age_days
    s ts st :
  loc (columns (frames st df)) date_column = Some s ->
  to_datetime env s = Ok ts ->
  check_data_freshness env df df_name date_column max_age_days st
  = match naive_minus (now env) (tz_aware env s) (latest_of ts) with
    | Ok age_days =>
        (if older_than age_days max_age_days
         then add_issue env HIGH DataFreshness
                (df_name +++ ": Latest data is " +++ show_age age_days +++
                 " days old (threshold: " +++ show_Z max_age_days +++
                 " days)")
                (Some (DFreshness (str_timestamp env (latest_of ts))
                         age_days))
         else add_pass (df_name +++ " freshness check"))
          (with_column st df date_column (datetime_series ts))
    | Raise e =>
        add_issue env MEDIUM DateParsing
          (df_name +++ ": Error parsing date column '" +++ date_column
           +++ "': " +++ str_exn e)
          None (with_column st df date_column (datetime_series ts))
    end.
Proof.
  intros H He. unfold check_data_freshness, get_frame, bind at 1.
  rewrite H. unfold try_except, bind at 1, lift. rewrite He.
  unfold bind at 1, set_frame. unfold bind at 1.
  cbn [frames]. rewrite ref_eqb_refl. unfold set_column at 1. cbn [columns].
  rewrite (loc_set_loc _ _ _ _ H).
  fold (set_column (frames st df) date_column (datetime_series ts)).
  change (mkState _ (checker st))
    with (with_column st df date_column (datetime_series ts)).
  fold (latest_of ts). unfold bind at 1.
  destruct (naive_minus (now env) (tz_aware env s) (latest_of ts))
    as [age_days|e]; [|reflexivity].
  destruct (older_than age_days max_age_days); reflexivity.
Qed.

(** Dates without a time zone, or no date at all: the age is taken. *)
Lemma check_data_freshness_parsed_naive env df df_name date_column
    max_age_days s ts st :
  loc (columns (frames st df)) date_column = Some s ->
  to_datetime env s = Ok ts ->
  tz_aware env s = false \/ latest_of ts = None ->
  check_data_freshness env df df_name date_column max_age_days st
  = (if older_than (days_between (now env) (latest_of ts)) max_age_days
     then add_issue env HIGH DataFreshness
            (message (freshness_finding env df_name max_age_days
                        (latest_of ts)))
            (details (freshness_finding env df_name max_age_days
                        (latest_of ts)))
     else add_pass (df_name +++ " freshness check"))
      (with_column st df date_column (datetime_series ts)).
Proof.
  intros H He Htz.
  rewrite (check_data_freshness_parsed _ _ _ _ _ s ts st H He).
  assert (E : naive_minus (now env) (tz_aware env s) (latest_of ts)
              = Ok (days_between (now env) (latest_of ts))).
  { unfold naive_minus. destruct Htz as [-> | ->]; [|reflexivity].
    destruct (latest_of ts); reflexivity. }
  rewrite E. reflexivity.
Qed.

(** Dates with a time zone: the subtraction from the naive current time
    raises inside the [try], after the column was replaced. *)
Lemma check_data_freshness_parsed_aware env df df_name date_column
    max_age_days s ts t st :
  loc (columns (frames st df)) date_column = Some s ->
  to_datetime env s = Ok ts ->
  tz_aware env s = true -> latest_of ts = Some t ->
  exists e,
    check_data_freshness env df df_name date_column max_age_days st
    = add_issue env MEDIUM DateParsing
        (df_name +++ ": Error parsing date column '" +++ date_column
         +++ "': " +++ str_exn e)
        None (with_column st df date_column (datetime_series ts)).
Proof.
  intros H He Htz Hl.
  rewrite (check_data_freshness_parsed _ _ _ _ _ s ts st H He).
  unfold naive_minus. rewrite Htz, Hl. eexists. reflexivity.
Qed.

Lemma days_between_whole (t_now t : Z) :
  exists a, days_between t_now (Some t) = Some a /\
            (a * ns_per_day <= t_now - t < (a + 1) * ns_per_day)%Z.
Proof.
  exists ((t_now - t) / ns_per_day)%Z. split; [reflexivity|].
  assert (Hpos : (0 < ns_per_day)%Z) by reflexivity.
  pose proof (Z.div_mod (t_now - t) ns_per_day ltac:(lia)) as Hdm.
  pose proof (Z.mod_pos_bound (t_now - t) ns_per_day Hpos) as Hb.
  lia.
Qed.

Lemma whole_days_unique (d a b : Z) :
  (a * ns_per_day <= d < (a + 1) * ns_per_day)%Z ->
  (b * ns_per_day <= d < (b + 1) * ns_per_day)%Z -> a = b.
Proof.
  assert (Hpos : (0 < ns_per_day)%Z) by reflexivity.
  intros Ha Hb. nia.
Qed.

(** The latest date is the one that is among the dates and below none. *)
Lemma latest_of_max (ts : list (option Z)) (t : Z) :
  In (Some t) ts -> (forall u, In (Some u) ts -> (u <= t)%Z) ->
  latest_of ts = Some t.
Proof.
  intros HIn Hmax. pose proof (latest_of_spec ts) as H.
  destruct (latest_of ts) as [m|].
  - destruct H as [H1 H2]. f_equal.
    pose proof (Hmax m H1). pose proof (H2 t HIn). lia.
  - exfalso. exact (H t HIn).
Qed.

Lemma latest_of_none (ts : list (option Z)) :
  (forall u, ~ In (Some u) ts) -> latest_of ts = None.
Proof.
  intros Hno. pose proof (latest_of_spec ts) as H.
  destruct (latest_of ts) as [m|]; [|reflexivity].
  exfalso. exact (Hno m (proj1 H)).
Qed.

(** C7, as stated, fails when the coercion succeeds with dates that carry a
    time zone: the column is coerced and has a latest date, yet the check
    appends neither a HIGH finding nor a pass but one MEDIUM Date Parsing
    finding, the subtraction from the current time having raised inside the
    same [try]. *)
Lemma aware_dates_counterexample :
  exists s ts st' e,
    loc (columns (frames (state_of frame_old_dates) occupancy_df)) "date"
    = Some s /\
    to_datetime env_tz s = Ok ts /\
    In (Some (8 * ns_per_day)%Z) ts /\
    check_data_freshness env_tz occupancy_df "occupancy_data" "date" 7
      (state_of frame_old_dates)
    = (Ok tt, st') /\
    appends (state_of frame_old_dates) st'
      [date_parsing_finding env_tz "occupancy_data" "date" e] [] /\
    severity (date_parsing_finding env_tz "occupancy_data" "date" e)
    = MEDIUM.
Proof.
  eexists. exists [Some ns_per_day; None; Some (8 * ns_per_day)%Z].
  eexists.
  exists (TypeError
            "Cannot subtract tz-naive and tz-aware datetime-like objects.").
  split; [reflexivity|]. split; [reflexivity|].
  split; [right; right; left; reflexivity|].
  split; [vm_compute; reflexivity|].
  split; [split; vm_compute; reflexivity | reflexivity].
Qed.

(** C7, amended.  When the designated date column is present the freshness
    check always returns normally, so whatever check follows it runs.  If the
    column cannot be coerced to dates, the check appends exactly one MEDIUM
    Date Parsing finding and no pass, and leaves the table as it was.  If
    the coercion succeeds and gives no date at all, exactly one pass is
    appended.  If it gives dates, let [t] be the latest of them (one of the
    dates, and no date is later).  When the dates carry a time zone, the
    check appends exactly one MEDIUM Date Parsing finding and no pass.  When
    they carry none, with [age] the whole days (rounded down) from [t] to
    now: an age above [max_age_days] appends exactly one HIGH Data Freshness
    finding carrying [t] and the age, and no pass; otherwise exactly one pass
    and no finding is appended. *)
Theorem check_data_freshness_spec env df df_name date_column max_age_days
    s st :
  loc (columns (frames st df)) date_column = Some s ->
  (exists st',
      check_data_freshness env df df_name date_column max_age_days st
      = (Ok tt, st') /\
      forall (B : Type) (k : M B),
        (check_data_freshness env df df_name date_column max_age_days ;;; k)
          st = k st') /\
  (forall e,
      to_datetime env s = Raise e ->
      emits (check_data_freshness env df df_name date_column max_age_days) st
        [date_parsing_finding env df_name date_column e] []) /\
  (forall ts,
      to_datetime env s = Ok ts ->
      exists st',
        check_data_freshness env df df_name date_column max_age_days st
        = (Ok tt, st') /\
        ((forall u, ~ In (Some u) ts) ->
         appends st st' [] [df_name +++ " freshness check"]) /\
        (forall t,
            In (Some t) ts -> (forall u, In (Some u) ts -> (u <= t)%Z) ->
            (tz_aware env s = true ->
             exists e,
               appends st st'
                 [date_parsing_finding env df_name date_column e] []) /\
            (tz_aware env s = false ->
             forall age,
               (age * ns_per_day <= now env - t < (age + 1) * ns_per_day)%Z ->
               ((max_age_days < age)%Z ->
                appends st st'
                  [stale_finding env df_name max_age_days t age] []) /\
               ((age <= max_age_days)%Z ->
                appends st st' [] [df_name +++ " freshness check"])))).
Proof.
  intros Hloc.
  assert (Hfail : forall e,
             to_datetime env s = Raise e ->
             emits (check_data_freshness env df df_name date_column
                      max_age_days) st
               [date_parsing_finding env df_name date_column e] []).
  { intros e He. unfold emits.
    rewrite (check_data_freshness_unparsed _ _ _ _ _ s e st Hloc He).
    apply emits_add_issue. }
  assert (Hret : forall ts,
             to_datetime env s = Ok ts ->
             exists st',
               check_data_freshness env df df_name date_column max_age_days st
               = (Ok tt, st')).
  { intros ts Hts.
    rewrite (check_data_freshness_parsed _ _ _ _ _ s ts st Hloc Hts).
    destruct (naive_minus _ _ _) as [a|e]; [|eexists; reflexivity].
    destruct (older_than a max_age_days); eexists; reflexivity. }
  split; [|split; [exact Hfail|]].
  - destruct (to_datetime env s) as [ts|e] eqn:E.
    + destruct (Hret ts eq_refl) as (st' & H). exists st'.
      split; [exact H|]. intros B k. unfold bind. rewrite H. reflexivity.
    + destruct (Hfail e eq_refl) as (st' & H & _). exists st'.
      split; [exact H|]. intros B k. unfold bind. rewrite H. reflexivity.
  - intros ts Hts. destruct (Hret ts Hts) as (st' & Hst'). exists st'.
    split; [exact Hst'|]. split.
    + intros Hno.
      rewrite (check_data_freshness_parsed_naive _ _ _ _ _ s ts st Hloc Hts
                 (or_intror (latest_of_none ts Hno))) in Hst'.
      rewrite (latest_of_none ts Hno) in Hst'.
      cbn [days_between older_than] in Hst'. inversion Hst'; subst st'.
      unfold appends. cbn. rewrite app_nil_r. split; reflexivity.
    + intros t HIn Hmax. pose proof (latest_of_max ts t HIn Hmax) as Hl.
      split.
      * intros Htz.
        destruct (check_data_freshness_parsed_aware env df df_name
                    date_column max_age_days s ts t st Hloc Hts Htz Hl)
          as (e & He).
        exists e. rewrite He in Hst'. inversion Hst'; subst st'.
        unfold appends. cbn. rewrite app_nil_r. split; reflexivity.
      * intros Htz age Hage.
        rewrite (check_data_freshness_parsed_naive _ _ _ _ _ s ts st Hloc Hts
                   (or_introl Htz)) in Hst'.
        rewrite Hl in Hst'.
        destruct (days_between_whole (now env) t) as (a & Ha & Hb).
        assert (a = age) by exact (whole_days_unique _ _ _ Hb Hage).
        subst a. unfold older_than in Hst'. rewrite Ha in Hst'.
        unfold freshness_finding in Hst'. rewrite Ha in Hst'.
        cbn [message details show_age] in Hst'.
        split; intros Hcmp.
        -- apply Z.ltb_lt in Hcmp. rewrite Hcmp in Hst'.
           inversion Hst'; subst st'.
           unfold appends. cbn. rewrite app_nil_r. split; reflexivity.
        -- apply Z.ltb_ge in Hcmp. rewrite Hcmp in Hst'.
           inversion Hst'; subst st'.
           unfold appends. cbn. rewrite app_nil_r. split; reflexivity.
Qed.

(** A column the parser refuses: the Date Parsing finding.  Dates without a
    time zone of which the latest is twelve days old against a limit of
    seven: the HIGH finding. *)
Lemma check_data_freshness_spec_witness :
  (loc (columns (frames (state_of frame_bad_dates) occupancy_df)) "date"
   = Some (mkSeries Object [Str "2024-01-01"; Str "yesterday"]) /\
   emits (check_data_freshness env_ex occupancy_df "occupancy_data" "date" 7)
     (state_of frame_bad_dates)
     [date_parsing_finding env_ex "occupancy_data" "date"
        (ValueError "Unknown datetime string format")] []) /\
  (loc (columns (frames (state_of frame_old_dates) occupancy_df)) "date"
   = Some (mkSeries Numeric
             [Num (inject_Z ns_per_day); Null;
              Num (inject_Z (8 * ns_per_day))]) /\
   to_datetime env_ex
     (mkSeries Numeric
        [Num (inject_Z ns_per_day); Null; Num (inject_Z (8 * ns_per_day))])
   = Ok [Some ns_per_day; None; Some (8 * ns_per_day)%Z] /\
   (12 * ns_per_day <= now env_ex - 8 * ns_per_day < (12 + 1) * ns_per_day)%Z
   /\
   exists st',
     check_data_freshness env_ex occupancy_df "occupancy_data" "date" 7
       (state_of frame_old_dates)
     = (Ok tt, st') /\
     appends (state_of frame_old_dates) st'
       [stale_finding env_ex "occupancy_data" 7 (8 * ns_per_day) 12] []).
Proof.
  split.
  - split; [reflexivity|].
    destruct (check_data_freshness_spec env_ex occupancy_df "occupancy_data"
                "date" 7 (mkSeries Object [Str "2024-01-01"; Str "yesterday"])
                (state_of frame_bad_dates) eq_refl)
      as (_ & Hfail & _).
    apply Hfail. reflexivity.
  - split; [reflexivity|]. split; [reflexivity|].
    assert (Hage : (12 * ns_per_day <= now env_ex - 8 * ns_per_day
                    < (12 + 1) * ns_per_day)%Z)
      by (vm_compute; split; [discriminate | reflexivity]).
    split; [exact Hage|].
    destruct (check_data_freshness_spec env_ex occupancy_df "occupancy_data"
                "date" 7
                (mkSeries Numeric
                   [Num (inject_Z ns_per_day); Null;
                    Num (inject_Z (8 * ns_per_day))])
                (state_of frame_old_dates) eq_refl)
      as (_ & _ & Hok).
    destruct (Hok [Some ns_per_day; None; Some (8 * ns_per_day)%Z] eq_refl)
      as (st' & Hst' & _ & Hdates).
    exists st'. split; [exact Hst'|].
    assert (HIn : In (Some (8 * ns_per_day)%Z)
                     [Some ns_per_day; None; Some (8 * ns_per_day)%Z])
      by (right; right; left; reflexivity).
    assert (Hmax : forall u,
               In (Some u) [Some ns_per_day; None; Some (8 * ns_per_day)%Z] ->
               (u <= 8 * ns_per_day)%Z).
    { intros u [E | [E | [E | []]]]; inversion E; subst;
        vm_compute; discriminate. }
    destruct (Hdates (8 * ns_per_day)%Z HIn Hmax) as (_ & Hnaive).
    destruct (Hnaive eq_refl 12%Z Hage) as (Hhigh & _).
    apply Hhigh. reflexivity.
Defined.

(** Latest date twelve days old: a HIGH finding; two days old: a pass. *)
Example check_data_freshness_old :
  check_data_freshness env_ex occupancy_df "occupancy_data" "date" 7
    (state_of frame_old_dates)
  = (Ok tt,
     mkState
       (frames (with_column (state_of frame_old_dates) occupancy_df "date"
                  (datetime_series
                     [Some ns_per_day; None; Some (8 * ns_per_day)%Z])))
       (mkChecker
          [freshness_finding env_ex "occupancy_data" 7
             (Some (8 * ns_per_day)%Z)] [])) /\
  details (freshness_finding env_ex "occupancy_data" 7
             (Some (8 * ns_per_day)%Z))
  = Some (DFreshness "691200000000000" (Some 12%Z)).
Proof.
  split; [|vm_compute; reflexivity].
  rewrite (check_data_freshness_parsed_naive env_ex _ _ _ _
             (mkSeries Numeric
                [Num (inject_Z ns_per_day); Null;
                 Num (inject_Z (8 * ns_per_day))])
             [Some ns_per_day; None; Some (8 * ns_per_day)%Z]);
    try reflexivity.
  left; reflexivity.
Qed.

Example check_data_freshness_recent :
  snd (check_data_freshness env_ex occupancy_df "occupancy_data" "date" 7
         (state_of frame_recent_dates))
  = mkState
      (frames (with_column (state_of frame_recent_dates) occupancy_df "date"
                 (datetime_series
                    [Some (13 * ns_per_day)%Z; Some (18 * ns_per_day)%Z])))
      (mkChecker [] ["occupancy_data freshness check"]).
Proof.
  rewrite (check_data_freshness_parsed_naive env_ex _ _ _ _
             (mkSeries Numeric
                [Num (inject_Z (13 * ns_per_day));
                 Num (inject_Z (18 * ns_per_day))])
             [Some (13 * ns_per_day)%Z; Some (18 * ns_per_day)%Z]);
    try reflexivity.
  left; reflexivity.
Qed.

(** C10.  When the designated date column is absent the freshness check
    returns normally with the state as it was: it appends neither a finding
    (so no Date Parsing finding) nor a pass, and whatever follows it runs
    from the same state. *)
Theorem check_data_freshness_skips env df df_name date_column max_age_days
    st :
  loc (columns (frames st df)) date_column = None ->
  check_data_freshness env df df_name date_column max_age_days st
  = (Ok tt, st) /\
  emits (check_data_freshness env df df_name date_column max_age_days) st
    [] [] /\
  forall (B : Type) (k : M B),
    (check_data_freshness env df df_name date_column max_age_days ;;; k) st
    = k st.
Proof.
  intros Hloc.
  pose proof (check_data_freshness_absent env df df_name date_column
                max_age_days st Hloc) as H.
  split; [exact H|]. split.
  - unfold emits. rewrite H. apply emits_ret.
  - intros B k. unfold bind. rewrite H. reflexivity.
Qed.

Lemma check_data_freshness_skips_witness :
  loc (columns (frames (state_of frame_clean) revenue_df)) "date" = None /\
  check_data_freshness env_ex revenue_df "revenue_data" "date" 7
    (state_of frame_clean)
  = (Ok tt, state_of frame_clean).
Proof.
  split; [reflexivity|].
  exact (proj1 (check_data_freshness_skips env_ex revenue_df "revenue_data"
                  "date" 7 (state_of frame_clean) eq_refl)).
Defined.

(** ** Tables are left as they were *)

Lemma pf_ret {A : Type} (a : A) : preserves_frames (ret a).
Proof. intros st. reflexivity. Qed.

Lemma pf_raise {A : Type} (e : exn) : preserves_frames (@raise A e).
Proof. intros st. reflexivity. Qed.

Lemma pf_lift {A : Type} (o : outcome A) : preserves_frames (lift o).
Proof. intros st. reflexivity. Qed.

Lemma pf_get_frame (df : ref) : preserves_frames (get_frame df).
Proof. intros st. reflexivity. Qed.

Lemma pf_add_issue env sev cat msg det :
  preserves_frames (add_issue env sev cat msg det).
Proof. intros st. reflexivity. Qed.

Lemma pf_add_pass name : preserves_frames (add_pass name).
Proof. intros st. reflexivity. Qed.

Lemma pf_bind {A B : Type} (m : M A) (k : A -> M B) :
  preserves_frames m -> (forall a, preserves_frames (k a)) ->
  preserves_frames (bind m k).
Proof.
  intros Hm Hk st. unfold bind. specialize (Hm st).
  destruct (m st) as [[a|e] st']; cbn in *.
  - rewrite Hk. exact Hm.
  - exact Hm.
Qed.

Lemma pf_for_each {A : Type} (l : list A) (body : A -> M unit) :
  (forall x, preserves_frames (body x)) -> preserves_frames (for_each l body).
Proof.
  intros H. induction l as [|x l IH]; cbn.
  - apply pf_ret.
  - apply pf_bind; [apply H | intros _; exact IH].
Qed.

Create HintDb frames.

#[local] Hint Resolve pf_ret pf_raise pf_lift pf_get_frame pf_add_issue
  pf_add_pass : frames.

Ltac pf_step :=
  match goal with
  | |- preserves_frames (bind _ _) => apply pf_bind; [|intros ?]
  | |- preserves_frames (for_each _ _) => apply pf_for_each; intros ?
  | |- preserves_frames (match ?x with _ => _ end) => destruct x
  | |- preserves_frames _ => solve [auto with frames]
  end.

Lemma pf_check_missing_values env df df_name :
  preserves_frames (check_missing_values env df df_name).
Proof. unfold check_missing_values. repeat pf_step. Qed.

Lemma pf_check_duplicates env df df_name subset :
  preserves_frames (check_duplicates env df df_name subset).
Proof. unfold check_duplicates. repeat pf_step. Qed.

Lemma pf_check_data_ranges env df df_name range_checks :
  preserves_frames (check_data_ranges env df df_name range_checks).
Proof. unfold check_data_ranges, check_range. repeat pf_step. Qed.

Lemma pf_check_outliers env df df_name numeric_columns :
  preserves_frames (check_outliers env df df_name numeric_columns).
Proof. unfold check_outliers, check_outlier. repeat pf_step. Qed.

Lemma pf_check_referential_integrity env df1 df2 n1 n2 key :
  preserves_frames (check_referential_integrity env df1 df2 n1 n2 key).
Proof. unfold check_referential_integrity. repeat pf_step. Qed.

(** The frames after the freshness check: untouched, or the date column
    replaced by what [pd.to_datetime] returned. *)
Lemma check_data_freshness_frames env df df_name date_column max_age_days st :
  let st' :=
    snd (check_data_freshness env df df_name date_column max_age_days st) in
  frames st' = frames st \/
  exists s ts,
    loc (columns (frames st df)) date_column = Some s /\
    to_datetime env s = Ok ts /\
    frames st'
    = frames (with_column st df date_column (datetime_series ts)).
Proof.
  cbv zeta.
  destruct (loc (columns (frames st df)) date_column) as [s|] eqn:Hloc.
  - destruct (to_datetime env s) as [ts|e] eqn:Hts.
    + right. exists s, ts. split; [reflexivity|]. split; [exact Hts|].
      rewrite (check_data_freshness_parsed _ _ _ _ _ s ts st Hloc Hts).
      destruct (naive_minus _ _ _) as [a|e]; [|reflexivity].
      destruct (older_than _ _); reflexivity.
    + left.
      rewrite (check_data_freshness_unparsed _ _ _ _ _ s e st Hloc Hts).
      reflexivity.
  - left. rewrite (check_data_freshness_absent _ _ _ _ _ st Hloc).
    reflexivity.
Qed.

(** C9.  However it ends, a call of the missing-value, duplicate, range,
    outlier or referential-integrity check leaves every table as it was.  A
    call of the freshness check on the table [df] leaves every other table as
    it was and, in [df], keeps the number of rows, the labels and every column
    other than the designated date column; the date column itself is either
    untouched (column absent, or not coercible) or replaced by its coerced
    form. *)
Theorem rules_leave_tables env st :
  (forall df df_name,
      frames (snd (check_missing_values env df df_name st)) = frames st) /\
  (forall df df_name subset,
      frames (snd (check_duplicates env df df_name subset st)) = frames st) /\
  (forall df df_name range_checks,
      frames (snd (check_data_ranges env df df_name range_checks st))
      = frames st) /\
  (forall df df_name numeric_columns,
      frames (snd (check_outliers env df df_name numeric_columns st))
      = frames st) /\
  (forall df1 df2 df1_name df2_name key_column,
      frames (snd (check_referential_integrity env df1 df2 df1_name df2_name
                     key_column st))
      = frames st) /\
  (forall df df_name date_column max_age_days,
      let st' :=
        snd (check_data_freshness env df df_name date_column max_age_days st)
      in
      (forall r, frames st' r = if ref_eqb r df then frames st' df
                                else frames st r) /\
      nrows (frames st' df) = nrows (frames st df) /\
      labels (frames st' df) = labels (frames st df) /\
      (forall c,
          loc (columns (frames st' df)) c
          = if String.eqb c date_column
            then loc (columns (frames st' df)) date_column
            else loc (columns (frames st df)) c) /\
      (frames st' df = frames st df \/
       exists s ts,
         loc (columns (frames st df)) date_column = Some s /\
         to_datetime env s = Ok ts /\
         loc (columns (frames st' df)) date_column
         = Some (datetime_series ts))).
Proof.
  split; [intros; apply pf_check_missing_values|].
  split; [intros; apply pf_check_duplicates|].
  split; [intros; apply pf_check_data_ranges|].
  split; [intros; apply pf_check_outliers|].
  split; [intros; apply pf_check_referential_integrity|].
  intros df df_name date_column max_age_days st'.
  destruct (check_data_freshness_frames env df df_name date_column
              max_age_days st) as [H | (s & ts & Hloc & Hts & H)];
    fold st' in H.
  - rewrite H. split.
    { intros r. destruct (ref_eqb r df) eqn:E; [|reflexivity].
      apply ref_eqb_eq in E. subst r. reflexivity. }
    split; [reflexivity|]. split; [reflexivity|]. split.
    { intros c. destruct (String.eqb_spec c date_column) as [->|_];
        reflexivity. }
    left. reflexivity.
  - rewrite H. unfold with_column. cbn [frames]. rewrite ref_eqb_refl.
    split; [intros r; destruct (ref_eqb r df); reflexivity|].
    split; [reflexivity|].
    split; [unfold labels, set_column; cbn [columns]; apply labels_set_loc|].
    split.
    { intros c. destruct (String.eqb_spec c date_column) as [->|Hne].
      - reflexivity.
      - unfold set_column. cbn [columns]. apply loc_set_loc_other.
        apply String.eqb_neq. exact Hne. }
    right. exists s, ts. split; [exact Hloc|]. split; [exact Hts|].
    unfold set_column. cbn [columns]. exact (loc_set_loc _ _ _ _ Hloc).
Qed.

(** ** Text in a range-checked column *)

(** The range check compares without looking at the dtype: a range-checked
    column read as text makes it raise, whatever the bounds. *)
Lemma check_data_ranges_text env df df_name col b rest s t st :
  loc (columns (frames st df)) col = Some s ->
  dt s = Object -> In (Str t) (values s) ->
  exists e,
    check_data_ranges env df df_name ((col, b) :: rest) st = (Raise e, st).
Proof.
  intros Hloc Hdt HIn.
  destruct (compare_text Float.ltb s (Float.of_Z (fst b)) t Hdt HIn)
    as (e & He).
  exists e. unfold check_data_ranges. cbn [for_each].
  unfold bind at 1. unfold check_range, get_frame, bind at 1.
  cbn [fst snd]. rewrite Hloc. unfold bind at 1, lift. rewrite He.
  reflexivity.
Qed.

(** The outlier check looks at the dtype first and skips such a column. *)
Lemma check_outliers_skips_text env df df_name col s st :
  loc (columns (frames st df)) col = Some s -> dt s = Object ->
  check_outliers env df df_name [col] st = (Ok tt, st).
Proof.
  intros Hloc Hdt. unfold check_outliers. cbn [for_each].
  unfold bind at 1. unfold check_outlier, get_frame, bind at 1.
  rewrite Hloc. unfold is_numeric_dtype. rewrite Hdt. reflexivity.
Qed.

(** C8 does not hold of the code.  With one occupancy rate that is not a
    number the column is read as text; the range check then raises a
    [TypeError] instead of logging a finding, and the run ends without a
    report.  The same files with numeric rates give a report. *)
Theorem range_check_raises_on_text :
  check_data_ranges env_ex occupancy_df "occupancy_data"
    [("occupancy_rate", (0, 100)%Z); ("capacity", (50, 200)%Z)]
    (state_of occupancy_text)
  = (Raise invalid_comparison, state_of occupancy_text) /\
  check_outliers env_ex occupancy_df "occupancy_data" ["occupancy_rate"]
    (state_of occupancy_text)
  = (Ok tt, state_of occupancy_text) /\
  run_quality_checks env_ex (files occupancy_text) = None /\
  run_quality_checks env_ex (files occupancy_numbers)
  = Some (mkRun (mkReport 13 13 0 []) None).
Proof.
  split; [reflexivity|]. split; [reflexivity|].
  split; vm_compute; reflexivity.
Qed.

(** A date column that cannot be parsed does not end the run: the finding is
    logged, the outlier check that follows records its pass, and the report
    is produced. *)
Example run_continues_after_date_parsing :
  exists f,
    run_quality_checks env_ex (files occupancy_bad_dates)
    = Some (mkRun (mkReport 13 12 1 [f]) (Some [f])) /\
    category f = DateParsing /\ severity f = MEDIUM /\
    In "occupancy_data.occupancy_rate outlier check"
       (passed_checks
          (checker (snd (occupancy_checks env_ex
                           (state_of occupancy_bad_dates))))).
Proof.
  eexists. split; [vm_compute; reflexivity|].
  split; [reflexivity|]. split; [reflexivity|].
  vm_compute. tauto.
Qed.

(** ** The remaining sample checks *)

(** Compared on every column, the rows of [frame_pairs] are all distinct. *)
Example check_duplicates_full_rows :
  check_duplicates env_ex occupancy_df "occupancy_data" None
    (state_of frame_pairs)
  = (Ok tt,
     mkState (fun _ => frame_pairs)
       (mkChecker [] ["No duplicates in occupancy_data"])).
Proof. reflexivity. Qed.

(** A key column that does not exist is a [KeyError]. *)
Example check_duplicates_missing_key :
  fst (check_duplicates env_ex occupancy_df "occupancy_data"
         (Some ["c1"; "location"]) (state_of frame_pairs))
  = Raise (KeyError "location").
Proof. reflexivity. Qed.

(** A single value of 101 against the bounds [0, 100]. *)
Example check_data_ranges_101 :
  issues (checker (snd (check_data_ranges env_ex occupancy_df "occupancy_data"
                          [("occupancy_rate", (0, 100)%Z)]
                          (state_of frame_rates))))
  = [range_finding env_ex "occupancy_data" "occupancy_rate" 1 0 100] /\
  message (range_finding env_ex "occupancy_data" "occupancy_rate" 1 0 100)
  = "occupancy_data: 1 values in 'occupancy_rate' outside range [0, 100]".
Proof. split; vm_compute; reflexivity. Qed.

(** One orphaned child key. *)
Example check_referential_integrity_orphan :
  exists f,
    check_referential_integrity env_ex member_df occupancy_df
      "member_data" "occupancy_data" "member_id" state_child_parent
    = (Ok tt, mkState (frames state_child_parent) (mkChecker [f] [])) /\
    severity f = HIGH /\ category f = ReferentialIntegrity /\
    details f = Some (DKey 1 "member_id").
Proof.
  eexists. split; [vm_compute; reflexivity|].
  split; [reflexivity|]. split; reflexivity.
Qed.

(** Without the input files there is no run. *)
Example run_without_files :
  run_quality_checks env_ex (fun _ => None) = None.
Proof. reflexivity. Qed.

(** * Further properties of the checker *)

(** ** The ledger only grows *)

Lemma appends_refl (st : State) : appends st st [] [].
Proof. unfold appends. rewrite !app_nil_r. split; reflexivity. Qed.

Lemma appends_trans (st1 st2 st3 : State) fs ps fs' ps' :
  appends st1 st2 fs ps -> appends st2 st3 fs' ps' ->
  appends st1 st3 (fs ++ fs') (ps ++ ps').
Proof.
  intros [I1 P1] [I2 P2]. unfold appends.
  rewrite I2, I1, P2, P1, !app_assoc. split; reflexivity.
Qed.

Lemma el_ret {A : Type} (a : A) : extends_ledger (ret a).
Proof. intros st. exists [], []. apply appends_refl. Qed.

Lemma el_raise {A : Type} (e : exn) : extends_ledger (@raise A e).
Proof. intros st. exists [], []. apply appends_refl. Qed.

Lemma el_lift {A : Type} (o : outcome A) : extends_ledger (lift o).
Proof. intros st. exists [], []. apply appends_refl. Qed.

Lemma el_get_frame (df : ref) : extends_ledger (get_frame df).
Proof. intros st. exists [], []. apply appends_refl. Qed.

Lemma el_set_frame (df : ref) (d : DataFrame) :
  extends_ledger (set_frame df d).
Proof.
  intros st. exists [], []. unfold appends. cbn.
  rewrite !app_nil_r. split; reflexivity.
Qed.

Lemma el_add_issue env sev cat msg det :
  extends_ledger (add_issue env sev cat msg det).
Proof.
  intros st. exists [mkFinding (strftime env (now env)) sev cat msg det], [].
  unfold appends. cbn. rewrite app_nil_r. split; reflexivity.
Qed.

Lemma el_add_pass name : extends_ledger (add_pass name).
Proof.
  intros st. exists [], [name]. unfold appends. cbn.
  rewrite app_nil_r. split; reflexivity.
Qed.

Lemma el_bind {A B : Type} (m : M A) (k : A -> M B) :
  extends_ledger m -> (forall a, extends_ledger (k a)) ->
  extends_ledger (bind m k).
Proof.
  intros Hm Hk st. unfold bind. destruct (Hm st) as (fs & ps & H).
  destruct (m st) as [[a|e] st1]; cbn in H.
  - destruct (Hk a st1) as (fs' & ps' & H').
    exists (fs ++ fs'), (ps ++ ps'). eapply appends_trans; eassumption.
  - exists fs, ps. exact H.
Qed.

Lemma el_try_except {A : Type} (m : M A) (h : exn -> M A) :
  extends_ledger m -> (forall e, extends_ledger (h e)) ->
  extends_ledger (try_except m h).
Proof.
  intros Hm Hh st. unfold try_except. destruct (Hm st) as (fs & ps & H).
  destruct (m st) as [[a|e] st1]; cbn in H.
  - exists fs, ps. exact H.
  - destruct (Hh e st1) as (fs' & ps' & H').
    exists (fs ++ fs'), (ps ++ ps'). eapply appends_trans; eassumption.
Qed.

Lemma el_for_each {A : Type} (l : list A) (body : A -> M unit) :
  (forall x, extends_ledger (body x)) -> extends_ledger (for_each l body).
Proof.
  intros H. induction l as [|x l IH]; cbn.
  - apply el_ret.
  - apply el_bind; [apply H | intros _; exact IH].
Qed.

Lemma el_generate_report : extends_ledger generate_report.
Proof. intros st. exists [], []. apply appends_refl. Qed.

Create HintDb ledger.

#[local] Hint Resolve el_ret el_raise el_lift el_get_frame el_set_frame
  el_add_issue el_add_pass el_generate_report : ledger.

Ltac el_step :=
  match goal with
  | |- extends_ledger (bind _ _) => apply el_bind; [|intros ?]
  | |- extends_ledger (try_except _ _) => apply el_try_except; [|intros ?]
  | |- extends_ledger (for_each _ _) => apply el_for_each; intros ?
  | |- extends_ledger (match ?x with _ => _ end) => destruct x
  | |- extends_ledger _ => solve [auto with ledger]
  end.

(** X1.  Whatever the tables hold and however a check ends, normally or by
    raising, the findings and the passes recorded before it are still there,
    in the same order, followed by what the check added: no rule, and not the
    whole battery of the driver, removes, rewrites or reorders an entry. *)
Theorem ledger_append_only env :
  (forall df df_name, extends_ledger (check_missing_values env df df_name)) /\
  (forall df df_name subset,
      extends_ledger (check_duplicates env df df_name subset)) /\
  (forall df df_name range_checks,
      extends_ledger (check_data_ranges env df df_name range_checks)) /\
  (forall df df_name date_column max_age_days,
      extends_ledger
        (check_data_freshness env df df_name date_column max_age_days)) /\
  (forall df df_name numeric_columns,
      extends_ledger (check_outliers env df df_name numeric_columns)) /\
  (forall df1 df2 df1_name df2_name key_column,
      extends_ledger
        (check_referential_integrity env df1 df2 df1_name df2_name
           key_column)) /\
  extends_ledger (all_checks env).
Proof.
  assert (H1 : forall df df_name,
             extends_ledger (check_missing_values env df df_name)).
  { intros. unfold check_missing_values. repeat el_step. }
  assert (H2 : forall df df_name subset,
             extends_ledger (check_duplicates env df df_name subset)).
  { intros. unfold check_duplicates. repeat el_step. }
  assert (H3 : forall df df_name range_checks,
             extends_ledger (check_data_ranges env df df_name range_checks)).
  { intros. unfold check_data_ranges, check_range. repeat el_step. }
  assert (H4 : forall df df_name date_column max_age_days,
             extends_ledger
               (check_data_freshness env df df_name date_column
                  max_age_days)).
  { intros. unfold check_data_freshness. repeat el_step. }
  assert (H5 : forall df df_name numeric_columns,
             extends_ledger (check_outliers env df df_name numeric_columns)).
  { intros. unfold check_outliers, check_outlier. repeat el_step. }
  assert (H6 : forall df1 df2 df1_name df2_name key_column,
             extends_ledger
               (check_referential_integrity env df1 df2 df1_name df2_name
                  key_column)).
  { intros. unfold check_referential_integrity. repeat el_step. }
  repeat (split; [assumption|]).
  unfold all_checks, occupancy_checks, revenue_checks, member_checks.
  repeat match goal with
         | |- extends_ledger (bind _ _) => apply el_bind; [|intros ?]
         end; auto with ledger.
Qed.

(** ** Duplicates, once more *)

Lemma emits_add_issue_inv env sev cat msg det st fs ps :
  emits (add_issue env sev cat msg det) st fs ps ->
  fs = [mkFinding (strftime env (now env)) sev cat msg det] /\ ps = [].
Proof.
  intros (st' & E & _ & I & P). inversion E; subst st'. cbn in I, P.
  apply app_inv_head in I.
  rewrite <- (app_nil_r (passed_checks (checker st))) in P at 1.
  apply app_inv_head in P. split; congruence.
Qed.

Lemma emits_add_pass_inv name st fs ps :
  emits (add_pass name) st fs ps -> fs = [] /\ ps = [name].
Proof.
  intros (st' & E & _ & I & P). inversion E; subst st'. cbn in I, P.
  apply app_inv_head in P.
  rewrite <- (app_nil_r (issues (checker st))) in I at 1.
  apply app_inv_head in I. split; congruence.
Qed.

(** The check, once the marks are summed. *)
Lemma check_duplicates_runs env df df_name subset cols st :
  key_columns (frames st df) subset = Ok cols -> cols <> [] ->
  let k := repeat_count (rows_of (nrows (frames st df)) cols) in
  check_duplicates env df df_name subset st
  = (if (0 <? k)%nat
     then add_issue env MEDIUM Duplicates
            (message (duplicates_finding env df_name k)) (Some (DCount k))
     else add_pass ("No duplicates in " +++ df_name)) st.
Proof.
  intros Hkey Hcols k.
  destruct (duplicated_key_columns (frames st df) subset cols Hkey Hcols)
    as (marks & Hm & Hsum).
  unfold check_duplicates, get_frame, bind at 1.
  rewrite Hm. unfold lift, bind at 1. rewrite Hsum. fold k.
  destruct (0 <? k)%nat; reflexivity.
Qed.

Lemma repeat_count_zero_iff (rs : list (list cell)) :
  repeat_count rs = 0%nat
  <-> forall i j, (j < i < List.length rs)%nat ->
                  row_eqb (nth i rs []) (nth j rs []) = false.
Proof.
  unfold repeat_count. rewrite length_zero_iff_nil. split.
  - intros H i j [Hj Hi]. apply not_true_is_false. intros Heq.
    assert (HIn : In i (filter (repeats_earlier rs)
                          (seq 0 (List.length rs)))).
    { apply filter_In. split; [apply in_seq; lia|].
      apply repeats_earlier_iff; [exact Hi|]. exists j. split; assumption. }
    rewrite H in HIn. exact HIn.
  - intros H. apply filter_nil_all. intros i Hi. apply in_seq in Hi.
    apply not_true_is_false. intros Hrep.
    apply repeats_earlier_iff in Hrep; [|lia].
    destruct Hrep as (j & Hj & Heq).
    rewrite (H i j) in Heq by lia. discriminate.
Qed.

Lemma repeat_count_lt (rs : list (list cell)) :
  rs <> [] -> (repeat_count rs < List.length rs)%nat.
Proof.
  intros Hne. unfold repeat_count.
  destruct rs as [|r rs]; [contradiction|].
  cbn [List.length seq filter].
  change (repeats_earlier (r :: rs) 0) with false. cbv iota.
  pose proof (filter_length_le (repeats_earlier (r :: rs))
                (seq 1 (List.length rs))) as H.
  rewrite length_seq in H. lia.
Qed.

(** X2.  When the key columns exist, the duplicate check records its pass
    exactly when no two rows of the table agree on all the key columns.  When
    it logs a finding instead, the count it carries is at least 1 and at most
    the number of rows minus one: the first row is never a duplicate. *)
Theorem check_duplicates_pass_iff env df df_name subset cols st :
  let d := frames st df in
  key_columns d subset = Ok cols -> cols <> [] ->
  let rs := rows_of (nrows d) cols in
  (emits (check_duplicates env df df_name subset) st
     [] ["No duplicates in " +++ df_name]
   <-> forall i j, (j < i < nrows d)%nat ->
                   row_eqb (nth i rs []) (nth j rs []) = false) /\
  (forall k,
      emits (check_duplicates env df df_name subset) st
        [duplicates_finding env df_name k] [] ->
      (1 <= k <= nrows d - 1)%nat).
Proof.
  intros d Hkey Hcols rs.
  pose proof (check_duplicates_runs env df df_name subset cols st Hkey Hcols)
    as Hrun. cbv zeta in Hrun. fold d in Hrun. fold rs in Hrun.
  pose proof (repeat_count_zero_iff rs) as Hzero.
  unfold rs at 2 in Hzero. rewrite length_rows_of in Hzero.
  split.
  - rewrite <- Hzero. split.
    + intros Hem. unfold emits in Hem. rewrite Hrun in Hem.
      destruct (repeat_count rs) as [|k]; [reflexivity|].
      cbn [Nat.ltb Nat.leb] in Hem.
      apply emits_add_issue_inv in Hem. destruct Hem as [Hfs _].
      discriminate Hfs.
    + intros Hk. unfold emits. rewrite Hrun, Hk. apply emits_add_pass.
  - intros k Hem. unfold emits in Hem. rewrite Hrun in Hem.
    destruct (repeat_count rs) as [|k0] eqn:Ek.
    + apply emits_add_pass_inv in Hem. destruct Hem as [Hfs _].
      discriminate Hfs.
    + cbn [Nat.ltb Nat.leb] in Hem.
      apply emits_add_issue_inv in Hem. destruct Hem as [Hfs _].
      inversion Hfs as [[Hmsg Hk]]. 
      assert (Hne : rs <> []).
      { intros E. rewrite E in Ek. discriminate Ek. }
      pose proof (repeat_count_lt rs Hne) as Hlt.
      unfold rs at 2 in Hlt. rewrite length_rows_of in Hlt. lia.
Qed.

Lemma check_duplicates_pass_iff_witness :
  key_columns frame_pairs None
  = Ok (map snd (columns frame_pairs)) /\
  map snd (columns frame_pairs) <> [] /\
  emits (check_duplicates env_ex occupancy_df "occupancy_data" None)
    (state_of frame_pairs) [] ["No duplicates in occupancy_data"].
Proof.
  assert (Hcols : map snd (columns frame_pairs) <> []) by discriminate.
  split; [reflexivity|]. split; [exact Hcols|].
  destruct (check_duplicates_pass_iff env_ex occupancy_df "occupancy_data"
              None (map snd (columns frame_pairs)) (state_of frame_pairs)
              eq_refl Hcols) as ((_ & Hpass) & _).
  apply Hpass. intros i j Hij. cbn in Hij.
  assert (Hi : i = 1%nat \/ i = 2%nat) by lia.
  destruct Hi as [-> | ->].
  - assert (j = 0%nat) as -> by lia. vm_compute. reflexivity.
  - assert (Hj : j = 0%nat \/ j = 1%nat) by lia.
    destruct Hj as [-> | ->]; vm_compute; reflexivity.
Defined.

Lemma row_eqb_row_of (cols : list Series) (i j : nat) :
  row_eqb (row_of cols i) (row_of cols j)
  = forallb (fun s => cell_eqb (nth i (values s) Null)
                               (nth j (values s) Null)) cols.
Proof.
  unfold row_of. induction cols as [|s cols IH]; cbn; [reflexivity|].
  rewrite IH. reflexivity.
Qed.

Lemma nth_rows_of (n : nat) (cols : list Series) (i : nat) :
  (i < n)%nat -> nth i (rows_of n cols) [] = row_of cols i.
Proof.
  intros Hi. unfold rows_of.
  rewrite (nth_indep _ [] (row_of cols 0))
    by (rewrite length_map, length_seq; exact Hi).
  rewrite map_nth, seq_nth by exact Hi. reflexivity.
Qed.

Lemma select_In (cols : list (string * Series)) (keys : list string)
    (ss : list Series) :
  select cols keys = Ok ss ->
  forall s, In s ss -> In s (map snd cols).
Proof.
  revert ss. induction keys as [|k keys IH]; cbn; intros ss H s HIn.
  - inversion H; subst. contradiction.
  - destruct (loc cols k) as [s0|] eqn:El; [|discriminate].
    destruct (select cols keys) as [ss0|e]; [|discriminate].
    inversion H; subst. destruct HIn as [<- | HIn].
    + apply loc_Some_In in El. apply (in_map snd) in El. exact El.
    + exact (IH ss0 eq_refl s HIn).
Qed.

Lemma filter_length_mono {A : Type} (p q : A -> bool) (l : list A) :
  (forall x, In x l -> p x = true -> q x = true) ->
  (List.length (filter p l) <= List.length (filter q l))%nat.
Proof.
  induction l as [|x l IH]; intros H; [reflexivity|]. cbn.
  assert (Hl := IH (fun y Hy => H y (or_intror Hy))).
  destruct (p x) eqn:Ep.
  - rewrite (H x (or_introl eq_refl) Ep). cbn. lia.
  - destruct (q x); cbn; lia.
Qed.

(** Rows equal on every column are equal on any choice of columns. *)
Lemma repeat_count_select (d : DataFrame) (keys : list string)
    (ss : list Series) :
  select (columns d) keys = Ok ss ->
  (repeat_count (rows_of (nrows d) (map snd (columns d)))
   <= repeat_count (rows_of (nrows d) ss))%nat.
Proof.
  intros Hsel. unfold repeat_count. rewrite !length_rows_of.
  apply filter_length_mono. intros i Hi Hrep. apply in_seq in Hi.
  apply repeats_earlier_iff in Hrep; [|rewrite length_rows_of; lia].
  apply repeats_earlier_iff; [rewrite length_rows_of; lia|].
  destruct Hrep as (j & Hj & Heq). exists j. split; [exact Hj|].
  rewrite !nth_rows_of in * by lia.
  rewrite row_eqb_row_of in *. rewrite forallb_forall in *.
  intros s Hs. apply Heq. exact (select_In _ _ _ Hsel s Hs).
Qed.

(** X3.  Comparing rows on fewer columns can only find more duplicates: if
    the check over whole rows logs a finding with count [n1], then the check
    over any subset of existing key columns logs a finding too, with a count
    of at least [n1]. *)
Theorem duplicates_subset_monotone env df df_name key keys ss n1 st :
  let d := frames st df in
  select (columns d) (key :: keys) = Ok ss ->
  emits (check_duplicates env df df_name None) st
    [duplicates_finding env df_name n1] [] ->
  exists n2,
    (n1 <= n2)%nat /\
    emits (check_duplicates env df df_name (Some (key :: keys))) st
      [duplicates_finding env df_name n2] [].
Proof.
  intros d Hsel Hem.
  assert (Hss : ss <> []).
  { intros ->. cbn in Hsel.
    destruct (loc (columns d) key); [|discriminate].
    destruct (select (columns d) keys); discriminate. }
  assert (Hall : map snd (columns d) <> []).
  { intros E. destruct ss as [|s ss]; [apply Hss; reflexivity|].
    pose proof (select_In _ _ _ Hsel s (or_introl eq_refl)) as HIn.
    rewrite E in HIn. exact HIn. }
  pose proof (check_duplicates_runs env df df_name None
                (map snd (columns d)) st eq_refl Hall) as Hrun1.
  pose proof (check_duplicates_runs env df df_name (Some (key :: keys))
                ss st Hsel Hss) as Hrun2.
  cbv zeta in Hrun1, Hrun2. fold d in Hrun1, Hrun2.
  pose proof (repeat_count_select d (key :: keys) ss Hsel) as Hle.
  unfold emits in Hem. rewrite Hrun1 in Hem.
  destruct (repeat_count (rows_of (nrows d) (map snd (columns d))))
    as [|k1] eqn:E1.
  - apply emits_add_pass_inv in Hem. destruct Hem as [Hfs _].
    discriminate Hfs.
  - cbn [Nat.ltb Nat.leb] in Hem.
    apply emits_add_issue_inv in Hem. destruct Hem as [Hfs _].
    inversion Hfs as [[Hmsg Hk]].
    exists (repeat_count (rows_of (nrows d) ss)). split; [lia|].
    unfold emits. rewrite Hrun2.
    destruct (repeat_count (rows_of (nrows d) ss)) as [|k2]; [lia|].
    cbn [Nat.ltb Nat.leb]. apply emits_add_issue.
Qed.

Lemma duplicates_subset_monotone_witness :
  select (columns frame_twins) ["c1"]
  = Ok [mkSeries Numeric [Num 1; Num 1; Num 2]] /\
  emits (check_duplicates env_ex occupancy_df "occupancy_data" None)
    (state_of frame_twins)
    [duplicates_finding env_ex "occupancy_data" 1] [] /\
  exists n2,
    (1 <= n2)%nat /\
    emits (check_duplicates env_ex occupancy_df "occupancy_data"
             (Some ["c1"]))
      (state_of frame_twins)
      [duplicates_finding env_ex "occupancy_data" n2] [].
Proof.
  assert (Hem : emits (check_duplicates env_ex occupancy_df "occupancy_data"
                         None)
                  (state_of frame_twins)
                  [duplicates_finding env_ex "occupancy_data" 1] []).
  { eexists. split; [vm_compute; reflexivity|].
    split; [reflexivity|]. split; reflexivity. }
  split; [reflexivity|]. split; [exact Hem|].
  exact (duplicates_subset_monotone env_ex occupancy_df "occupancy_data"
           "c1" [] [mkSeries Numeric [Num 1; Num 1; Num 2]] 1
           (state_of frame_twins) eq_refl Hem).
Defined.

(** ** Referential integrity *)

Lemma sum_true_map {A : Type} (f : A -> bool) (l : list A) :
  sum_true (map f l) = List.length (filter f l).
Proof.
  unfold sum_true.
  rewrite (filter_map_comm f (fun x : bool => x)), length_map. reflexivity.
Qed.

Lemma isin_eqb_iff (a b : cell) : isin_eqb a b = true <-> same_key a b.
Proof.
  split.
  - destruct a, b; cbn; try discriminate; intros H.
    + constructor.
    + constructor. apply Qeq_bool_iff. exact H.
    + apply String.eqb_eq in H. subst. constructor.
    + apply Z.eqb_eq in H. subst. constructor.
    + constructor.
  - intros [ | |x y H|x|t]; cbn.
    + reflexivity.
    + reflexivity.
    + apply Qeq_bool_iff. exact H.
    + apply String.eqb_refl.
    + apply Z.eqb_refl.
Qed.

Lemma isin_eqb_refl (c : cell) : isin_eqb c c = true.
Proof.
  destruct c; cbn.
  - reflexivity.
  - apply Qeq_bool_refl.
  - apply String.eqb_refl.
  - apply Z.eqb_refl.
  - reflexivity.
Qed.

Lemma orphaned_iff (parent : Series) (c : cell) :
  orphaned parent c = true
  <-> forall p, In p (values parent) -> ~ same_key c p.
Proof.
  unfold orphaned. rewrite negb_true_iff. split.
  - intros H p Hp E. apply isin_eqb_iff in E.
    assert (Hex : existsb (isin_eqb c) (values parent) = true)
      by (apply existsb_exists; exists p; split; assumption).
    congruence.
  - intros H. apply not_true_is_false. intros Hex.
    apply existsb_exists in Hex. destruct Hex as (p & Hp & E).
    apply isin_eqb_iff in E. exact (H p Hp E).
Qed.

(** The check, once the orphans are counted. *)
Lemma check_referential_integrity_runs env df1 df2 df1_name df2_name
    key_column s1 s2 st :
  loc (columns (frames st df1)) key_column = Some s1 ->
  loc (columns (frames st df2)) key_column = Some s2 ->
  let k := orphan_count s1 s2 in
  check_referential_integrity env df1 df2 df1_name df2_name key_column st
  = (if (0 <? k)%nat
     then add_issue env HIGH ReferentialIntegrity
            (message (integrity_finding env df1_name df2_name key_column k))
            (Some (DKey k key_column))
     else add_pass (integrity_pass df1_name df2_name)) st.
Proof.
  intros H1 H2 k.
  unfold check_referential_integrity, get_frame, bind at 1.
  unfold bind at 1. rewrite H1, H2.
  unfold series_not, isin. rewrite map_map, sum_true_map.
  change (List.length
            (filter (fun c => negb (existsb (isin_eqb c) (values s2)))
                    (values s1)))
    with k.
  destruct (0 <? k)%nat; reflexivity.
Qed.

(** X4.  When the key column is absent from the child or from the parent
    table, the referential-integrity check returns with the state as it was:
    no finding, no pass.  When both tables have it, the check counts the
    child rows whose key is the same as no key of the parent, where a [NaN]
    is the same as a [NaN] and a [None] as a [None], but a [None] is not the
    same as a [NaN]; a count [k > 0] appends exactly one HIGH Referential
    Integrity finding carrying [k] and the key, and no pass; a count of 0
    appends exactly one pass and no finding. *)
Theorem check_referential_integrity_spec env df1 df2 df1_name df2_name
    key_column st :
  match loc (columns (frames st df1)) key_column,
        loc (columns (frames st df2)) key_column with
  | Some s1, Some s2 =>
      let k := List.length (filter (orphaned s2) (values s1)) in
      (forall c, orphaned s2 c = true
                 <-> forall p, In p (values s2) -> ~ same_key c p) /\
      ((0 < k)%nat ->
       emits (check_referential_integrity env df1 df2 df1_name df2_name
                key_column) st
         [integrity_finding env df1_name df2_name key_column k] []) /\
      (k = 0%nat ->
       emits (check_referential_integrity env df1 df2 df1_name df2_name
                key_column) st
         [] [integrity_pass df1_name df2_name])
  | _, _ =>
      check_referential_integrity env df1 df2 df1_name df2_name key_column st
      = (Ok tt, st)
  end.
Proof.
  destruct (loc (columns (frames st df1)) key_column) as [s1|] eqn:H1.
  - destruct (loc (columns (frames st df2)) key_column) as [s2|] eqn:H2.
    + cbv zeta. split; [intros c; apply orphaned_iff|].
      pose proof (check_referential_integrity_runs env df1 df2 df1_name
                    df2_name key_column s1 s2 st H1 H2) as Hrun.
      cbv zeta in Hrun. unfold orphan_count in Hrun.
      split.
      * intros Hk. unfold emits. rewrite Hrun.
        apply Nat.ltb_lt in Hk. rewrite Hk. apply emits_add_issue.
      * intros Hk. unfold emits. rewrite Hrun, Hk. apply emits_add_pass.
    + unfold check_referential_integrity, get_frame, bind at 1.
      unfold bind at 1. rewrite H1, H2. reflexivity.
  - unfold check_referential_integrity, get_frame, bind at 1.
    unfold bind at 1. rewrite H1. reflexivity.
Qed.

(** X5.  When every key of the child column occurs in the parent column,
    the check records its pass and logs nothing; in particular a table
    checked against itself always passes. *)
Theorem check_referential_integrity_covered env df1 df2 df1_name df2_name
    key_column s1 s2 st :
  loc (columns (frames st df1)) key_column = Some s1 ->
  loc (columns (frames st df2)) key_column = Some s2 ->
  incl (values s1) (values s2) ->
  emits (check_referential_integrity env df1 df2 df1_name df2_name
           key_column) st
    [] [integrity_pass df1_name df2_name].
Proof.
  intros H1 H2 Hincl.
  pose proof (check_referential_integrity_runs env df1 df2 df1_name df2_name
                key_column s1 s2 st H1 H2) as Hrun.
  cbv zeta in Hrun. unfold emits. rewrite Hrun.
  replace (orphan_count s1 s2) with 0%nat; [apply emits_add_pass|].
  symmetry. unfold orphan_count. apply length_zero_iff_nil.
  apply filter_nil_all. intros c Hc. unfold orphaned.
  apply negb_false_iff. apply existsb_exists.
  exists c. split; [apply Hincl, Hc | apply isin_eqb_refl].
Qed.

Lemma check_referential_integrity_covered_witness :
  loc (columns (frames state_child_parent member_df)) "member_id"
  = Some (mkSeries Numeric [Num 1; Num 2; Num 3]) /\
  incl [Num 1; Num 2; Num 3] [Num 1; Num 2; Num 3] /\
  emits (check_referential_integrity env_ex member_df member_df
           "member_data" "member_data" "member_id")
    state_child_parent
    [] ["Referential integrity: member_data ↔ member_data"].
Proof.
  split; [reflexivity|]. split; [apply incl_refl|].
  exact (check_referential_integrity_covered env_ex member_df member_df
           "member_data" "member_data" "member_id"
           (mkSeries Numeric [Num 1; Num 2; Num 3])
           (mkSeries Numeric [Num 1; Num 2; Num 3])
           state_child_parent eq_refl eq_refl (incl_refl _)).
Defined.

(** A [None] in the child is not covered by a [NaN] in the parent: one
    orphan, and the HIGH finding. *)
Example check_referential_integrity_none :
  emits (check_referential_integrity env_ex member_df occupancy_df
           "member_data" "occupancy_data" "member_id")
    state_none_nan
    [integrity_finding env_ex "member_data" "occupancy_data" "member_id" 1]
    [].
Proof.
  eexists. split; [vm_compute; reflexivity|].
  split; [reflexivity|]. split; reflexivity.
Qed.

(** ** When the range check raises *)

Lemma compare_incomparable (op : fval -> fval -> bool) (s : Series)
    (x : fval) :
  comparable s = false -> exists msg, compare op s x = Raise (TypeError msg).
Proof.
  unfold comparable, compare. destruct (dt s); intros H.
  - discriminate.
  - induction (values s) as [|c l IH]; [discriminate|].
    cbn in H |- *. destruct c; cbn.
    + destruct (IH H) as (msg & ->). eexists; reflexivity.
    + destruct (IH H) as (msg & ->). eexists; reflexivity.
    + eexists; reflexivity.
    + eexists; reflexivity.
    + destruct (IH H) as (msg & ->). eexists; reflexivity.
  - eexists; reflexivity.
  - discriminate.
Qed.

Lemma check_range_raises env df df_name item s st :
  loc (columns (frames st df)) (fst item) = Some s ->
  comparable s = false ->
  exists msg,
    check_range env df df_name item st = (Raise (TypeError msg), st).
Proof.
  intros Hloc Hc.
  destruct (compare_incomparable Float.ltb s
              (Float.of_Z (fst (snd item))) Hc) as (msg & Hcmp).
  exists msg. unfold check_range, get_frame, bind at 1.
  rewrite Hloc. unfold bind at 1, lift. rewrite Hcmp. reflexivity.
Qed.

(** The entries before the failing one are checked and recorded. *)
Lemma check_data_ranges_raises_after env df df_name before col bounds after
    s :
  forall st,
    (forall c b s', In (c, b) before ->
                    loc (columns (frames st df)) c = Some s' ->
                    comparable s' = true) ->
    loc (columns (frames st df)) col = Some s ->
    comparable s = false ->
    exists msg st',
      check_data_ranges env df df_name (before ++ (col, bounds) :: after) st
      = (Raise (TypeError msg), st') /\
      frames st' = frames st /\
      appends st st'
        (flat_map (range_findings env df_name (frames st df)) before)
        (flat_map (range_passes df_name (frames st df)) before).
Proof.
  unfold check_data_ranges.
  induction before as [|item before IH]; intros st Hok Hloc Hc.
  - destruct (check_range_raises env df df_name (col, bounds) s st Hloc Hc)
      as (msg & Hr).
    exists msg, st. cbn [app for_each flat_map]. unfold bind.
    rewrite Hr. split; [reflexivity|]. split; [reflexivity|].
    apply appends_refl.
  - pose proof (check_range_emits env df df_name item st) as Hem.
    cbv zeta in Hem.
    destruct Hem as (st1 & E1 & F1 & A1).
    { intros s' Hs'. destruct item as [c b].
      exact (Hok c b s' (or_introl eq_refl) Hs'). }
    destruct (IH st1) as (msg & st' & E & F & A).
    { intros c b s' HIn Hs'. rewrite F1 in Hs'.
      exact (Hok c b s' (or_intror HIn) Hs'). }
    { rewrite F1. exact Hloc. }
    { exact Hc. }
    exists msg, st'. cbn [app for_each flat_map]. unfold bind at 1.
    rewrite E1. split; [exact E|]. split; [congruence|].
    rewrite F1 in A. eapply appends_trans; eassumption.
Qed.

Lemma check_data_ranges_returns_inv env df df_name range_checks :
  forall st st',
    check_data_ranges env df df_name range_checks st = (Ok tt, st') ->
    forall col b s,
      In (col, b) range_checks ->
      loc (columns (frames st df)) col = Some s -> comparable s = true.
Proof.
  unfold check_data_ranges.
  induction range_checks as [|item l IH]; intros st st' Hret col b s HIn Hloc;
    [contradiction|].
  cbn [for_each] in Hret. unfold bind in Hret.
  destruct (check_range env df df_name item st) as [[[]|e] st1] eqn:E1;
    [|discriminate].
  assert (F1 : frames st1 = frames st).
  { pose proof (pf_check_data_ranges env df df_name [item] st) as H.
    unfold check_data_ranges in H. cbn [for_each] in H. unfold bind in H.
    rewrite E1 in H. exact H. }
  destruct HIn as [-> | HIn].
  - destruct (comparable s) eqn:Hc; [reflexivity|]. exfalso.
    destruct (check_range_raises env df df_name (col, b) s st Hloc Hc)
      as (msg & Hr).
    rewrite Hr in E1. discriminate.
  - apply (IH st1 st' Hret col b s HIn). rewrite F1. exact Hloc.
Qed.

(** X6.  The range check raises as soon as it meets an entry whose column is
    present but cannot be compared with a number (text, dates): the exception
    is a [TypeError], the tables are untouched, and the ledger keeps the
    findings and passes of the entries checked before that one, while the
    entries after it are never looked at. *)
Theorem check_data_ranges_raises env df df_name before col bounds after s st :
  let d := frames st df in
  (forall c b s', In (c, b) before ->
                  loc (columns d) c = Some s' -> comparable s' = true) ->
  loc (columns d) col = Some s ->
  comparable s = false ->
  exists msg st',
    check_data_ranges env df df_name (before ++ (col, bounds) :: after) st
    = (Raise (TypeError msg), st') /\
    frames st' = frames st /\
    appends st st'
      (flat_map (range_findings env df_name d) before)
      (flat_map (range_passes df_name d) before).
Proof.
  intros d. apply check_data_ranges_raises_after.
Qed.

Lemma check_data_ranges_raises_witness :
  (forall c b s', In (c, b) [("occupancy_rate", (0, 100)%Z);
                            ("revenue", (0, 100)%Z)] ->
                  loc (columns frame_dated_capacity) c = Some s' ->
                  comparable s' = true) /\
  comparable
    (mkSeries Datetime [Date (26 * ns_per_day); Date (27 * ns_per_day)])
  = false /\
  exists msg st',
    check_data_ranges env_ex occupancy_df "occupancy_data"
      ([("occupancy_rate", (0, 100)%Z); ("revenue", (0, 100)%Z)]
       ++ ("capacity", (50, 200)%Z) :: [("desks", (0, 10)%Z)])
      (state_of frame_dated_capacity)
    = (Raise (TypeError msg), st') /\
    issues (checker st')
    = [range_finding env_ex "occupancy_data" "occupancy_rate" 1 0 100] /\
    passed_checks (checker st') = ["occupancy_data.revenue range check"].
Proof.
  assert (Hok : forall c b s',
             In (c, b) [("occupancy_rate", (0, 100)%Z);
                        ("revenue", (0, 100)%Z)] ->
             loc (columns frame_dated_capacity) c = Some s' ->
             comparable s' = true).
  { intros c b s' HIn Hloc. cbn in HIn.
    destruct HIn as [E|[E|[]]]; inversion E; subst; cbn in Hloc;
      inversion Hloc; reflexivity. }
  split; [exact Hok|]. split; [reflexivity|].
  destruct (check_data_ranges_raises env_ex occupancy_df "occupancy_data"
              [("occupancy_rate", (0, 100)%Z); ("revenue", (0, 100)%Z)]
              "capacity" (50, 200)%Z [("desks", (0, 10)%Z)]
              (mkSeries Datetime
                 [Date (26 * ns_per_day); Date (27 * ns_per_day)])
              (state_of frame_dated_capacity) Hok eq_refl eq_refl)
    as (msg & st' & E & _ & I & P).
  exists msg, st'. split; [exact E|]. split; [exact I | exact P].
Defined.

(** X7.  The range check returns normally exactly when every entry of the
    mapping whose column is present in the table names a column that can be
    compared with a number: a numeric column, or an [object] column holding
    only numbers and missing values. *)
Theorem check_data_ranges_returns_iff env df df_name range_checks st :
  (exists st',
      check_data_ranges env df df_name range_checks st = (Ok tt, st'))
  <-> (forall col b s,
          In (col, b) range_checks ->
          loc (columns (frames st df)) col = Some s -> comparable s = true).
Proof.
  split.
  - intros (st' & H). exact (check_data_ranges_returns_inv _ _ _ _ _ _ H).
  - intros H.
    destruct (check_data_ranges_emits env df df_name range_checks st H)
      as (st' & E & _).
    exists st'. exact E.
Qed.

(** ** After the date column was coerced *)

Lemma check_outliers_skips env df df_name col s st :
  loc (columns (frames st df)) col = Some s -> is_numeric_dtype s = false ->
  check_outliers env df df_name [col] st = (Ok tt, st).
Proof.
  intros Hloc Hdt. unfold check_outliers. cbn [for_each].
  unfold bind at 1. unfold check_outlier, get_frame, bind at 1.
  rewrite Hloc, Hdt. reflexivity.
Qed.

Lemma frames_after_parsed env df df_name date_column max_age_days s ts st :
  loc (columns (frames st df)) date_column = Some s ->
  to_datetime env s = Ok ts ->
  frames (snd (check_data_freshness env df df_name date_column max_age_days
                 st))
  = frames (with_column st df date_column (datetime_series ts)).
Proof.
  intros Hloc Hts.
  rewrite (check_data_freshness_parsed _ _ _ _ _ s ts st Hloc Hts).
  destruct (naive_minus _ _ _) as [a|e]; [|reflexivity].
  destruct (older_than _ _); reflexivity.
Qed.

(** X8.  Once the freshness check has coerced the date column, the table it
    was handed holds that column with a date dtype.  A later outlier check
    listing that column skips it without a pass, and a later range check on
    it raises a [TypeError]: dates are neither numeric nor comparable with
    numeric bounds. *)
Theorem freshness_retypes_date_column env df df_name date_column
    max_age_days s ts bounds st :
  loc (columns (frames st df)) date_column = Some s ->
  to_datetime env s = Ok ts ->
  let st' :=
    snd (check_data_freshness env df df_name date_column max_age_days st) in
  loc (columns (frames st' df)) date_column = Some (datetime_series ts) /\
  dt (datetime_series ts) = Datetime /\
  check_outliers env df df_name [date_column] st' = (Ok tt, st') /\
  exists msg,
    check_data_ranges env df df_name [(date_column, bounds)] st'
    = (Raise (TypeError msg), st').
Proof.
  intros Hloc Hts st'.
  assert (Hcol : loc (columns (frames st' df)) date_column
                 = Some (datetime_series ts)).
  { unfold st'.
    rewrite (frames_after_parsed _ _ _ _ _ s ts st Hloc Hts).
    unfold with_column. cbn [frames]. rewrite ref_eqb_refl.
    unfold set_column. cbn [columns]. exact (loc_set_loc _ _ _ _ Hloc). }
  split; [exact Hcol|]. split; [reflexivity|]. split.
  - apply (check_outliers_skips env df df_name date_column
             (datetime_series ts) st' Hcol). reflexivity.
  - destruct (check_range_raises env df df_name (date_column, bounds)
                (datetime_series ts) st' Hcol eq_refl) as (msg & Hr).
    exists msg. unfold check_data_ranges. cbn [for_each]. unfold bind.
    rewrite Hr. reflexivity.
Qed.

Lemma freshness_retypes_date_column_witness :
  loc (columns (frames (state_of frame_old_dates) occupancy_df)) "date"
  = Some (mkSeries Numeric
            [Num (inject_Z ns_per_day); Null;
             Num (inject_Z (8 * ns_per_day))]) /\
  to_datetime env_ex
    (mkSeries Numeric
       [Num (inject_Z ns_per_day); Null; Num (inject_Z (8 * ns_per_day))])
  = Ok [Some ns_per_day; None; Some (8 * ns_per_day)%Z] /\
  fst (check_outliers env_ex occupancy_df "occupancy_data" ["date"]
         (snd (check_data_freshness env_ex occupancy_df "occupancy_data"
                 "date" 7 (state_of frame_old_dates))))
  = Ok tt /\
  passed_checks
    (checker
       (snd (check_outliers env_ex occupancy_df "occupancy_data" ["date"]
               (snd (check_data_freshness env_ex occupancy_df
                       "occupancy_data" "date" 7
                       (state_of frame_old_dates))))))
  = [] /\
  passed_checks
    (checker
       (snd (check_outliers env_ex occupancy_df "occupancy_data" ["date"]
               (state_of frame_old_dates))))
  = ["occupancy_data.date outlier check"].
Proof.
  split; [reflexivity|]. split; [reflexivity|].
  destruct (freshness_retypes_date_column env_ex occupancy_df
              "occupancy_data" "date" 7
              (mkSeries Numeric
                 [Num (inject_Z ns_per_day); Null;
                  Num (inject_Z (8 * ns_per_day))])
              [Some ns_per_day; None; Some (8 * ns_per_day)%Z]
              (0, 100)%Z (state_of frame_old_dates) eq_refl eq_refl)
    as (_ & _ & Hout & _).
  rewrite Hout. split; [reflexivity|]. split; vm_compute; reflexivity.
Defined.

(** ** Columns without spread *)

Lemma sub_self (r : float64) : zero_or_nan (Float64.sub r r).
Proof.
  destruct r as [[]|[]| |s m e];
    try (left; eexists; reflexivity); try (right; reflexivity).
  left. exists false. unfold Float64.sub, SpecFloat.SFsub.
  rewrite Z.sub_diag. reflexivity.
Qed.

Lemma mul_zero_or_nan_l (d t : float64) :
  zero_or_nan d -> zero_or_nan (Float64.mul d t).
Proof.
  intros [(s & ->) | ->].
  - destruct t as [st|st| |st m e]; cbn;
      try (left; eexists; reflexivity); right; reflexivity.
  - right. reflexivity.
Qed.

Lemma mul_zero_or_nan_r (d t : float64) :
  zero_or_nan d -> zero_or_nan (Float64.mul t d).
Proof.
  intros [(s & ->) | ->].
  - destruct t as [st|st| |st m e]; cbn;
      try (left; eexists; reflexivity); right; reflexivity.
  - right. destruct t; reflexivity.
Qed.

Lemma add_zero_or_nan (r e : float64) :
  plain r -> zero_or_nan e -> near r (Float64.add r e).
Proof.
  intros [Hn Hz] [(s & ->) | ->].
  - left. destruct r as [[]|[]| |[] m ex], s; try reflexivity;
      try (exfalso; apply Hz; reflexivity);
      exfalso; apply Hn; reflexivity.
  - right. destruct r; reflexivity.
Qed.

Lemma sub_zero_or_nan (r e : float64) :
  plain r -> zero_or_nan e -> near r (Float64.sub r e).
Proof.
  intros [Hn Hz] [(s & ->) | ->].
  - left. destruct r as [[]|[]| |[] m ex], s; try reflexivity;
      try (exfalso; apply Hz; reflexivity);
      exfalso; apply Hn; reflexivity.
  - right. destruct r; reflexivity.
Qed.

Lemma lerp_constant (r t : float64) : plain r -> near r (lerp r r t).
Proof.
  intros Hr. unfold lerp.
  destruct (Float64.leb _ t).
  - apply sub_zero_or_nan; [exact Hr|].
    apply mul_zero_or_nan_l, sub_self.
  - apply add_zero_or_nan; [exact Hr|].
    apply mul_zero_or_nan_l, sub_self.
Qed.

Lemma In_numbers (s : Series) (q : Q) :
  In q (numbers s) <-> In (Num q) (values s).
Proof.
  unfold numbers. rewrite in_flat_map. split.
  - intros (c & Hc & Hq). destruct c; try contradiction.
    destruct Hq as [<- | []]. exact Hc.
  - intros H. exists (Num q). split; [exact H | left; reflexivity].
Qed.

Lemma nth_In_default {A : Type} (l : list A) (n : nat) (d : A) :
  In d l -> In (nth n l d) l.
Proof.
  intros Hd. destruct (Nat.lt_ge_cases n (List.length l)) as [H|H].
  - apply nth_In. exact H.
  - rewrite nth_overflow by exact H. exact Hd.
Qed.

(** Every quantile of a series whose numbers are all equal is that number,
    when it is a number at all. *)
Lemma quantile_constant (s : Series) (p c : Q) :
  (forall q, In (Num q) (values s) -> (q == c)%Q) ->
  near (Float64.of_Q c) (quantile s p).
Proof.
  intros Hall. unfold quantile.
  destruct (sort_values (float64_values s)) as [|x0 xs] eqn:E.
  { right. reflexivity. }
  assert (Hin : forall x, In x (x0 :: xs) -> x = Float64.of_Q c).
  { intros x Hx. rewrite <- E in Hx.
    apply (Permutation_in x (sort_values_perm _)) in Hx.
    unfold float64_values in Hx. apply in_map_iff in Hx.
    destruct Hx as (q & <- & Hq). apply of_Q_comp, Hall, In_numbers, Hq. }
  cbv zeta.
  rewrite (Hin (nth _ (x0 :: xs) x0))
    by (apply nth_In_default; left; reflexivity).
  rewrite (Hin (nth (Nat.min _ _) (x0 :: xs) x0))
    by (apply nth_In_default; left; reflexivity).
  apply lerp_constant, of_Q_plain.
Qed.

Lemma sub_near (r x y : float64) :
  near r x -> near r y -> zero_or_nan (Float64.sub x y).
Proof.
  intros [-> | ->] [-> | ->].
  - apply sub_self.
  - right. destruct r; reflexivity.
  - right. reflexivity.
  - right. reflexivity.
Qed.

Lemma ltb_near (r x : float64) : near r x -> Float64.ltb r x = false.
Proof.
  intros [-> | ->]; [apply float64_ltb_irrefl|]. destruct r; reflexivity.
Qed.

Lemma gtb_near (r x : float64) : near r x -> Float64.gtb r x = false.
Proof.
  unfold Float64.gtb. intros [-> | ->]; [apply float64_ltb_irrefl|].
  reflexivity.
Qed.

Lemma outlier_count_constant (s : Series) (c : Q) :
  (forall q, In (Num q) (values s) -> (q == c)%Q) ->
  outlier_count s = 0%nat.
Proof.
  intros Hall. unfold outlier_count. apply length_zero_iff_nil.
  apply filter_nil_all. intros [ |q|t|t| ] Hc; try reflexivity.
  pose proof (quantile_constant s (1 # 4) c Hall) as H1.
  pose proof (quantile_constant s (3 # 4) c Hall) as H3.
  pose proof (of_Q_plain c) as Hp.
  unfold strictly_outside.
  rewrite (of_Q_comp q c (Hall q Hc)).
  set (IQR := Float64.sub (quantile s (3 # 4)) (quantile s (1 # 4))).
  assert (HI : zero_or_nan IQR) by exact (sub_near _ _ _ H3 H1).
  assert (Hm : zero_or_nan (Float64.mul (Float64.of_Q (3 # 2)) IQR))
    by exact (mul_zero_or_nan_r _ _ HI).
  rewrite ltb_near, gtb_near; [reflexivity | |].
  - destruct H3 as [-> | ->]; [apply add_zero_or_nan; assumption|].
    right. reflexivity.
  - destruct H1 as [-> | ->]; [apply sub_zero_or_nan; assumption|].
    right. reflexivity.
Qed.

(** X9.  A numeric column whose numbers are all equal has no outliers: both
    quartiles are that number, the fences collapse onto it, and the outlier
    check records its pass, whatever the number of rows and of missing
    values. *)
Theorem check_outliers_constant env df df_name col s c st :
  loc (columns (frames st df)) col = Some s ->
  dt s = Numeric ->
  (forall q, In (Num q) (values s) -> (q == c)%Q) ->
  emits (check_outliers env df df_name [col]) st
    [] [outlier_pass df_name col].
Proof.
  intros Hloc Hdt Hall.
  pose proof (check_outliers_numeric env df df_name col s st Hloc Hdt) as H.
  cbv zeta in H. rewrite (outlier_count_constant s c Hall) in H.
  assert (Hno : above_5pct 0 (nrows (frames st df)) = false).
  { unfold above_5pct. apply Z.ltb_ge. lia. }
  rewrite Hno in H. exact H.
Qed.

Lemma check_outliers_constant_witness :
  loc (columns (frames (state_of frame_capacity) occupancy_df)) "capacity"
  = Some (mkSeries Numeric
            [Num 100; Num (200 # 2); Null; Num 100; Num 100; Num 100]) /\
  emits (check_outliers env_ex occupancy_df "occupancy_data" ["capacity"])
    (state_of frame_capacity)
    [] ["occupancy_data.capacity outlier check"].
Proof.
  split; [reflexivity|].
  apply (check_outliers_constant env_ex occupancy_df "occupancy_data"
           "capacity"
           (mkSeries Numeric
              [Num 100; Num (200 # 2); Null; Num 100; Num 100; Num 100])
           100%Q (state_of frame_capacity) eq_refl eq_refl).
  intros q Hq. cbn in Hq.
  destruct Hq as [E|[E|[E|[E|[E|[E|[]]]]]]]; inversion E; subst; reflexivity.
Defined.

(** ** When the run gives a report *)

Lemma bind_ok {A B : Type} (m : M A) (k : A -> M B) (st st' : State) (a : A) :
  m st = (Ok a, st') -> bind m k st = k a st'.
Proof. intros H. unfold bind. rewrite H. reflexivity. Qed.

Lemma bind_raise {A B : Type} (m : M A) (k : A -> M B) (st st' : State)
    (e : exn) :
  m st = (Raise e, st') -> bind m k st = (Raise e, st').
Proof. intros H. unfold bind. rewrite H. reflexivity. Qed.

Lemma emits_size (m : M unit) st fs ps :
  emits m st fs ps ->
  exists st',
    m st = (Ok tt, st') /\ frames st' = frames st /\
    ledger_size st'
    = (ledger_size st + (List.length fs + List.length ps))%nat.
Proof.
  intros (st' & E & F & I & P). exists st'. split; [exact E|].
  split; [exact F|]. unfold ledger_size. rewrite I, P, !length_app. lia.
Qed.

Lemma emits_size_one (m : M unit) st fs ps :
  emits m st fs ps ->
  (List.length fs + List.length ps)%nat = 1%nat ->
  exists st',
    m st = (Ok tt, st') /\ frames st' = frames st /\
    ledger_size st' = (ledger_size st + 1)%nat.
Proof.
  intros H Hone. destruct (emits_size m st fs ps H) as (st' & E & F & S).
  exists st'. split; [exact E|]. split; [exact F|]. lia.
Qed.

Lemma check_missing_values_step env df df_name st :
  NoDup (labels (frames st df)) ->
  exists st',
    check_missing_values env df df_name st = (Ok tt, st') /\
    frames st' = frames st /\
    (ledger_size st + 1 <= ledger_size st')%nat.
Proof.
  intros ND.
  destruct (emits_size _ _ _ _
              (check_missing_values_emits env df df_name st ND))
    as (st' & E & F & S).
  exists st'. split; [exact E|]. split; [exact F|].
  rewrite S, length_map.
  destruct (filter has_nulls (isnull_sum (frames st df))); cbn; lia.
Qed.

Lemma select_present (cols : list (string * Series)) (keys : list string) :
  (forall k, In k keys -> loc cols k <> None) ->
  exists ss, select cols keys = Ok ss.
Proof.
  induction keys as [|k keys IH]; intros H; cbn.
  - eexists; reflexivity.
  - destruct (loc cols k) as [s|] eqn:E.
    + destruct IH as (ss & ->); [intros k' Hk'; apply H; right; exact Hk'|].
      eexists; reflexivity.
    + exfalso. apply (H k); [left; reflexivity | exact E].
Qed.

Lemma check_duplicates_step env df df_name subset st :
  (forall keys k, subset = Some keys -> In k keys ->
                  loc (columns (frames st df)) k <> None) ->
  exists st',
    check_duplicates env df df_name subset st = (Ok tt, st') /\
    frames st' = frames st /\
    ledger_size st' = (ledger_size st + 1)%nat.
Proof.
  intros Hkeys.
  assert (Hm : exists marks,
             (if truthy subset then duplicated (frames st df) subset
              else duplicated (frames st df) None) = Ok marks).
  { unfold duplicated. destruct (empty (frames st df)).
    - destruct (truthy subset); eexists; reflexivity.
    - destruct subset as [keys|]; cbn [truthy].
      + destruct keys as [|k keys]; [eexists; reflexivity|].
        destruct (select_present (columns (frames st df)) (k :: keys))
          as (ss & ->).
        * intros k' Hk'. exact (Hkeys (k :: keys) k' eq_refl Hk').
        * eexists; reflexivity.
      + eexists; reflexivity. }
  destruct Hm as (marks & Hm).
  unfold check_duplicates, get_frame, bind at 1. rewrite Hm.
  unfold lift, bind at 1.
  destruct (0 <? sum_true marks)%nat.
  - eapply emits_size_one; [apply emits_add_issue | reflexivity].
  - eapply emits_size_one; [apply emits_add_pass | reflexivity].
Qed.

Lemma check_data_ranges_step env df df_name range_checks st :
  (forall col b s, In (col, b) range_checks ->
                   loc (columns (frames st df)) col = Some s ->
                   comparable s = true) ->
  exists st',
    check_data_ranges env df df_name range_checks st = (Ok tt, st') /\
    frames st' = frames st /\
    (ledger_size st <= ledger_size st')%nat.
Proof.
  intros Hc.
  destruct (emits_size _ _ _ _
              (check_data_ranges_emits env df df_name range_checks st Hc))
    as (st' & E & F & S).
  exists st'. split; [exact E|]. split; [exact F | lia].
Qed.

Lemma check_outliers_step env df df_name numeric_columns st :
  (forall col s, In col numeric_columns ->
                 loc (columns (frames st df)) col = Some s ->
                 has_quantiles s = true) ->
  exists st',
    check_outliers env df df_name numeric_columns st = (Ok tt, st') /\
    frames st' = frames st /\
    (ledger_size st <= ledger_size st')%nat.
Proof.
  intros Hq.
  destruct (emits_size _ _ _ _
              (check_outliers_emits env df df_name numeric_columns st Hq))
    as (st' & E & F & S).
  exists st'. split; [exact E|]. split; [exact F | lia].
Qed.

Lemma frames_after_freshness env df df_name date_column max_age_days st :
  let d := frames st df in
  let d' :=
    frames (snd (check_data_freshness env df df_name date_column
                   max_age_days st)) df in
  nrows d' = nrows d /\
  forall c, String.eqb c date_column = false ->
            loc (columns d') c = loc (columns d) c.
Proof.
  cbv zeta.
  destruct (check_data_freshness_frames env df df_name date_column
              max_age_days st) as [H | (s & ts & _ & _ & H)];
    cbv zeta in H; rewrite H.
  - split; reflexivity.
  - unfold with_column. cbn [frames]. rewrite ref_eqb_refl.
    split; [reflexivity|]. intros c Hc.
    unfold set_column. cbn [columns]. apply loc_set_loc_other. exact Hc.
Qed.

Lemma check_data_freshness_step env df df_name date_column max_age_days st :
  exists st',
    check_data_freshness env df df_name date_column max_age_days st
    = (Ok tt, st') /\
    (forall r, ref_eqb r df = false -> frames st' r = frames st r) /\
    (ledger_size st <= ledger_size st')%nat /\
    (loc (columns (frames st df)) date_column <> None ->
     ledger_size st' = (ledger_size st + 1)%nat).
Proof.
  destruct (loc (columns (frames st df)) date_column) as [s|] eqn:Hloc.
  - destruct (to_datetime env s) as [ts|e] eqn:Hts.
    + rewrite (check_data_freshness_parsed _ _ _ _ _ s ts st Hloc Hts).
      assert (Hfr : forall r, ref_eqb r df = false ->
                      frames (with_column st df date_column
                                (datetime_series ts)) r = frames st r).
      { intros r Hr. unfold with_column. cbn [frames]. rewrite Hr.
        reflexivity. }
      assert (Hsz : ledger_size (with_column st df date_column
                                   (datetime_series ts)) = ledger_size st)
        by reflexivity.
      destruct (naive_minus _ _ _) as [age_days|e].
      2:{ destruct (emits_size_one _ _ _ _
                      (emits_add_issue env MEDIUM DateParsing
                         (df_name +++ ": Error parsing date column '" +++
                          date_column +++ "': " +++ str_exn e) None
                         (with_column st df date_column
                            (datetime_series ts))) eq_refl)
            as (st' & E & F & S).
          exists st'. split; [exact E|]. rewrite F, S, Hsz.
          split; [exact Hfr|]. split; [lia|]. intros _. reflexivity. }
      destruct (older_than _ _).
      * destruct (emits_size_one _ _ _ _
                    (emits_add_issue env HIGH DataFreshness
                       (df_name +++ ": Latest data is " +++
                        show_age age_days +++ " days old (threshold: " +++
                        show_Z max_age_days +++ " days)")
                       (Some (DFreshness (str_timestamp env (latest_of ts))
                                age_days))
                       (with_column st df date_column (datetime_series ts)))
                    eq_refl)
          as (st' & E & F & S).
        exists st'. split; [exact E|]. rewrite F, S, Hsz.
        split; [exact Hfr|]. split; [lia|]. intros _. reflexivity.
      * destruct (emits_size_one _ _ _ _
                    (emits_add_pass (df_name +++ " freshness check")
                       (with_column st df date_column (datetime_series ts)))
                    eq_refl)
          as (st' & E & F & S).
        exists st'. split; [exact E|]. rewrite F, S, Hsz.
        split; [exact Hfr|]. split; [lia|]. intros _. reflexivity.
    + rewrite (check_data_freshness_unparsed _ _ _ _ _ s e st Hloc Hts).
      destruct (emits_size_one _ _ _ _
                  (emits_add_issue env MEDIUM DateParsing
                     (df_name +++ ": Error parsing date column '" +++
                      date_column +++ "': " +++ str_exn e) None st) eq_refl)
        as (st' & E & F & S).
      exists st'. split; [exact E|]. rewrite F, S.
      split; [reflexivity|]. split; [lia|]. intros _. reflexivity.
  - rewrite (check_data_freshness_absent _ _ _ _ _ st Hloc).
    exists st. split; [reflexivity|]. split; [reflexivity|].
    split; [lia|]. intros H. exfalso. apply H. reflexivity.
Qed.

(** The checks of each table. *)
Lemma occupancy_checks_step env st :
  let o := frames st occupancy_df in
  NoDup (labels o) ->
  loc (columns o) "date" <> None ->
  loc (columns o) "location" <> None ->
  (forall col s, In col ["occupancy_rate"; "capacity"] ->
                 loc (columns o) col = Some s -> comparable s = true) ->
  (forall s, loc (columns o) "occupancy_rate" = Some s ->
             has_quantiles s = true) ->
  exists st',
    occupancy_checks env st = (Ok tt, st') /\
    (forall r, ref_eqb r occupancy_df = false -> frames st' r = frames st r) /\
    (ledger_size st + 3 <= ledger_size st')%nat.
Proof.
  intros o ND Hdate Hloc Hcmp Hq. unfold occupancy_checks.
  destruct (check_missing_values_step env occupancy_df "occupancy_data" st ND)
    as (st1 & E1 & F1 & S1).
  rewrite (bind_ok _ _ _ _ _ E1).
  destruct (check_duplicates_step env occupancy_df "occupancy_data"
              (Some ["date"; "location"]) st1) as (st2 & E2 & F2 & S2).
  { intros keys k Hk HIn. inversion Hk; subst keys. rewrite F1.
    destruct HIn as [<- | [<- | []]]; assumption. }
  rewrite (bind_ok _ _ _ _ _ E2).
  destruct (check_data_ranges_step env occupancy_df "occupancy_data"
              [("occupancy_rate", (0, 100)%Z); ("capacity", (50, 200)%Z)]
              st2) as (st3 & E3 & F3 & S3).
  { intros col b s HIn Hs. rewrite F2, F1 in Hs.
    apply (Hcmp col s); [|exact Hs].
    destruct HIn as [E | [E | []]]; inversion E; cbn; tauto. }
  rewrite (bind_ok _ _ _ _ _ E3).
  destruct (check_data_freshness_step env occupancy_df "occupancy_data"
              "date" 7 st3) as (st4 & E4 & F4 & _ & S4).
  rewrite (bind_ok _ _ _ _ _ E4).
  destruct (check_outliers_step env occupancy_df "occupancy_data"
              ["occupancy_rate"] st4) as (st5 & E5 & F5 & S5).
  { intros col s [<- | []] Hs. apply Hq.
    destruct (frames_after_freshness env occupancy_df "occupancy_data"
                "date" 7 st3) as (_ & Hl).
    rewrite E4 in Hl. cbn [snd] in Hl.
    rewrite (Hl "occupancy_rate" eq_refl), F3, F2, F1 in Hs. exact Hs. }
  exists st5. split; [exact E5|]. split.
  - intros r Hr. rewrite F5, (F4 r Hr), F3, F2, F1. reflexivity.
  - assert (S4' : ledger_size st4 = (ledger_size st3 + 1)%nat).
    { apply S4. rewrite F3, F2, F1. exact Hdate. }
    lia.
Qed.

Lemma revenue_checks_step env st :
  let r := frames st revenue_df in
  NoDup (labels r) ->
  (forall col s, In col ["revenue"; "units_sold"] ->
                 loc (columns r) col = Some s -> comparable s = true) ->
  exists st',
    revenue_checks env st = (Ok tt, st') /\
    frames st' = frames st /\
    (ledger_size st + 2 <= ledger_size st')%nat.
Proof.
  intros r ND Hcmp. unfold revenue_checks.
  destruct (check_missing_values_step env revenue_df "revenue_data" st ND)
    as (st1 & E1 & F1 & S1).
  rewrite (bind_ok _ _ _ _ _ E1).
  destruct (check_duplicates_step env revenue_df "revenue_data" None st1)
    as (st2 & E2 & F2 & S2); [discriminate|].
  rewrite (bind_ok _ _ _ _ _ E2).
  destruct (check_data_ranges_step env revenue_df "revenue_data"
              [("revenue", (0, 10000000)%Z); ("units_sold", (0, 500)%Z)]
              st2) as (st3 & E3 & F3 & S3).
  { intros col b s HIn Hs. rewrite F2, F1 in Hs.
    apply (Hcmp col s); [|exact Hs].
    destruct HIn as [E | [E | []]]; inversion E; cbn; tauto. }
  exists st3. split; [exact E3|]. split; [congruence | lia].
Qed.

Lemma member_checks_step env st :
  let m := frames st member_df in
  NoDup (labels m) ->
  loc (columns m) "member_id" <> None ->
  exists st',
    member_checks env st = (Ok tt, st') /\
    (ledger_size st + 2 <= ledger_size st')%nat.
Proof.
  intros m ND Hid. unfold member_checks.
  destruct (check_missing_values_step env member_df "member_data" st ND)
    as (st1 & E1 & F1 & S1).
  rewrite (bind_ok _ _ _ _ _ E1).
  destruct (check_duplicates_step env member_df "member_data"
              (Some ["member_id"]) st1) as (st2 & E2 & F2 & S2).
  { intros keys k Hk HIn. inversion Hk; subst keys. rewrite F1.
    destruct HIn as [<- | []]. exact Hid. }
  rewrite (bind_ok _ _ _ _ _ E2).
  destruct (check_data_freshness_step env member_df "member_data"
              "join_date" 365 st2) as (st3 & E3 & _ & S3 & _).
  exists st3. split; [exact E3 | lia].
Qed.

(** X10.  Let the three files exist and hold tables with distinct labels;
    let the occupancy table have its [date] and [location] columns and the
    member table its [member_id] column; let the range-checked columns that
    are present ([occupancy_rate], [capacity], [revenue], [units_sold]) hold
    only numbers and missing values, the occupancy rates not being a column
    of booleans with rows.  Then no check raises and the run gives
    a report, whatever else the tables hold.  The report counts at least
    seven results, its total is the passes plus the findings, it lists every
    finding, and the findings are written to the export file exactly when
    there is at least one. *)
Theorem run_quality_checks_reports env read_csv o r m :
  read_csv "occupancy_data.csv" = Some o ->
  read_csv "revenue_data.csv" = Some r ->
  read_csv "member_data.csv" = Some m ->
  NoDup (labels o) -> NoDup (labels r) -> NoDup (labels m) ->
  has_column o "date" = true ->
  has_column o "location" = true ->
  has_column m "member_id" = true ->
  (forall col s, In col ["occupancy_rate"; "capacity"] ->
                 loc (columns o) col = Some s -> comparable s = true) ->
  (forall s, loc (columns o) "occupancy_rate" = Some s ->
             has_quantiles s = true) ->
  (forall col s, In col ["revenue"; "units_sold"] ->
                 loc (columns r) col = Some s -> comparable s = true) ->
  exists run,
    run_quality_checks env read_csv = Some run /\
    total_checks (report run)
    = (passed (report run) + issues_count (report run))%nat /\
    issues_count (report run) = List.length (issues_detail (report run)) /\
    exported run
    = (if (issues_count (report run) =? 0)%nat then None
       else Some (issues_detail (report run))) /\
    (7 <= total_checks (report run))%nat.
Proof.
  intros Ho Hr Hm NDo NDr NDm Hdate Hloc Hid Hco Hqo Hcr.
  assert (Hpresent : forall d col, has_column d col = true ->
                                   loc (columns d) col <> None).
  { intros d col H. unfold has_column in H.
    destruct (loc (columns d) col); [discriminate | discriminate H]. }
  unfold run_quality_checks. rewrite Ho, Hr, Hm.
  change (mkState _ new_checker) with (initial_state o r m).
  set (st0 := initial_state o r m).
  destruct (occupancy_checks_step env st0 NDo (Hpresent _ _ Hdate)
              (Hpresent _ _ Hloc) Hco Hqo) as (st1 & E1 & F1 & S1).
  destruct (revenue_checks_step env st1) as (st2 & E2 & F2 & S2).
  { rewrite (F1 revenue_df eq_refl). exact NDr. }
  { rewrite (F1 revenue_df eq_refl). exact Hcr. }
  destruct (member_checks_step env st2) as (st3 & E3 & S3).
  { rewrite F2, (F1 member_df eq_refl). exact NDm. }
  { rewrite F2, (F1 member_df eq_refl). exact (Hpresent _ _ Hid). }
  unfold all_checks.
  rewrite (bind_ok _ _ _ _ _ E1), (bind_ok _ _ _ _ _ E2),
    (bind_ok _ _ _ _ _ E3).
  unfold generate_report. eexists. split; [reflexivity|].
  cbn [report exported total_checks passed issues_count issues_detail].
  split; [reflexivity|]. split; [reflexivity|]. split.
  - destruct (issues (checker st3)); reflexivity.
  - unfold ledger_size in S1, S2, S3. cbn in S1. lia.
Qed.

Lemma run_quality_checks_reports_witness :
  exists run,
    run_quality_checks env_ex (files occupancy_bad_dates) = Some run /\
    total_checks (report run)
    = (passed (report run) + issues_count (report run))%nat /\
    issues_count (report run) = List.length (issues_detail (report run)) /\
    exported run
    = (if (issues_count (report run) =? 0)%nat then None
       else Some (issues_detail (report run))) /\
    (7 <= total_checks (report run))%nat.
Proof.
  apply (run_quality_checks_reports env_ex (files occupancy_bad_dates)
           occupancy_bad_dates frame_clean member_ex);
    try reflexivity.
  - cbn. repeat constructor; cbn; intuition discriminate.
  - cbn. repeat constructor; cbn; intuition discriminate.
  - cbn. repeat constructor; cbn; intuition discriminate.
  - intros col s [<- | [<- | []]] Hs; cbn in Hs; inversion Hs; reflexivity.
  - intros s Hs; cbn in Hs; inversion Hs; reflexivity.
  - intros col s [<- | [<- | []]] Hs; cbn in Hs; inversion Hs; reflexivity.
Defined.

(** ** When the run gives none *)

Lemma raises_bind {A B : Type} (m : M A) (k : A -> M B) (st : State) :
  raises m st -> raises (bind m k) st.
Proof.
  intros (e & st' & H). exists e, st'. apply bind_raise. exact H.
Qed.

Lemma raises_bind_after {A B : Type} (m : M A) (k : A -> M B)
    (st st1 : State) (a : A) :
  m st = (Ok a, st1) -> raises (k a) st1 -> raises (bind m k) st.
Proof.
  intros H (e & st' & Hk). exists e, st'.
  rewrite (bind_ok _ _ _ _ _ H). exact Hk.
Qed.

Lemma touches_only_preserves {A : Type} (df : ref) (m : M A) :
  preserves_frames m -> touches_only df m.
Proof. intros H st r _. rewrite H. reflexivity. Qed.

Lemma touches_only_bind {A B : Type} (df : ref) (m : M A) (k : A -> M B) :
  touches_only df m -> (forall a, touches_only df (k a)) ->
  touches_only df (bind m k).
Proof.
  intros Hm Hk st r Hr. unfold bind. specialize (Hm st r Hr).
  destruct (m st) as [[a|e] st1]; cbn in *.
  - rewrite (Hk a st1 r Hr). exact Hm.
  - exact Hm.
Qed.

Lemma touches_only_freshness env df df_name date_column max_age_days :
  touches_only df
    (check_data_freshness env df df_name date_column max_age_days).
Proof.
  intros st r Hr.
  destruct (check_data_freshness_frames env df df_name date_column
              max_age_days st) as [H | (s & ts & _ & _ & H)];
    cbv zeta in H; rewrite H; [reflexivity|].
  unfold with_column. cbn [frames]. rewrite Hr. reflexivity.
Qed.

Lemma touches_only_occupancy_checks env :
  touches_only occupancy_df (occupancy_checks env).
Proof.
  unfold occupancy_checks.
  apply touches_only_bind;
    [apply touches_only_preserves, pf_check_missing_values | intros _].
  apply touches_only_bind;
    [apply touches_only_preserves, pf_check_duplicates | intros _].
  apply touches_only_bind;
    [apply touches_only_preserves, pf_check_data_ranges | intros _].
  apply touches_only_bind; [apply touches_only_freshness | intros _].
  apply touches_only_preserves, pf_check_outliers.
Qed.

(** A battery that reaches a range check over a column that cannot be
    compared raises, whatever the checks before it do. *)
Lemma ranges_after_raise env df df_name1 df_name2 df_name3 subset
    range_checks col bounds s (k : M unit) st :
  In (col, bounds) range_checks ->
  loc (columns (frames st df)) col = Some s ->
  comparable s = false ->
  raises (check_missing_values env df df_name1 ;;;
          check_duplicates env df df_name2 subset ;;;
          check_data_ranges env df df_name3 range_checks ;;; k) st.
Proof.
  intros HIn Hloc Hc.
  pose proof (pf_check_missing_values env df df_name1 st) as F1.
  destruct (check_missing_values env df df_name1 st) as [[[]|e1] st1] eqn:E1;
    [|apply raises_bind; exists e1, st1; exact E1].
  cbn in F1. apply (raises_bind_after _ _ _ _ _ E1).
  pose proof (pf_check_duplicates env df df_name2 subset st1) as F2.
  destruct (check_duplicates env df df_name2 subset st1)
    as [[[]|e2] st2] eqn:E2;
    [|apply raises_bind; exists e2, st2; exact E2].
  cbn in F2. apply (raises_bind_after _ _ _ _ _ E2).
  apply raises_bind.
  destruct (check_data_ranges env df df_name3 range_checks st2)
    as [[[]|e3] st3] eqn:E3; [|exists e3, st3; exact E3].
  exfalso.
  pose proof (check_data_ranges_returns_inv env df df_name3 range_checks
                st2 st3 E3 col bounds s HIn) as H.
  rewrite F2, F1 in H. rewrite (H Hloc) in Hc. discriminate.
Qed.

Lemma ranges_after_raise_last env df df_name1 df_name2 df_name3 subset
    range_checks col bounds s st :
  In (col, bounds) range_checks ->
  loc (columns (frames st df)) col = Some s ->
  comparable s = false ->
  raises (check_missing_values env df df_name1 ;;;
          check_duplicates env df df_name2 subset ;;;
          check_data_ranges env df df_name3 range_checks) st.
Proof.
  intros HIn Hloc Hc.
  pose proof (pf_check_missing_values env df df_name1 st) as F1.
  destruct (check_missing_values env df df_name1 st) as [[[]|e1] st1] eqn:E1;
    [|apply raises_bind; exists e1, st1; exact E1].
  cbn in F1. apply (raises_bind_after _ _ _ _ _ E1).
  pose proof (pf_check_duplicates env df df_name2 subset st1) as F2.
  destruct (check_duplicates env df df_name2 subset st1)
    as [[[]|e2] st2] eqn:E2;
    [|apply raises_bind; exists e2, st2; exact E2].
  cbn in F2. apply (raises_bind_after _ _ _ _ _ E2).
  destruct (check_data_ranges env df df_name3 range_checks st2)
    as [[[]|e3] st3] eqn:E3; [|exists e3, st3; exact E3].
  exfalso.
  pose proof (check_data_ranges_returns_inv env df df_name3 range_checks
                st2 st3 E3 col bounds s HIn) as H.
  rewrite F2, F1 in H. rewrite (H Hloc) in Hc. discriminate.
Qed.

Lemma run_none_of_raises env read_csv o r m :
  read_csv "occupancy_data.csv" = Some o ->
  read_csv "revenue_data.csv" = Some r ->
  read_csv "member_data.csv" = Some m ->
  raises (all_checks env) (initial_state o r m) ->
  run_quality_checks env read_csv = None.
Proof.
  intros Ho Hr Hm (e & st' & H). unfold run_quality_checks.
  rewrite Ho, Hr, Hm.
  change (mkState _ new_checker) with (initial_state o r m).
  rewrite H. reflexivity.
Qed.

(** X11.  The run gives no report when one of the three files is missing,
    and also when a range-checked column of the occupancy table
    ([occupancy_rate], [capacity]) or of the revenue table ([revenue],
    [units_sold]) is present but cannot be compared with a number (text or
    dates in it): the exception leaves the checks and ends the run, whatever
    the other columns and tables hold. *)
Theorem run_quality_checks_aborts env read_csv :
  (read_csv "occupancy_data.csv" = None \/
   read_csv "revenue_data.csv" = None \/
   read_csv "member_data.csv" = None ->
   run_quality_checks env read_csv = None) /\
  (forall o col s,
      read_csv "occupancy_data.csv" = Some o ->
      In col ["occupancy_rate"; "capacity"] ->
      loc (columns o) col = Some s -> comparable s = false ->
      run_quality_checks env read_csv = None) /\
  (forall r col s,
      read_csv "revenue_data.csv" = Some r ->
      In col ["revenue"; "units_sold"] ->
      loc (columns r) col = Some s -> comparable s = false ->
      run_quality_checks env read_csv = None).
Proof.
  split; [|split].
  - intros H. unfold run_quality_checks.
    destruct (read_csv "occupancy_data.csv"); [|reflexivity].
    destruct (read_csv "revenue_data.csv");
      [|destruct (read_csv "member_data.csv"); reflexivity].
    destruct (read_csv "member_data.csv"); [|reflexivity].
    destruct H as [H | [H | H]]; discriminate H.
  - intros o col s Ho HIn Hloc Hc.
    destruct (read_csv "revenue_data.csv") as [r|] eqn:Hr;
      [|unfold run_quality_checks; rewrite Ho, Hr; reflexivity].
    destruct (read_csv "member_data.csv") as [m|] eqn:Hm;
      [|unfold run_quality_checks; rewrite Ho, Hr, Hm; reflexivity].
    apply (run_none_of_raises env read_csv o r m Ho Hr Hm).
    unfold all_checks. apply raises_bind. unfold occupancy_checks.
    assert (Hb : exists bounds,
               In (col, bounds)
                  [("occupancy_rate", (0, 100)%Z);
                   ("capacity", (50, 200)%Z)]).
    { destruct HIn as [<- | [<- | []]]; eexists; cbn; eauto. }
    destruct Hb as (bounds & Hb).
    exact (ranges_after_raise env occupancy_df _ _ _ _ _ col bounds s _
             (initial_state o r m) Hb Hloc Hc).
  - intros r col s Hr HIn Hloc Hc.
    destruct (read_csv "occupancy_data.csv") as [o|] eqn:Ho;
      [|unfold run_quality_checks; rewrite Ho; reflexivity].
    destruct (read_csv "member_data.csv") as [m|] eqn:Hm;
      [|unfold run_quality_checks; rewrite Ho, Hr, Hm; reflexivity].
    apply (run_none_of_raises env read_csv o r m Ho Hr Hm).
    unfold all_checks.
    pose proof (touches_only_occupancy_checks env (initial_state o r m)
                  revenue_df eq_refl) as F1.
    destruct (occupancy_checks env (initial_state o r m))
      as [[[]|e1] st1] eqn:E1;
      [|apply raises_bind; exists e1, st1; exact E1].
    cbn in F1. apply (raises_bind_after _ _ _ _ _ E1).
    apply raises_bind. unfold revenue_checks.
    assert (Hb : exists bounds,
               In (col, bounds)
                  [("revenue", (0, 10000000)%Z);
                   ("units_sold", (0, 500)%Z)]).
    { destruct HIn as [<- | [<- | []]]; eexists; cbn; eauto. }
    destruct Hb as (bounds & Hb).
    apply (ranges_after_raise_last env revenue_df _ _ _ _ _ col bounds s st1
             Hb); [rewrite F1; exact Hloc | exact Hc].
Qed.

Lemma run_quality_checks_aborts_witness :
  files occupancy_text "occupancy_data.csv" = Some occupancy_text /\
  In "occupancy_rate" ["occupancy_rate"; "capacity"] /\
  loc (columns occupancy_text) "occupancy_rate"
  = Some (mkSeries Object [Str "85.5"; Str "unknown"]) /\
  comparable (mkSeries Object [Str "85.5"; Str "unknown"]) = false /\
  run_quality_checks env_ex (files occupancy_text) = None.
Proof.
  split; [reflexivity|]. split; [left; reflexivity|].
  split; [reflexivity|]. split; [reflexivity|].
  exact (proj1 (proj2 (run_quality_checks_aborts env_ex
                         (files occupancy_text)))
           occupancy_text "occupancy_rate"
           (mkSeries Object [Str "85.5"; Str "unknown"])
           eq_refl (or_introl eq_refl) eq_refl eq_refl).
Defined.

(** ** Freshness first, outliers next *)

Lemma flat_map_ext_in {A B : Type} (f g : A -> list B) (l : list A) :
  (forall x, In x l -> f x = g x) -> flat_map f l = flat_map g l.
Proof.
  intros H. rewrite !flat_map_concat_map. f_equal.
  apply map_ext_in. exact H.
Qed.

(** X12.  The in-place coercion of the date column does not disturb the
    outlier check that the driver runs next on the same table: for listed
    columns other than the date column, none of them a column of booleans
    with rows, the outlier check appends after the freshness check exactly
    the findings and passes it would have appended before it. *)
Theorem outliers_after_freshness env df df_name date_column max_age_days
    numeric_columns st :
  ~ In date_column numeric_columns ->
  (forall col s, In col numeric_columns ->
                 loc (columns (frames st df)) col = Some s ->
                 has_quantiles s = true) ->
  let st' :=
    snd (check_data_freshness env df df_name date_column max_age_days st) in
  emits (check_outliers env df df_name numeric_columns) st
    (flat_map (outlier_findings env df_name (frames st df)) numeric_columns)
    (flat_map (outlier_passes df_name (frames st df)) numeric_columns) /\
  emits (check_outliers env df df_name numeric_columns) st'
    (flat_map (outlier_findings env df_name (frames st df)) numeric_columns)
    (flat_map (outlier_passes df_name (frames st df)) numeric_columns).
Proof.
  intros Hnot Hq st'. split; [apply check_outliers_emits; exact Hq|].
  destruct (frames_after_freshness env df df_name date_column max_age_days
              st) as (Hn & Hl).
  fold st' in Hn, Hl.
  assert (Hne : forall col, In col numeric_columns ->
                            String.eqb col date_column = false).
  { intros col Hcol. apply String.eqb_neq. intros ->. exact (Hnot Hcol). }
  assert (Hq' : forall col s, In col numeric_columns ->
                  loc (columns (frames st' df)) col = Some s ->
                  has_quantiles s = true).
  { intros col s Hcol Hs. rewrite (Hl col (Hne col Hcol)) in Hs.
    exact (Hq col s Hcol Hs). }
  pose proof (check_outliers_emits env df df_name numeric_columns st' Hq')
    as H.
  cbv zeta in H.
  rewrite (flat_map_ext_in (outlier_findings env df_name (frames st' df))
             (outlier_findings env df_name (frames st df))) in H.
  2:{ intros col Hcol. unfold outlier_findings, is_numeric_column.
      rewrite (Hl col (Hne col Hcol)), Hn. reflexivity. }
  rewrite (flat_map_ext_in (outlier_passes df_name (frames st' df))
             (outlier_passes df_name (frames st df))) in H.
  2:{ intros col Hcol. unfold outlier_passes, is_numeric_column.
      rewrite (Hl col (Hne col Hcol)), Hn. reflexivity. }
  exact H.
Qed.

Lemma outliers_after_freshness_witness :
  ~ In "date" ["occupancy_rate"] /\
  (forall col s, In col ["occupancy_rate"] ->
                 loc (columns (frames (state_of frame_old_dates)
                                      occupancy_df)) col = Some s ->
                 has_quantiles s = true) /\
  emits (check_outliers env_ex occupancy_df "occupancy_data"
           ["occupancy_rate"])
    (snd (check_data_freshness env_ex occupancy_df "occupancy_data" "date" 7
            (state_of frame_old_dates)))
    [] ["occupancy_data.occupancy_rate outlier check"].
Proof.
  assert (Hnot : ~ In "date" ["occupancy_rate"]).
  { intros [E | []]. discriminate E. }
  assert (Hq : forall col s, In col ["occupancy_rate"] ->
                 loc (columns (frames (state_of frame_old_dates)
                                      occupancy_df)) col = Some s ->
                 has_quantiles s = true).
  { intros col s [<- | []] Hs. cbn in Hs. inversion Hs. reflexivity. }
  split; [exact Hnot|]. split; [exact Hq|].
  exact (proj2 (outliers_after_freshness env_ex occupancy_df
                  "occupancy_data" "date" 7 ["occupancy_rate"]
                  (state_of frame_old_dates) Hnot Hq)).
Defined.

(** ** Columns of booleans *)




